(** * ez-ssg: the content build pipeline, embedded and verified

    A shallow embedding of the Go program (package [main]): the frontmatter
    codec ([addFrontmatter], [readFull]), [rootName], [parse], the discovery
    and tag stages of [generate], the code-block render hook and [reset].
    Go's [string] and [[]byte] are both byte sequences and are embedded as
    [list ascii]; fallible functions return a [result]; the file system the
    program reads and writes is threaded explicitly. *)

From Stdlib Require Import List Ascii String Arith NArith ZArith DecimalString Lia Bool.
From stdpp Require Import base option list strings gmap.

Set Default Proof Using "Type".
Set Warnings "-register-all".
Local Open Scope list_scope.

(** ** Byte strings *)

Abbreviation bytes := (list ascii).

(** A Go string or byte-slice literal. *)
Definition str (s : string) : bytes := list_ascii_of_string s.

Definition LF : ascii := "010"%char.
Definition CR : ascii := "013"%char.

(** The double quote. *)
Definition DQ : ascii := "034"%char.

(** ** Errors

    [error] mirrors the error values the program can observe: the
    [*fs.PathError] of package os, which carries the path of the failed
    operation; the sentinel [bufio.ErrTooLong]; the [*json.SyntaxError] and
    [*json.UnmarshalTypeError] of encoding/json, whose fields are computed
    from the decoded bytes alone; the error of a template that is missing
    or does not parse; and [fmt.Errorf(format, a..., err)], where [err] is
    the operand of the [%w] verb and [a] are the operands before it. *)

Inductive error : Type :=
| PathError (op : bytes) (path : bytes) (msg : bytes)
| ErrTooLong
| SyntaxError
| UnmarshalTypeError
| TemplateError (name : bytes)
| Errorf (format : bytes) (a : list bytes) (err : error).

(** The error at the bottom of a chain of [%w] wrappers. *)
Fixpoint Unwrap (e : error) : error :=
  match e with
  | Errorf _ _ err => Unwrap err
  | _ => e
  end.

(** An I/O error is one raised by an operation of package os. *)
Definition isIOError (e : error) : bool :=
  match Unwrap e with
  | PathError _ _ _ => true
  | _ => false
  end.

Inductive result (A : Type) : Type :=
| Ok (a : A)
| Err (e : error).
Arguments Ok {A} a.
Arguments Err {A} e.

Global Instance result_bind : MBind result := fun A B k r =>
  match r with
  | Ok a => k a
  | Err e => Err e
  end.

(** [wrap format a r] is the idiom
    [if err != nil { return fmt.Errorf(format, a..., err) }]. *)
Definition wrap {A} (format : bytes) (a : list bytes) (r : result A) : result A :=
  match r with
  | Ok x => Ok x
  | Err e => Err (Errorf format a e)
  end.

(** The paths an error carries: the path of a [PathError] and the
    operands formatted into the text of its wrappers. *)
Fixpoint names (e : error) (path : bytes) : Prop :=
  match e with
  | PathError _ p _ => p = path
  | Errorf _ a err => path ∈ a \/ names err path
  | _ => False
  end.

Definition isOk {A} (r : result A) : bool :=
  match r with Ok _ => true | Err _ => false end.

(** ** Paths and the file system (packages path/filepath and os) *)

Module filepath.

Definition Separator : ascii := "/"%char.

(** [strings.Split(s, sep)] for a one-byte separator: the pieces between
    the separators, never an empty list. *)
Fixpoint splitOn (sep : ascii) (s : bytes) : list bytes :=
  match s with
  | [] => [[]]
  | c :: s' =>
      if decide (c = sep) then [] :: splitOn sep s'
      else match splitOn sep s' with
           | piece :: pieces => (c :: piece) :: pieces
           | [] => [[c]]
           end
  end.

(** [filepath.Split]: the path is cut after its final separator; the
    second component is the file name. *)
Definition Split (path : bytes) : bytes * bytes :=
  let pieces := splitOn Separator path in
  let file := List.last pieces [] in
  (take (length path - length file) path, file).

(** [filepath.Join]: the non-empty elements, a separator between them.
    The elements are taken as clean: no [..] is resolved. *)
Fixpoint joinAll (elem : list bytes) : bytes :=
  match elem with
  | [] => []
  | [e] => e
  | e :: rest => e ++ Separator :: joinAll rest
  end.

Definition Join (elem : list bytes) : bytes :=
  joinAll (filter (fun e => e <> []) elem).

(** The elements of a path: what remains between separators once empty
    and [.] elements are dropped, as the kernel resolves it. *)
Definition elements (path : bytes) : list bytes :=
  filter (fun e => e <> [] /\ e <> (str ".")) (splitOn Separator path).

End filepath.

Module os.

Inductive node : Type :=
| File (content : bytes)
| Dir.

(** A file tree: the nodes that exist, keyed by the elements of their
    path from the working directory. *)
Abbreviation FS := (gmap (list bytes) node).

Definition ENOENT : bytes := (str "no such file or directory").
Definition EISDIR : bytes := (str "is a directory").
Definition ENOTDIR : bytes := (str "not a directory").
Definition EEXIST : bytes := (str "file exists").

(** The directory a path lives in exists (the working directory always
    does). *)
Definition parentOk (fs : FS) (p : list bytes) : bool :=
  match p with
  | [] => true
  | _ =>
      match removelast p with
      | [] => true
      | parent => match fs !! parent with Some Dir => true | _ => false end
      end
  end.

(** [os.Open] followed by reading the file to its end. Opening a
    directory succeeds; reading from it fails. *)
Definition Open (fs : FS) (name : bytes) : result node :=
  match fs !! filepath.elements name with
  | Some n => Ok n
  | None => Err (PathError (str "open") name ENOENT)
  end.

Definition Read (name : bytes) (f : node) : result bytes :=
  match f with
  | File content => Ok content
  | Dir => Err (PathError (str "read") name EISDIR)
  end.

(** [os.WriteFile] and [os.Create] followed by writing: create or
    truncate. *)
Definition WriteFile (fs : FS) (name : bytes) (data : bytes) : result FS :=
  let p := filepath.elements name in
  match fs !! p with
  | Some Dir => Err (PathError (str "open") name EISDIR)
  | _ =>
      if parentOk fs p then Ok (<[p := File data]> fs)
      else Err (PathError (str "open") name ENOENT)
  end.

End os.

(** ** The line scanner (package bufio) *)

Module bufio.

Definition MaxScanTokenSize : N := 64 * 1024.

(** The buffer is full of the current line. *)
Definition bufferFull (line : bytes) : bool :=
  (MaxScanTokenSize <=? N.of_nat (length line))%N.

(** [dropCR] drops a terminal carriage return from the data. *)
Definition dropCR (data : bytes) : bytes :=
  if decide (last data = Some CR) then removelast data else data.

(** The tokens a [Scanner] with the [ScanLines] split function and the
    default buffer yields over successive calls of [Scan], and the value
    of [Err] once [Scan] has returned false. [line] holds, newest byte
    first, the bytes of the current line read so far. A line ends at a
    line feed or at the end of the input; an empty final line is no
    token. The buffer grows to [MaxScanTokenSize] bytes and no further:
    when that many bytes are buffered and hold no line feed, scanning
    stops with [ErrTooLong]. *)
Fixpoint scanFrom (line : bytes) (data : bytes) : list bytes * option error :=
  match data with
  | [] =>
      match line with
      | [] => ([], None)
      | _ =>
          if bufferFull line then ([], Some ErrTooLong)
          else ([dropCR (reverse line)], None)
      end
  | c :: data' =>
      if decide (c = LF) then
        if bufferFull line then ([], Some ErrTooLong)
        else
          let '(tokens, err) := scanFrom [] data' in
          (dropCR (reverse line) :: tokens, err)
      else scanFrom (c :: line) data'
  end.

Definition scan (data : bytes) : list bytes * option error :=
  scanFrom [] data.

End bufio.

(** ** The frontmatter codec *)

Definition FRONTMATTER_BOUNDARY : bytes := (str "------------------").

(** The body of the [for scanner.Scan()] loop of [readFull], run over the
    tokens of the scanner. Writing to a [bytes.Buffer] returns no error, so
    the two error returns inside the loop are never taken. *)
Fixpoint readFullLoop (tokens : list bytes) (boundaryCount : nat)
    (bufFrontMatter bufContent : bytes) : nat * bytes * bytes :=
  match tokens with
  | [] => (boundaryCount, bufFrontMatter, bufContent)
  | b :: tokens' =>
      if bool_decide (b = FRONTMATTER_BOUNDARY) && (boundaryCount <? 2) then
        readFullLoop tokens' (boundaryCount + 1) bufFrontMatter bufContent
      else if boundaryCount <? 2 then
        readFullLoop tokens' boundaryCount (bufFrontMatter ++ b) bufContent
      else
        readFullLoop tokens' boundaryCount bufFrontMatter (bufContent ++ b ++ [LF])
  end.

(** What [readFull] does with the bytes of the opened file. *)
Definition decode (name : bytes) (f : os.node) : result (bytes * bytes) :=
  match os.Read name f with
  | Err e => Err (Errorf (str "error post reading file: %w") [] e)
  | Ok data =>
      let '(tokens, err) := bufio.scan data in
      let '(_, bufFrontMatter, bufContent) := readFullLoop tokens 0 [] [] in
      match err with
      | Some e => Err (Errorf (str "error post reading file: %w") [] e)
      | None => Ok (bufFrontMatter, bufContent)
      end
  end.

Definition readFull (fs : os.FS) (filepath : bytes) : result (bytes * bytes) :=
  f ← wrap (str "error opening file: %w") [] (os.Open fs filepath);
  decode filepath f.

Definition addFrontmatter (fs : os.FS) (filepath : bytes) (data : bytes)
    : result os.FS :=
  let buf := FRONTMATTER_BOUNDARY ++ [LF] in
  let buf := buf ++ data in
  let buf := buf ++ ([LF] ++ FRONTMATTER_BOUNDARY ++ [LF]) in
  wrap (str "error writing frontmatter to file: %w") []
    (os.WriteFile fs filepath buf).

(** [rootName]: if path is bbc/cbc/abc.md, root name is abc. *)
Definition rootName (path : bytes) : bytes :=
  let '(_, filename) := filepath.Split path in
  hd [] (filepath.splitOn "."%char filename).

(** ** JSON (package encoding/json)

    [json.Unmarshal] first checks that its input is one well-formed JSON
    text and then assigns the value to the destination. The model reads
    the bytes into tokens, then folds the tokens into a [value] with an
    explicit stack of open containers, as the package's scanner does with
    its parse-state stack. *)

Module json.

Inductive token : Type :=
| LBrace | RBrace | LBracket | RBracket | Colon | Comma
| TString (s : bytes)
| TWord (w : bytes).

(** Strings keep the text between their quotes; numbers keep their
    literal. *)
Inductive value : Type :=
| Null
| Bool (b : bool)
| Number (literal : bytes)
| String (text : bytes)
| Array (elems : list value)
| Object (fields : list (bytes * value)).

Definition isSpace (c : ascii) : bool :=
  bool_decide (c = " "%char) || bool_decide (c = "009"%char)
  || bool_decide (c = CR) || bool_decide (c = LF).

Definition punct (c : ascii) : option token :=
  if decide (c = "{"%char) then Some LBrace
  else if decide (c = "}"%char) then Some RBrace
  else if decide (c = "["%char) then Some LBracket
  else if decide (c = "]"%char) then Some RBracket
  else if decide (c = ":"%char) then Some Colon
  else if decide (c = ","%char) then Some Comma
  else None.

Definition isDigit (c : ascii) : bool :=
  (48 <=? nat_of_ascii c) && (nat_of_ascii c <=? 57).

Definition isHex (c : ascii) : bool :=
  isDigit c
  || ((97 <=? nat_of_ascii c) && (nat_of_ascii c <=? 102))
  || ((65 <=? nat_of_ascii c) && (nat_of_ascii c <=? 70)).

Definition isEscape (c : ascii) : bool :=
  bool_decide (c ∈ [ DQ; "\"%char; "/"%char; "b"%char; "f"%char;
                     "n"%char; "r"%char; "t"%char ]).

(** Where the reader stands: between tokens, inside a string (after a
    backslash, inside the four hex digits of a \u escape), or inside a
    number or literal. The bytes gathered so far are kept newest first. *)
Inductive mode : Type :=
| Between
| InString (acc : bytes)
| InEscape (acc : bytes)
| InHex (todo : nat) (acc : bytes)
| InWord (acc : bytes).

(** One byte read between tokens. *)
Definition stepBetween (c : ascii) : list token * mode :=
  if isSpace c then ([], Between)
  else match punct c with
       | Some t => ([t], Between)
       | None =>
           if decide (c = DQ) then ([], InString [])
           else ([], InWord [c])
       end.

Definition endsWord (c : ascii) : bool :=
  isSpace c || bool_decide (is_Some (punct c)) || bool_decide (c = DQ).

Definition step (m : mode) (c : ascii) : option (list token * mode) :=
  match m with
  | Between => Some (stepBetween c)
  | InString acc =>
      if decide (c = DQ) then Some ([TString (reverse acc)], Between)
      else if decide (c = "\"%char) then Some ([], InEscape (c :: acc))
      else if nat_of_ascii c <? 32 then None
      else Some ([], InString (c :: acc))
  | InEscape acc =>
      if isEscape c then Some ([], InString (c :: acc))
      else if decide (c = "u"%char) then Some ([], InHex 4 (c :: acc))
      else None
  | InHex todo acc =>
      if isHex c then
        match todo with
        | S (S n) => Some ([], InHex (S n) (c :: acc))
        | _ => Some ([], InString (c :: acc))
        end
      else None
  | InWord acc =>
      if endsWord c then
        let '(out, m') := stepBetween c in Some (TWord (reverse acc) :: out, m')
      else Some ([], InWord (c :: acc))
  end.

Fixpoint lexFrom (m : mode) (data : bytes) : option (list token) :=
  match data with
  | [] =>
      match m with
      | Between => Some []
      | InWord acc => Some [TWord (reverse acc)]
      | _ => None
      end
  | c :: data' =>
      match step m c with
      | Some (out, m') =>
          match lexFrom m' data' with
          | Some tokens => Some (out ++ tokens)
          | None => None
          end
      | None => None
      end
  end.

Definition lex (data : bytes) : option (list token) := lexFrom Between data.

(** The grammar of a number: an optional minus, an integer part without
    a leading zero, an optional fraction, an optional exponent. *)
Fixpoint digits (s : bytes) : bytes :=
  match s with
  | c :: s' => if isDigit c then digits s' else s
  | [] => []
  end.

Definition exponent (s : bytes) : bool :=
  match s with
  | [] => true
  | e :: s1 =>
      if bool_decide (e = "e"%char) || bool_decide (e = "E"%char) then
        let s2 := match s1 with
                  | sign :: s2 =>
                      if bool_decide (sign = "+"%char) || bool_decide (sign = "-"%char)
                      then s2 else s1
                  | [] => s1
                  end in
        match s2 with
        | d :: _ => isDigit d && bool_decide (digits s2 = [])
        | [] => false
        end
      else false
  end.

Definition fraction (s : bytes) : bool :=
  match s with
  | dot :: (d :: _) as s1 =>
      if decide (dot = "."%char) then isDigit d && exponent (digits s1)
      else exponent s
  | _ => exponent s
  end.

Definition isNumber (w : bytes) : bool :=
  let s := match w with
           | minus :: s => if decide (minus = "-"%char) then s else w
           | [] => w
           end in
  match s with
  | d :: s1 =>
      if decide (d = "0"%char) then fraction s1
      else isDigit d && fraction (digits s1)
  | [] => false
  end.

Definition wordValue (w : bytes) : option value :=
  if decide (w = str "true") then Some (Bool true)
  else if decide (w = str "false") then Some (Bool false)
  else if decide (w = str "null") then Some Null
  else if isNumber w then Some (Number w)
  else None.

(** An open container waiting for the value being read. *)
Inductive context : Type :=
| CArray (elems : list value)
| CObject (fields : list (bytes * value)) (key : bytes).

Inductive state : Type :=
| BeginValue (stack : list context)
| BeginArray (stack : list context)
| BeginObject (stack : list context)
| ObjectKey (fields : list (bytes * value)) (stack : list context)
| ObjectColon (fields : list (bytes * value)) (key : bytes) (stack : list context)
| ArrayNext (elems : list value) (stack : list context)
| ObjectNext (fields : list (bytes * value)) (stack : list context)
| EndTop (v : value).

Definition maxNestingDepth : N := 10000.

(** A value is complete: it goes into the innermost open container. *)
Definition endValue (v : value) (stack : list context) : state :=
  match stack with
  | [] => EndTop v
  | CArray elems :: stack' => ArrayNext (v :: elems) stack'
  | CObject fields key :: stack' => ObjectNext ((key, v) :: fields) stack'
  end.

Definition beginValue (t : token) (stack : list context) : option state :=
  match t with
  | TString s => Some (endValue (String s) stack)
  | TWord w =>
      match wordValue w with
      | Some v => Some (endValue v stack)
      | None => None
      end
  | LBracket =>
      if (N.of_nat (length stack) <? maxNestingDepth)%N
      then Some (BeginArray stack) else None
  | LBrace =>
      if (N.of_nat (length stack) <? maxNestingDepth)%N
      then Some (BeginObject stack) else None
  | _ => None
  end.

Definition feed (st : state) (t : token) : option state :=
  match st with
  | BeginValue stack => beginValue t stack
  | BeginArray stack =>
      match t with
      | RBracket => Some (endValue (Array []) stack)
      | _ => beginValue t (CArray [] :: stack)
      end
  | BeginObject stack =>
      match t with
      | RBrace => Some (endValue (Object []) stack)
      | TString key => Some (ObjectColon [] key stack)
      | _ => None
      end
  | ObjectKey fields stack =>
      match t with
      | TString key => Some (ObjectColon fields key stack)
      | _ => None
      end
  | ObjectColon fields key stack =>
      match t with
      | Colon => Some (BeginValue (CObject fields key :: stack))
      | _ => None
      end
  | ArrayNext elems stack =>
      match t with
      | Comma => Some (BeginValue (CArray elems :: stack))
      | RBracket => Some (endValue (Array (reverse elems)) stack)
      | _ => None
      end
  | ObjectNext fields stack =>
      match t with
      | Comma => Some (ObjectKey fields stack)
      | RBrace => Some (endValue (Object (reverse fields)) stack)
      | _ => None
      end
  | EndTop _ => None
  end.

Fixpoint feedAll (st : state) (tokens : list token) : option state :=
  match tokens with
  | [] => Some st
  | t :: tokens' =>
      match feed st t with
      | Some st' => feedAll st' tokens'
      | None => None
      end
  end.

(** The value of a JSON text, if it is one. *)
Definition parse (data : bytes) : option value :=
  match lex data with
  | Some tokens =>
      match feedAll (BeginValue []) tokens with
      | Some (EndTop v) => Some v
      | _ => None
      end
  | None => None
  end.

(** [json.Unmarshal(data, &dst)] for a zero [dst]: [assign] is the
    assignment of a parsed value to the destination type, which fails
    when a JSON value does not fit the Go type of its field. *)
Definition Unmarshal {T} (assign : value -> option T) (data : bytes) : result T :=
  match parse data with
  | None => Err SyntaxError
  | Some v =>
      match assign v with
      | Some dst => Ok dst
      | None => Err UnmarshalTypeError
      end
  end.

End json.

(** ** More of package os: directories and trees *)

Module tree.
Import os.

(** [p] is [d] or lies below it. *)
Definition under (d p : list bytes) : Prop := d `prefix_of` p.

(** [os.RemoveAll] of a path below the working directory: the path and
    everything below it go; a path that does not exist is no error. *)
Definition RemoveAll (fs : FS) (name : bytes) : FS :=
  filter (λ kv, ¬ under (filepath.elements name) kv.1) fs.

(** [os.MkdirAll]: every missing directory on the way is created; an
    element that exists and is a file is an error. [done] holds the
    elements already walked. *)
Fixpoint mkdirFrom (name : bytes) (done todo : list bytes) (fs : FS) : result FS :=
  match todo with
  | [] => Ok fs
  | e :: todo' =>
      let p := done ++ [e] in
      match fs !! p with
      | Some Dir => mkdirFrom name p todo' fs
      | Some (File _) => Err (PathError (str "mkdir") name ENOTDIR)
      | None => mkdirFrom name p todo' (<[p := Dir]> fs)
      end
  end.

Definition MkdirAll (fs : FS) (name : bytes) : result FS :=
  mkdirFrom name [] (filepath.elements name) fs.

(** A read-only file tree ([fs.FS], here an [embed.FS]) as
    [fs.WalkDir] visits it from its root: each entry with its path. *)
Abbreviation Walk := (list (bytes * node)).

(** [os.CopyFS]: directories are made with [MkdirAll]; files are created
    with [O_EXCL], so a file that exists already is an error. *)
Fixpoint CopyFS (fs : FS) (dir : bytes) (fsys : Walk) : result FS :=
  match fsys with
  | [] => Ok fs
  | (fpath, entry) :: fsys' =>
      let newPath := filepath.Join [dir; fpath] in
      fs' ← match entry with
            | Dir => MkdirAll fs newPath
            | File content =>
                match fs !! filepath.elements newPath with
                | Some _ => Err (PathError (str "open") newPath EEXIST)
                | None =>
                    if parentOk fs (filepath.elements newPath)
                    then Ok (<[filepath.elements newPath := File content]> fs)
                    else Err (PathError (str "open") newPath ENOENT)
                end
            end;
      CopyFS fs' dir fsys'
  end.

(** [fs.Glob(os.DirFS(dir), "*" + suffix)]: the names in [dir] that end
    with [suffix], in byte order. Directories match as files do. *)
Fixpoint lessEq (a b : bytes) : bool :=
  match a, b with
  | [], _ => true
  | _ :: _, [] => false
  | x :: a', y :: b' =>
      if nat_of_ascii x <? nat_of_ascii y then true
      else if nat_of_ascii y <? nat_of_ascii x then false
      else lessEq a' b'
  end.

Fixpoint insertSorted (name : bytes) (sorted : list bytes) : list bytes :=
  match sorted with
  | [] => [name]
  | n :: sorted' =>
      if lessEq name n then name :: sorted else n :: insertSorted name sorted'
  end.

Definition ReadDir (fs : FS) (dir : bytes) : list bytes :=
  foldr insertSorted []
    (omap (λ kv : list bytes * node,
             match reverse kv.1 with
             | name :: parent =>
                 if decide (reverse parent = filepath.elements dir)
                 then Some name else None
             | [] => None
             end)
          (map_to_list fs)).

Definition Glob (fs : FS) (dir : bytes) (suffix : bytes) : list bytes :=
  filter (λ name, suffix `suffix_of` name) (ReadDir fs dir).

End tree.

(** ** The markdown tree and its renderer (package gomarkdown) *)

Module ast.

Inductive Node : Type :=
| Document (children : list Node)
| Container (kind : bytes) (children : list Node)
| CodeBlock (Literal : bytes)
| Leaf (kind : bytes) (Literal : bytes).

Inductive WalkStatus : Type := GoToNext | SkipChildren | Terminate.

(** A visitor writes to the output and says how to go on. *)
Abbreviation Visitor := (Node → bool → bytes * WalkStatus).

Section Walk.
Context (visit : Visitor).

(** The visits of a container around the walk of its children. *)
Definition walkContainer (n : Node) (children : bytes * WalkStatus)
    : bytes * WalkStatus :=
  let '(out, status) := visit n true in
  match status with
  | Terminate => (out ++ (visit n false).1, Terminate)
  | SkipChildren =>
      let '(out', status') := visit n false in
      (out ++ out',
       match status' with Terminate => Terminate | _ => GoToNext end)
  | GoToNext =>
      let '(outc, statusc) := children in
      match statusc with
      | Terminate => (out ++ outc, Terminate)
      | _ =>
          let '(out', status') := visit n false in
          (out ++ outc ++ out',
           match status' with Terminate => Terminate | _ => GoToNext end)
      end
  end.

Fixpoint Walk (n : Node) : bytes * WalkStatus :=
  let walkAll :=
    fix walkAll (ns : list Node) : bytes * WalkStatus :=
      match ns with
      | [] => ([], GoToNext)
      | c :: ns' =>
          let '(out, status) := Walk c in
          match status with
          | Terminate => (out, Terminate)
          | _ => let '(out', status') := walkAll ns' in (out ++ out', status')
          end
      end in
  match n with
  | Document children => walkContainer n (walkAll children)
  | Container _ children => walkContainer n (walkAll children)
  | CodeBlock _ | Leaf _ _ =>
      let '(out, status) := visit n true in
      (out, match status with Terminate => Terminate | _ => GoToNext end)
  end.
End Walk.

End ast.

(** [renderCodeBlock] writes the wrapper and the literal on entering. *)
Definition renderCodeBlock (Literal : bytes) (entering : bool) : bytes :=
  if entering then
    str "<div class='highlight'><pre class='highlight'><code>"
    ++ Literal
    ++ str "</code></pre></div>"
  else [].

(** [myRenderHook]: what is written, the status, and whether the node was
    handled. *)
Definition myRenderHook (node : ast.Node) (entering : bool)
    : bytes * ast.WalkStatus * bool :=
  match node with
  | ast.CodeBlock Literal => (renderCodeBlock Literal entering, ast.GoToNext, true)
  | _ => ([], ast.GoToNext, false)
  end.

(** ** The records of the program *)

Module Tag.
Record t : Type := Build { Slug : bytes; Layout : bytes }.
End Tag.

Module Post.
Record t : Type := Build {
  Markdown : bytes;
  HTML : bytes;
  Layout : bytes;
  Title : bytes;
  Date : bytes;
  Description : bytes;
  Tags : list bytes;
  RootName : bytes
}.

(** The zero value [Post{}]. *)
Definition zero : t := Build [] [] [] [] [] [] [] [].
End Post.

Module Link.
Record t : Type := Build { URL : bytes; DisplayText : bytes }.
End Link.

Module Config.
Record t : Type := Build {
  Title : bytes;
  Description : bytes;
  URL : bytes;
  SpecialLinks : list Link.t;
  Paths_Blog : bytes;
  Analytics_TrackingID : bytes;
  Tags : list Tag.t;
  Posts : list Post.t
}.
End Config.

Record IncludesContent : Type := {
  ic_Site : Config.t;
  ic_Post : Post.t
}.

Record LayoutContent : Type := {
  lc_Includes : gmap bytes bytes;
  lc_Content : bytes;
  lc_Site : Config.t;
  lc_Post : Post.t;
  lc_Tag : Tag.t
}.

Definition MARKDOWN_DIR : bytes := str "markdown".
Definition SITE_DIR : bytes := str "docs".

Definition INCLUDES_HEAD : bytes := str "Head".
Definition INCLUDES_HEADER : bytes := str "Header".
Definition INCLUDES_FOOTER : bytes := str "Footer".
Definition INCLUDES_FOOTERPOST : bytes := str "FooterPost".

(** What the program keeps between calls: the file tree and the global map
    [includesRender]. *)
Record World : Type := {
  files : gmap (list bytes) os.node;
  includesRender : gmap bytes bytes
}.

(** ** The pipeline *)

Section Pipeline.

(** The libraries the pipeline calls and the assets compiled into it:
    the assignment of a parsed JSON value to a [Post]; the markdown
    parser with the extensions of [mdToHTML]; the renderer's own output
    for a node, which with the flags of [newCustomizedRender] always
    goes on to the next node; the execution of an include template
    (empty when the template is missing); the layout templates by name;
    the embedded assets. *)
Context (assignPost : json.value → option Post.t).
Context (Parse : bytes → ast.Node).
Context (defaultRenderNode : ast.Node → bool → bytes).
Context (ExecuteTemplate : bytes → IncludesContent → bytes).
Context (layouts : bytes → option (LayoutContent → bytes)).
Context (assetsEFS : tree.Walk).

(** [Renderer.RenderNode] with [myRenderHook] as its [RenderNodeHook]. *)
Definition RenderNode : ast.Visitor := λ node entering,
  let '(out, status, didHandle) := myRenderHook node entering in
  if didHandle then (out, status)
  else (out ++ defaultRenderNode node entering, ast.GoToNext).

(** [markdown.Render]: without the complete-page flag the header and the
    footer are empty. *)
Definition mdToHTML (md : bytes) : bytes :=
  let doc := Parse md in
  (ast.Walk RenderNode doc).1.

Definition parse (fs : os.FS) (path : bytes) : result Post.t :=
  '(metadata, markdown) ←
    wrap (str "error reading post: %s, %w") [path] (readFull fs path);
  post ← wrap (str "error unmarshaling metadata: %w") []
           (json.Unmarshal assignPost metadata);
  Ok (Post.Build markdown (mdToHTML markdown)
        (Post.Layout post) (Post.Title post) (Post.Date post)
        (Post.Description post) (Post.Tags post) (rootName path)).

(** The block "Parse posts" of [generate]: the loop over the names. *)
Fixpoint parsePosts (fs : os.FS) (postsDir : bytes) (postsFilenames : list bytes)
    (posts : list Post.t) : result (list Post.t) :=
  match postsFilenames with
  | [] => Ok posts
  | name :: rest =>
      let path := filepath.Join [postsDir; name] in
      post ← wrap (str "error rendering posts: %w") [] (parse fs path);
      parsePosts fs postsDir rest (posts ++ [post])
  end.

Definition setPosts (cfg : Config.t) (posts : list Post.t) : Config.t :=
  Config.Build (Config.Title cfg) (Config.Description cfg) (Config.URL cfg)
    (Config.SpecialLinks cfg) (Config.Paths_Blog cfg)
    (Config.Analytics_TrackingID cfg) (Config.Tags cfg) posts.

(** The block "Parse posts" of [generate] as a whole: on an error
    [generate] returns and [cfg] is not assigned. *)
Definition discoverPosts (fs : os.FS) (cfg : Config.t) : result Config.t :=
  let postsDir := filepath.Join [MARKDOWN_DIR; str "posts"] in
  let postsFilenames := tree.Glob fs postsDir (str ".md") in
  posts ← parsePosts fs postsDir postsFilenames [];
  Ok (setPosts cfg posts).

(** The loop of [render] over [includesRender]: a key that names one of
    the four include files sets the entry of its keyword. *)
Definition renderIncludes (content : IncludesContent) (m : gmap bytes bytes)
    : gmap bytes bytes :=
  foldl (λ (acc : gmap bytes bytes) (kk : bytes * bytes),
           match m !! kk.1 with
           | Some _ => <[kk.2 := ExecuteTemplate kk.1 content]> acc
           | None => acc
           end)
        m
        [ (str "header.html", INCLUDES_HEADER);
          (str "footer.html", INCLUDES_FOOTER);
          (str "head.html", INCLUDES_HEAD);
          (str "footer-post.html", INCLUDES_FOOTERPOST) ].

Definition render (post : Post.t) (destDir : bytes) (cfg : Config.t)
    (tag : Tag.t) (w : World) : result World :=
  let includesContent := {| ic_Site := cfg; ic_Post := post |} in
  let includes := renderIncludes includesContent (includesRender w) in
  let layoutContent :=
    {| lc_Content := Post.HTML post; lc_Site := cfg; lc_Post := post;
       lc_Includes := includes; lc_Tag := tag |} in
  let layoutFilename := Post.Layout post in
  match layouts layoutFilename with
  | None =>
      Err (Errorf (str "error parsing layout template file %s: %w")
             [layoutFilename] (TemplateError layoutFilename))
  | Some layoutTempl =>
      fs ← wrap (str "error creating HTML file for %s: %w") [Post.RootName post]
             (os.WriteFile (files w)
                (filepath.Join [destDir; Post.RootName post ++ str ".html"])
                (layoutTempl layoutContent));
      Ok {| files := fs; includesRender := includes |}
  end.

(** The record a tag page is rendered from: "Parse tag as a post". *)
Definition tagAsPost (t : Tag.t) : Post.t :=
  Post.Build [] [] (str "tagged") [] [] [] [] (Tag.Slug t).

(** The block "Render tags pages" of [generate]. *)
Fixpoint renderTags (cfg : Config.t) (tags : list Tag.t) (w : World)
    : result World :=
  match tags with
  | [] => Ok w
  | t :: rest =>
      let destDir := filepath.Join [SITE_DIR; str "tagged"; Tag.Slug t] in
      fs ← wrap (str "error creating docs/tagged/%s folder: %w") [Tag.Slug t]
             (tree.MkdirAll (files w) destDir);
      let post := tagAsPost t in
      w' ← wrap (str "error rendering tags: %w") []
             (render post destDir cfg t
                {| files := fs; includesRender := includesRender w |});
      renderTags cfg rest w'
  end.

(** [reset]: delete old site directory and create new one, then copy
    over the assets folder. Removing a tree does not fail in the model. *)
Definition reset (fs : os.FS) : result os.FS :=
  let fs := tree.RemoveAll fs SITE_DIR in
  fs ← wrap (str "error creating docs/blog folder: %w") []
         (tree.MkdirAll fs (filepath.Join [SITE_DIR; str "blog"]));
  fs ← wrap (str "error creating docs/tagged folder: %w") []
         (tree.MkdirAll fs (filepath.Join [SITE_DIR; str "tagged"]));
  wrap (str "error copying docs/assets folder: %w") []
    (tree.CopyFS fs SITE_DIR assetsEFS).

End Pipeline.

(** ** The first version of the program (main.go)

    [format] in main.go builds the record of a tag page from the tag's own
    layout; its [Tag] has a name and its [Post] a URL and a subtitle. *)

Module MainGo.

Module Tag.
Record t : Type := Build { Slug : bytes; Name : bytes; Layout : bytes }.
End Tag.

Module Post.
Record t : Type := Build {
  Markdown : bytes;
  HTML : bytes;
  Layout : bytes;
  Title : bytes;
  Date : bytes;
  Description : bytes;
  URL : bytes;
  Subtitle : bytes;
  Tags : list bytes;
  RootName : bytes
}.
End Post.

(** "Parse tag as a post": [Post{Layout: t.Layout, RootName: t.Slug}]. *)
Definition tagAsPost (t : Tag.t) : Post.t :=
  Post.Build [] [] (Tag.Layout t) [] [] [] [] [] [] (Tag.Slug t).

Section format.
(** [render] and the state it works on. *)
Context {W : Type}.
Context (MkdirAll : bytes → W → result W).
Context (render : Post.t → bytes → Tag.t → W → result W).

(** The block "Render tags pages" of [format]; [log.Fatalf] ends the
    run. *)
Fixpoint renderTags (tags : list Tag.t) (w : W) : result W :=
  match tags with
  | [] => Ok w
  | t :: rest =>
      let destDir := filepath.Join [str "doc"; str "tagged"; Tag.Slug t] in
      w1 ← wrap (str "error creating site/tagged/%s folder: %v") [Tag.Slug t]
             (MkdirAll destDir w);
      let post := tagAsPost t in
      w2 ← wrap (str "error rendering tags: %v") [] (render post destDir t w1);
      renderTags rest w2
  end.
End format.

End MainGo.

(** * The commands of the program

    What the claims leave out of the program: the helpers of packages
    strings, slices, time and fmt that it calls, [ContainsTag],
    [formatDate], [read], the commands [initDirs], [initPost] and
    [createTag], and the block of [generate] that reads the tags. *)

Module strings.

(** [strings.ReplaceAll(s, old, new)] for an [old] and a [new] of one byte
    each. *)
Definition ReplaceAll (s : bytes) (old new : ascii) : bytes :=
  map (λ c, if decide (c = old) then new else c) s.

End strings.

Module slices.

(** [slices.Index]: the index of the first element equal to [v], or -1. *)
Fixpoint indexFrom (i : Z) (s : list bytes) (v : bytes) : Z :=
  match s with
  | [] => (-1)%Z
  | x :: s' => if decide (v = x) then i else indexFrom (i + 1)%Z s' v
  end.

Definition Index (s : list bytes) (v : bytes) : Z := indexFrom 0%Z s v.

Definition Contains (s : list bytes) (v : bytes) : bool :=
  (0 <=? Index s v)%Z.

End slices.

Definition ContainsTag (p : Post.t) (tag : bytes) : bool :=
  slices.Contains (Post.Tags p) tag.

Module time.

Inductive Month : Type :=
| January | February | March | April | May | June
| July | August | September | October | November | December.

(** What [formatDate] reads of a [time.Time]: [t.Year()], [t.Month()] and
    [t.Day()]. *)
Record Time : Type := { Year : Z; Month_of : Month; Day : Z }.

(** [t.Format("Jan")]: the short name of the month. *)
Definition shortMonthName (m : Month) : bytes :=
  match m with
  | January => str "Jan" | February => str "Feb" | March => str "Mar"
  | April => str "Apr" | May => str "May" | June => str "Jun"
  | July => str "Jul" | August => str "Aug" | September => str "Sep"
  | October => str "Oct" | November => str "Nov" | December => str "Dec"
  end.

End time.

(** The verb [%d] of package fmt: the decimal digits of an integer, a minus
    sign before a negative one. *)
Definition Itoa (i : Z) : bytes :=
  list_ascii_of_string (NilZero.string_of_int (Z.to_int i)).

(** [formatDate]: format the date as "Feb 21st, 2024". *)
Definition formatDate (t : time.Time) : bytes :=
  let day := time.Day t in
  let suffix :=
    if decide (day = 1 ∨ day = 21 ∨ day = 31)%Z then str "st"
    else if decide (day = 2 ∨ day = 22)%Z then str "nd"
    else if decide (day = 3 ∨ day = 23)%Z then str "rd"
    else str "th" in
  time.shortMonthName (time.Month_of t)
  ++ (str " " ++ Itoa day ++ suffix ++ str ", " ++ Itoa (time.Year t)).

(** [read]: the bytes of a file. *)
Definition read (fs : os.FS) (path : bytes) : result bytes :=
  f ← wrap (str "error opening metadata file: %w") [] (os.Open fs path);
  wrap (str "error reading metadata file: %w") [] (os.Read path f).

Definition CONFIG_FILE : bytes := str "config.json".
Definition INDEX_FILE : bytes := str "index.md".
Definition BLOG_FILE : bytes := str "blog.md".

Definition sampleCfg : Config.t :=
  Config.Build
    (str "chettriyuvraj")
    (str "Yuvraj Chettri's personal blog")
    (str "https://chettriyuvraj.github.io")
    [ Link.Build (str "https://www.linkedin.com/in/yuvraj-chettri/") (str "Linkedin");
      Link.Build (str "https://www.github.com/chettriyuvraj") (str "Github") ]
    (str "/blog")
    (str "1234567")
    [] [].

(** The result of a command that can also fail with an error made by
    [fmt.Errorf] without an operand. *)
Inductive outcome (A : Type) : Type :=
| Done (a : A)
| Failed (e : error)
| FailedNew (text : bytes).
Arguments Done {A} a.
Arguments Failed {A} e.
Arguments FailedNew {A} text.

Section Commands.

(** [json.MarshalIndent] at the three types it is called on (it returns no
    error for records of strings and slices), [strings.ToLower], and the
    assignment of a parsed JSON value to a [Tag]. *)
Context (marshalConfig : Config.t → bytes).
Context (marshalPost : Post.t → bytes).
Context (marshalTag : Tag.t → bytes).
Context (ToLower : bytes → bytes).
Context (assignTag : json.value → option Tag.t).

Definition indexPost : Post.t :=
  Post.Build [] [] []
    (str "(enter title for homepage - this is what is displayed when you hover over your browser page tab)")
    []
    (str "(enter description for home page - this is metadata and not website displayable content)")
    [] [].

Definition blogPost : Post.t :=
  Post.Build [] [] []
    (str "(enter title for blog page - this is what is displayed when you hover over your browser page tab)")
    []
    (str "(enter description for blog page - this is metadata and not website displayable content)")
    [] [].

Definition initDirs (fs : os.FS) : result os.FS :=
  fs ← wrap (str "error creating markdown/posts folder: %w") []
         (tree.MkdirAll fs (filepath.Join [MARKDOWN_DIR; str "posts"]));
  fs ← wrap (str "error creating markdown/tags folder: %w") []
         (tree.MkdirAll fs (filepath.Join [MARKDOWN_DIR; str "tags"]));
  fs ← wrap (str "error creating markdown/assets/images folder: %w") []
         (tree.MkdirAll fs (filepath.Join [MARKDOWN_DIR; str "assets"; str "images"]));
  let cfg := marshalConfig sampleCfg in
  let indexMeta := marshalPost indexPost in
  let blogMeta := marshalPost blogPost in
  let indexFilepath := filepath.Join [MARKDOWN_DIR; INDEX_FILE] in
  fs ← wrap (str "error creating file %s: %w") [indexFilepath]
         (addFrontmatter fs indexFilepath indexMeta);
  let blogFilepath := filepath.Join [MARKDOWN_DIR; BLOG_FILE] in
  fs ← wrap (str "error creating file %s: %w") [blogFilepath]
         (addFrontmatter fs blogFilepath blogMeta);
  let configFilepath := CONFIG_FILE in
  fs ← wrap (str "error creating file %s: %w") [configFilepath]
         (os.WriteFile fs configFilepath []);
  wrap (str "error creating file %s: %w") [configFilepath]
    (os.WriteFile fs configFilepath cfg).

(** [initPost]; [now] is [time.Now()]. *)
Definition initPost (now : time.Time) (title : bytes) (tags : list bytes)
    (fs : os.FS) : outcome os.FS :=
  if decide (title = []) then FailedNew (str "no title provided")
  else
    let filename := strings.ReplaceAll title " "%char "_"%char in
    let filepath := filepath.Join [MARKDOWN_DIR; str "posts"; filename ++ str ".md"] in
    let meta := Post.Build [] [] [] title (formatDate now) [] tags [] in
    let metaRaw := marshalPost meta in
    match addFrontmatter fs filepath metaRaw with
    | Ok fs' => Done fs'
    | Err e => Failed (Errorf (str "error creating post file %s: %w") [filepath] e)
    end.

Fixpoint createTag (tags : list bytes) (fs : os.FS) : result os.FS :=
  match tags with
  | [] => Ok fs
  | t :: rest =>
      let slug := ToLower t in
      let filename := slug ++ str ".json" in
      let filepath := filepath.Join [MARKDOWN_DIR; str "tags"; filename] in
      let raw := marshalTag (Tag.Build slug []) in
      fs' ← wrap (str "error creating tag file %s: %w") [filepath]
              (os.WriteFile fs filepath raw);
      createTag rest fs'
  end.

(** The block "Parse tags" of [generate]: the loop over the names. *)
Fixpoint parseTags (fs : os.FS) (tagsDir : bytes) (tagsFilenames : list bytes)
    (tags : list Tag.t) : result (list Tag.t) :=
  match tagsFilenames with
  | [] => Ok tags
  | name :: rest =>
      let path := filepath.Join [tagsDir; name] in
      metadata ← wrap (str "error reading tags metadata: %w") [] (read fs path);
      tag ← wrap (str "error unmarshaling tags metadata: %w") []
              (json.Unmarshal assignTag metadata);
      parseTags fs tagsDir rest (tags ++ [tag])
  end.

Definition setTags (cfg : Config.t) (tags : list Tag.t) : Config.t :=
  Config.Build (Config.Title cfg) (Config.Description cfg) (Config.URL cfg)
    (Config.SpecialLinks cfg) (Config.Paths_Blog cfg)
    (Config.Analytics_TrackingID cfg) tags (Config.Posts cfg).

Definition discoverTags (fs : os.FS) (cfg : Config.t) : result Config.t :=
  let tagsDir := filepath.Join [MARKDOWN_DIR; str "tags"] in
  let tagsFilenames := tree.Glob fs tagsDir (str ".json") in
  tags ← parseTags fs tagsDir tagsFilenames [];
  Ok (setTags cfg tags).

End Commands.

(** * The whole of [generate] and of [main]

    The walk of a directory of the tree, the blocks of [generate] that
    render the special pages and the posts, [generate] itself, and the
    dispatch of [main]. *)

Definition ASSETS_DIR : bytes := str "assets".

Module dirfs.
Import os.

(** [p] without the elements of [d] at its head, when it has them. *)
Fixpoint stripPrefix (d p : list bytes) : option (list bytes) :=
  match d, p with
  | [], _ => Some p
  | _ :: _, [] => None
  | a :: d', b :: p' => if decide (a = b) then stripPrefix d' p' else None
  end.

(** The order [fs.WalkDir] visits paths in: a directory before its
    entries, the entries of a directory by name. *)
Fixpoint pathLe (p q : list bytes) : bool :=
  match p, q with
  | [], _ => true
  | _ :: _, [] => false
  | a :: p', b :: q' => if decide (a = b) then pathLe p' q' else tree.lessEq a b
  end.

Fixpoint insertPath (e : list bytes * node) (sorted : list (list bytes * node))
    : list (list bytes * node) :=
  match sorted with
  | [] => [e]
  | e' :: sorted' =>
      if pathLe e.1 e'.1 then e :: sorted else e' :: insertPath e sorted'
  end.

(** The entries below [d], each with its path from [d]. *)
Definition below (fs : FS) (d : list bytes) : list (list bytes * node) :=
  foldr insertPath []
    (omap (λ kv : list bytes * node,
             match stripPrefix d kv.1 with
             | Some (e :: rel) => Some (e :: rel, kv.2)
             | _ => None
             end)
          (map_to_list fs)).

(** [os.DirFS(dir)] as [fs.WalkDir] visits it from its root [.], in a
    tree where every entry lies in a directory: the root, then what is
    below it. A root that does not exist is the error of [Stat]; a root
    that is a file is visited alone. *)
Definition WalkDir (fs : FS) (dir : bytes) : result tree.Walk :=
  match fs !! filepath.elements dir with
  | None => Err (PathError (str "stat") (str ".") ENOENT)
  | Some (File content) => Ok [(str ".", File content)]
  | Some Dir =>
      Ok ((str ".", Dir)
          :: map (λ e : list bytes * node, (filepath.joinAll e.1, e.2))
               (below fs (filepath.elements dir)))
  end.

End dirfs.

(** A run of a part of the program returns, with or without an error, or
    panics. *)
Inductive run (A : Type) : Type :=
| Returned (r : result A)
| Panicked.
Arguments Returned {A} r.
Arguments Panicked {A}.

Section Generate.

(** Next to the libraries of the pipeline: the assignment of a parsed JSON
    value to a [Config] and to a [Tag]; what [json.Unmarshal] leaves in a
    [Post] when a value does not fit its field; the names
    [fs.Glob(includesEFS, "includes/*.html")] finds in the embedded tree;
    and the result of [template.ParseFS] on them, the execution of the
    parsed templates, if they parse. *)
Context (assignConfig : json.value → option Config.t).
Context (assignPost : json.value → option Post.t).
Context (assignTag : json.value → option Tag.t).
Context (partialPost : json.value → Post.t).
Context (Parse : bytes → ast.Node).
Context (defaultRenderNode : ast.Node → bool → bytes).
Context (includesFilenames : list bytes).
Context (includesTemplates : option (bytes → IncludesContent → bytes)).
Context (layouts : bytes → option (LayoutContent → bytes)).
Context (assetsEFS : tree.Walk).

(** The root name of the post [parse] returns next to an error: that of
    the zero post, unless the metadata is a JSON text that does not fit
    the type. *)
Definition failedRootName (fs : os.FS) (path : bytes) : bytes :=
  match readFull fs path with
  | Ok (metadata, _) =>
      match json.parse metadata with
      | Some v =>
          match assignPost v with
          | None => Post.RootName (partialPost v)
          | Some _ => []
          end
      | None => []
      end
  | Err _ => []
  end.

Definition withLayout (post : Post.t) (layout : bytes) : Post.t :=
  Post.Build (Post.Markdown post) (Post.HTML post) layout (Post.Title post)
    (Post.Date post) (Post.Description post) (Post.Tags post) (Post.RootName post).

(** The loop that sets [includesRender[root] = ""] for the name of each
    include file; a name without a separator is an index out of range. *)
Fixpoint registerIncludes (names : list bytes) (m : gmap bytes bytes)
    : option (gmap bytes bytes) :=
  match names with
  | [] => Some m
  | name :: rest =>
      match filepath.splitOn "/"%char name with
      | _ :: root :: _ => registerIncludes rest (<[root := []]> m)
      | _ => None
      end
  end.

(** The block "First render special pages" of [generate]. *)
Fixpoint renderSpecial (ExecuteTemplate : bytes → IncludesContent → bytes)
    (cfg : Config.t) (specialFiles : list bytes) (w : World) : result World :=
  match specialFiles with
  | [] => Ok w
  | name :: rest =>
      let path := filepath.Join [MARKDOWN_DIR; name] in
      match parse assignPost Parse defaultRenderNode (files w) path with
      | Err e =>
          Err (Errorf (str "error parsing special file %s: %w")
                 [failedRootName (files w) path] e)
      | Ok post =>
          let post :=
            if decide (name = INDEX_FILE) then withLayout post (str "default")
            else if decide (name = BLOG_FILE) then withLayout post (str "blog")
            else post in
          let destDir := SITE_DIR in
          w' ← wrap (str "error rendering special pages: %w") []
                 (render ExecuteTemplate layouts post destDir cfg (Tag.Build [] []) w);
          renderSpecial ExecuteTemplate cfg rest w'
      end
  end.

(** The block "Render blog posts" of [generate]: the loop over the
    names. *)
Fixpoint renderPosts (ExecuteTemplate : bytes → IncludesContent → bytes)
    (cfg : Config.t) (postsDir : bytes) (postsFilenames : list bytes) (w : World)
    : result World :=
  match postsFilenames with
  | [] => Ok w
  | name :: rest =>
      let path := filepath.Join [postsDir; name] in
      match parse assignPost Parse defaultRenderNode (files w) path with
      | Err e =>
          Err (Errorf (str "error parsing blog post %s: %w")
                 [failedRootName (files w) path] e)
      | Ok post =>
          let post := withLayout post (str "post") in
          let destDir := filepath.Join [SITE_DIR; str "blog"] in
          w' ← wrap (str "error rendering posts: %w") []
                 (render ExecuteTemplate layouts post destDir cfg (Tag.Build [] []) w);
          renderPosts ExecuteTemplate cfg postsDir rest w'
      end
  end.

(** What [generate] does once the site directory is reset, the assets are
    copied and the configuration, the posts and the tags are read. *)
Definition renderSite (cfg : Config.t) (w : World) : run World :=
  match includesTemplates with
  | None => Panicked
  | Some ExecuteTemplate =>
      match registerIncludes includesFilenames (includesRender w) with
      | None => Panicked
      | Some registered =>
          let w := {| files := files w; includesRender := registered |} in
          Returned
            (w ← renderSpecial ExecuteTemplate cfg [INDEX_FILE; BLOG_FILE] w;
             let postsDir := filepath.Join [MARKDOWN_DIR; str "posts"] in
             let postsFilenames := tree.Glob (files w) postsDir (str ".md") in
             w ← renderPosts ExecuteTemplate cfg postsDir postsFilenames w;
             renderTags ExecuteTemplate layouts cfg (Config.Tags cfg) w)
      end
  end.

(** The configuration [generate] renders the site from. *)
Definition readSite (fs : os.FS) : result (os.FS * Config.t) :=
  fs ← wrap (str "error resetting site directory: %w") [] (reset assetsEFS fs);
  let assetsFS := dirfs.WalkDir fs (filepath.Join [MARKDOWN_DIR; ASSETS_DIR]) in
  fs ← wrap (str "error copying markdown/assets folder: %w") []
         (fsys ← assetsFS; tree.CopyFS fs SITE_DIR fsys);
  f ← wrap (str "error opening config file: %w") [] (os.Open fs CONFIG_FILE);
  cfgRaw ← wrap (str "error reading config file: %w") [] (os.Read CONFIG_FILE f);
  cfg ← wrap (str "error unmarshaling config file: %w") []
          (json.Unmarshal assignConfig cfgRaw);
  cfg ← discoverPosts assignPost Parse defaultRenderNode fs cfg;
  cfg ← discoverTags assignTag fs cfg;
  Ok (fs, cfg).

Definition generate (w : World) : run World :=
  match readSite (files w) with
  | Err e => Returned (Err e)
  | Ok (fs, cfg) =>
      renderSite cfg {| files := fs; includesRender := includesRender w |}
  end.

End Generate.

(** How the process ends: [main] returns; [logger.Fatalf] or [log.Fatal]
    prints the help or an error and exits with status 1; a panic. *)
Inductive fatal : Type :=
| FatalHelp
| FatalError (e : error)
| FatalText (text : bytes).

Inductive exit : Type :=
| Exit0 (fs : os.FS)
| ExitFatal (msg : fatal)
| ExitPanic.

(** The keys of the map [commands]. *)
Definition commands : list bytes :=
  [str "init"; str "generate"; str "post"; str "tag"].

Section Main.

(** The interactive interface, which returns the tree it leaves or panics;
    the clock; the libraries of the commands and of [generate]. *)
Context (interactive : os.FS → option os.FS).
Context (now : time.Time).
Context (marshalConfig : Config.t → bytes).
Context (marshalPost : Post.t → bytes).
Context (marshalTag : Tag.t → bytes).
Context (ToLower : bytes → bytes).
Context (assignConfig : json.value → option Config.t).
Context (assignPost : json.value → option Post.t).
Context (assignTag : json.value → option Tag.t).
Context (partialPost : json.value → Post.t).
Context (Parse : bytes → ast.Node).
Context (defaultRenderNode : ast.Node → bool → bytes).
Context (includesFilenames : list bytes).
Context (includesTemplates : option (bytes → IncludesContent → bytes)).
Context (layouts : bytes → option (LayoutContent → bytes)).
Context (assetsEFS : tree.Walk).

(** [if err != nil { log.Fatal(err) }] at the end of [main]. *)
Definition finish (r : result os.FS) : exit :=
  match r with
  | Ok fs => Exit0 fs
  | Err e => ExitFatal (FatalError e)
  end.

(** [main]; [Args] is [os.Args], the name of the program first, and
    [includesRender] is empty when the program starts. *)
Definition main (Args : list bytes) (fs : os.FS) : exit :=
  match Args with
  | [] => ExitPanic
  | [_] =>
      match interactive fs with
      | None => ExitPanic
      | Some _ => ExitPanic
      end
  | _ :: cmd :: rest =>
      if decide (cmd ∈ commands) then
        if decide (cmd = str "init") then
          finish (initDirs marshalConfig marshalPost fs)
        else if decide (cmd = str "generate") then
          match generate assignConfig assignPost assignTag partialPost Parse
                  defaultRenderNode includesFilenames includesTemplates layouts
                  assetsEFS {| files := fs; includesRender := ∅ |} with
          | Returned r => finish (w ← r; Ok (files w))
          | Panicked => ExitPanic
          end
        else if decide (cmd = str "post") then
          match rest with
          | [] => ExitFatal FatalHelp
          | title :: _ =>
              if (length Args <? 5) || negb (bool_decide (Args !! 3 = Some (str "-t")))
              then
                match initPost marshalPost now title [] fs with
                | Done fs' => Exit0 fs'
                | _ => Exit0 fs
                end
              else
                match initPost marshalPost now title (drop 4 Args) fs with
                | Done fs' => Exit0 fs'
                | Failed e => ExitFatal (FatalError e)
                | FailedNew text => ExitFatal (FatalText text)
                end
          end
        else if decide (cmd = str "tag") then
          match rest with
          | [] => ExitFatal FatalHelp
          | _ => finish (createTag marshalTag ToLower rest fs)
          end
        else Exit0 fs
      else ExitFatal FatalHelp
  end.

End Main.

(** * The vocabulary of the claims

    The lines of a document, documents built from their parts, what it
    means for a text to be another without its line ends, and the trees,
    texts and libraries the claims are tried on. *)

(** The lines of a document are the pieces between its line feeds, without
    the empty piece after a final line feed. *)
Definition trim (pieces : list bytes) : list bytes :=
  match List.last pieces [ LF ] with
  | [] => removelast pieces
  | _ => pieces
  end.

Definition lines (data : bytes) : list bytes :=
  trim (filepath.splitOn LF data).

(** A line that fits the buffer of the scanner. *)
Definition short (line : bytes) : Prop :=
  (N.of_nat (length line) < bufio.MaxScanTokenSize)%N.

(** No two numbers or literals stand next to each other. *)
Fixpoint separated (tokens : list json.token) : Prop :=
  match tokens with
  | [] => True
  | t :: rest =>
      match t, rest with
      | json.TWord _, json.TWord _ :: _ => False
      | _, _ => True
      end ∧ separated rest
  end.

(** [s'] is [s] without some of its line feeds and carriage returns. *)
Inductive stripped : bytes → bytes → Prop :=
| stripped_nil : stripped [] []
| stripped_keep c s s' : stripped s s' → stripped (c :: s) (c :: s')
| stripped_drop c s s' : c = LF ∨ c = CR → stripped s s' → stripped (c :: s) s'.

(** The document made of a boundary line, a block, a boundary line and a
    body: what [addFrontmatter] writes, followed by the body. *)
Definition document (block body : bytes) : bytes :=
  FRONTMATTER_BOUNDARY ++ [LF] ++ block ++ [LF] ++ FRONTMATTER_BOUNDARY ++ [LF] ++ body.

(** The metadata of the example document. *)
Definition titleA : bytes :=
  str "{" ++ [DQ] ++ str "title" ++ [DQ] ++ str ":" ++ [DQ] ++ str "A" ++ [DQ] ++ str "}".

Definition exampleTree : os.FS :=
  {[ [str "post.md"] :=
       os.File (FRONTMATTER_BOUNDARY ++ [LF] ++ titleA ++ [LF]
                ++ FRONTMATTER_BOUNDARY ++ [LF] ++ str "Body text" ++ [LF]) ]}.

(** A document of one line of 65536 bytes, and a JSON object whose one
    line is longer still. *)
Definition longLine : bytes := replicate (N.to_nat 65536) "a"%char.

Definition longObject : bytes :=
  str "{" ++ [DQ] ++ str "title" ++ [DQ] ++ str ":" ++ [DQ] ++ longLine ++ [DQ] ++ str "}".

Definition oneBoundary : bytes :=
  FRONTMATTER_BOUNDARY ++ [LF] ++ str "title: A" ++ [CR; LF] ++ str "Body text".

(** A frontmatter block of three lines and a body of two. *)
Definition threeLines : bytes :=
  str "{" ++ [LF] ++ str "  x: 1," ++ [LF] ++ str "}".

Definition twoLines : bytes :=
  str "Body" ++ [CR; LF] ++ [LF] ++ str "text".

(** What stands before the first dot of a file name. *)
Fixpoint beforeFirstDot (filename : bytes) : bytes :=
  match filename with
  | [] => []
  | c :: rest => if decide (c = "."%char) then [] else c :: beforeFirstDot rest
  end.

(** A tree after a build, and the assets compiled into the program. *)
Definition builtTree : os.FS :=
  {[ [str "docs"] := os.Dir;
     [str "docs"; str "blog"] := os.Dir;
     [str "docs"; str "blog"; str "old.html"] := os.File (str "stale");
     [str "config.json"] := os.File (str "{}") ]}.

Definition someAssets : tree.Walk :=
  [ (str ".", os.Dir);
    (str "assets", os.Dir);
    (str "assets/styles.css", os.File (str "body {}")) ].

(** The directory of the posts. *)
Definition postsDir : bytes := filepath.Join [MARKDOWN_DIR; str "posts"].

(** The error of a post whose metadata is no JSON text, as [generate]
    returns it. *)
Definition badMetadata : error :=
  Errorf (str "error rendering posts: %w") []
    (Errorf (str "error unmarshaling metadata: %w") [] SyntaxError).

(** Two posts: the first is well formed, the metadata of the second is an
    open brace. *)
Definition twoPosts : os.FS :=
  {[ [str "markdown"; str "posts"; str "a.md"] :=
       os.File (document titleA (str "Body text" ++ [LF]));
     [str "markdown"; str "posts"; str "b.md"] :=
       os.File (document (str "{") (str "Body text" ++ [LF])) ]}.

Definition emptyConfig : Config.t := Config.Build [] [] [] [] [] [] [] [].

(** The simplest libraries: every object is a post, every text an empty
    document. *)
Definition anyObject (v : json.value) : option Post.t :=
  match v with json.Object _ => Some Post.zero | _ => None end.

Definition noMarkdown (md : bytes) : ast.Node := ast.Document [].

Definition noOutput (node : ast.Node) (entering : bool) : bytes := [].

(** One tag with a layout of its own, one layout template, an empty
    tree. *)
Definition goTag : Tag.t := Tag.Build (str "go") (str "custom").

Definition noIncludes (name : bytes) (content : IncludesContent) : bytes := [].

Definition taggedOnly (name : bytes) : option (LayoutContent → bytes) :=
  if decide (name = str "tagged")
  then Some (λ content, str "<h1>" ++ Tag.Slug (lc_Tag content) ++ str "</h1>")
  else None.

Definition emptyWorld : World := {| files := ∅; includesRender := ∅ |}.

(** [s] holds [sub] somewhere. *)
Definition contains (s sub : bytes) : Prop :=
  ∃ before after, s = before ++ sub ++ after.

(** A parser that knows one document, and a renderer that writes the kind
    of every node. *)
Definition fence : bytes := str "```".

Definition helloBlock : bytes := fence ++ [LF] ++ str "hello" ++ [LF] ++ fence.

Definition fencedOnly (md : bytes) : ast.Node :=
  if decide (md = helloBlock)
  then ast.Document [ast.CodeBlock (str "hello" ++ [LF])]
  else ast.Document [ast.Container (str "Paragraph") [ast.Leaf (str "Text") md]].

Definition tagNames (node : ast.Node) (entering : bool) : bytes :=
  match node with
  | ast.Document _ => []
  | ast.Container kind _ => if entering then str "<p>" else str "</p>"
  | ast.CodeBlock Literal => str "<pre><code>" ++ Literal ++ str "</code></pre>"
  | ast.Leaf _ Literal => Literal
  end.

(** ** The vocabulary of the further properties

    What the properties of the commands, of [render] and of [generate]
    are stated with, and the data they are tried on. *)

(** The English ending of the ordinal of a day: [th] for 11, 12 and 13,
    else by the last digit. *)
Definition ordinalSuffix (day : Z) : bytes :=
  if decide (day mod 100 = 11 ∨ day mod 100 = 12 ∨ day mod 100 = 13)%Z then str "th"
  else if decide (day mod 10 = 1)%Z then str "st"
  else if decide (day mod 10 = 2)%Z then str "nd"
  else if decide (day mod 10 = 3)%Z then str "rd"
  else str "th".

(** A body as [readFull] returns it: every line ended by a line feed. *)
Definition endedByLF (body : bytes) : bytes :=
  if decide (body = [] ∨ last body = Some LF) then body else body ++ [LF].

(** A body that holds a boundary line. *)
Definition bodyWithBoundary : bytes :=
  str "a" ++ [LF] ++ FRONTMATTER_BOUNDARY ++ [LF] ++ str "b".

(** The include files [render] knows, each with the keyword its output is
    stored under. *)
Definition includeFiles : list (bytes * bytes) :=
  [ (str "header.html", INCLUDES_HEADER);
    (str "footer.html", INCLUDES_FOOTER);
    (str "head.html", INCLUDES_HEAD);
    (str "footer-post.html", INCLUDES_FOOTERPOST) ].

(** An include template that writes its own name and the root name of the
    page, and a world where the four include files are registered. *)
Definition echoIncludes (name : bytes) (content : IncludesContent) : bytes :=
  name ++ Post.RootName (ic_Post content).

Definition siteWorld : World :=
  {| files := ∅;
     includesRender :=
       {[ str "header.html" := []; str "footer.html" := [];
          str "head.html" := []; str "footer-post.html" := [] ]} |}.

(** A path the tree follows as the kernel does: none of its elements is
    [..]. *)
Definition clean (path : bytes) : Prop :=
  str ".." ∉ filepath.elements path.

(** An assignment that reads the title of an object and leaves stale
    values in the fields [parse] sets itself. *)
Definition titled (v : json.value) : option Post.t :=
  match v with
  | json.Object [(_, json.String title)] =>
      Some (Post.Build (str "stale") [] [] title [] [] [] (str "other"))
  | _ => None
  end.

(** A day, and a tree where the directories of the posts and of the tags
    exist. *)
Definition feb21 : time.Time :=
  {| time.Year := 2024; time.Month_of := time.February; time.Day := 21 |}.

Definition postsTree : os.FS :=
  {[ [str "markdown"] := os.Dir;
     [str "markdown"; str "posts"] := os.Dir;
     [str "markdown"; str "tags"] := os.Dir ]}.

(** The directories and the files [initDirs] makes. *)
Definition initDirectories : list (list bytes) :=
  [ [MARKDOWN_DIR]; [MARKDOWN_DIR; str "posts"]; [MARKDOWN_DIR; str "tags"];
    [MARKDOWN_DIR; str "assets"]; [MARKDOWN_DIR; str "assets"; str "images"] ].

Definition initFiles : list (list bytes) :=
  [ [MARKDOWN_DIR; INDEX_FILE]; [MARKDOWN_DIR; BLOG_FILE]; [CONFIG_FILE] ].

(** A tree where a user has edited the home page and written a post. *)
Definition userTree : os.FS :=
  {[ [str "markdown"] := os.Dir;
     [str "markdown"; str "posts"] := os.Dir;
     [str "markdown"; str "index.md"] := os.File (str "edited");
     [str "markdown"; str "posts"; str "a.md"] := os.File (str "kept") ]}.

(** The directory of the tags. *)
Definition tagsDir : bytes := filepath.Join [MARKDOWN_DIR; str "tags"].

(** A marshaller that writes a tag as the JSON string of its slug, and the
    assignment that reads it back. *)
Definition slugOnly (t : Tag.t) : bytes := [DQ] ++ Tag.Slug t ++ [DQ].

Definition slugTag (v : json.value) : option Tag.t :=
  match v with
  | json.String slug => Some (Tag.Build slug [])
  | _ => None
  end.

(** The rendering of a markdown tree read off its shape: every node is
    entered and left in document order, a code block is written by the
    hook. *)
Fixpoint inOrder (defaultRenderNode : ast.Node → bool → bytes) (n : ast.Node)
    : bytes :=
  match n with
  | ast.Document children | ast.Container _ children =>
      defaultRenderNode n true
      ++ concat (map (inOrder defaultRenderNode) children)
      ++ defaultRenderNode n false
  | ast.CodeBlock Literal => renderCodeBlock Literal true
  | ast.Leaf _ _ => defaultRenderNode n true
  end.

(** A site ready to be generated: the tree [init] makes, with an asset, a
    post and a tag; a decoder of configurations; the names of the include
    files; layouts that write their name, the root name of the page and
    its content. *)
Definition siteTree : os.FS :=
  {[ [str "markdown"] := os.Dir;
     [str "markdown"; str "assets"] := os.Dir;
     [str "markdown"; str "assets"; str "logo.png"] := os.File (str "png");
     [str "markdown"; str "posts"] := os.Dir;
     [str "markdown"; str "posts"; str "a.md"] :=
       os.File (document titleA (str "Body text" ++ [LF]));
     [str "markdown"; str "tags"] := os.Dir;
     [str "markdown"; str "tags"; str "go.json"] := os.File ([DQ] ++ str "go" ++ [DQ]);
     [str "markdown"; str "index.md"] := os.File (document titleA []);
     [str "markdown"; str "blog.md"] := os.File (document titleA []);
     [str "config.json"] := os.File (str "{}") ]}.

Definition anyConfig (v : json.value) : option Config.t := Some emptyConfig.

Definition noPartial (v : json.value) : Post.t := Post.zero.

Definition includeNames : list bytes :=
  [ str "includes/footer-post.html"; str "includes/footer.html";
    str "includes/head.html"; str "includes/header.html" ].

Definition namedLayouts (name : bytes) : option (LayoutContent → bytes) :=
  Some (λ content,
          name ++ str ":" ++ Post.RootName (lc_Post content) ++ str ":"
          ++ lc_Content content).

Definition siteWorld0 : World := {| files := siteTree; includesRender := ∅ |}.

(** A name an entry of a directory can have. *)
Definition isName (e : bytes) : Prop :=
  (filepath.Separator ∉ e) ∧ e ≠ [] ∧ e ≠ str "." ∧ e ≠ str "..".

(** A name [fs.Glob(includesEFS, "includes/*.html")] can find. *)
Definition includeName (name : bytes) : Prop :=
  ∃ root, name = str "includes/" ++ root
          ∧ (filepath.Separator ∉ root) ∧ str ".html" `suffix_of` root.

(** Two maps of includes are as good as each other when every page gets
    the same includes from them. *)
Definition sameIncludes (ExecuteTemplate : bytes → IncludesContent → bytes)
    (m m' : gmap bytes bytes) : Prop :=
  ∀ content,
    renderIncludes ExecuteTemplate content m = renderIncludes ExecuteTemplate content m'.

(** The page of a tag: [docs/tagged/<slug>/<slug>.html], the path [render]
    makes of the directory and the root name of the record. *)
Definition tagPage (t : Tag.t) : list bytes :=
  filepath.elements
    (filepath.Join [filepath.Join [SITE_DIR; str "tagged"; Tag.Slug t];
                    Tag.Slug t ++ str ".html"]).

(** * Properties *)

Example scan_demo :
  bufio.scan (str "a" ++ [LF] ++ str "b" ++ [CR; LF] ++ [LF] ++ str "c")
  = ([str "a"; str "b"; []; str "c"], None).
Proof. vm_compute. reflexivity. Qed.

Example rootName_demo : rootName (str "bbc/cbc/abc.md") = str "abc".
Proof. vm_compute. reflexivity. Qed.

(** ** Splitting and scanning *)

Section splitOn_facts.
Import filepath.
Context (sep : ascii).

Lemma splitOn_cons_inv s : ∃ p ps, splitOn sep s = p :: ps.
Proof.
  destruct s as [|c s]; simpl; [by eauto|].
  case_decide; [by eauto|]. destruct (splitOn sep s); eauto.
Qed.

Lemma splitOn_no_sep s : sep ∉ s → splitOn sep s = [s].
Proof.
  induction s as [|c s IH]; [done|]. intros Hs.
  apply not_elem_of_cons in Hs as [Hc Hs]. simpl.
  rewrite decide_False by done. by rewrite IH.
Qed.

Lemma splitOn_app s t : splitOn sep (s ++ sep :: t) = splitOn sep s ++ splitOn sep t.
Proof.
  induction s as [|c s IH]; simpl.
  - by rewrite decide_True.
  - case_decide; [by rewrite IH|]. rewrite IH.
    destruct (splitOn_cons_inv s) as (p & ps & ->). done.
Qed.

Lemma splitOn_pieces s : Forall (λ p, sep ∉ p) (splitOn sep s).
Proof.
  induction s as [|c s IH]; simpl.
  - repeat constructor. by intros ?%elem_of_nil.
  - case_decide.
    + constructor; [by intros ?%elem_of_nil|done].
    + destruct (splitOn_cons_inv s) as (p & ps & E). rewrite E in *.
      apply Forall_cons in IH as [Hp Hps]. constructor; [|done].
      by intros [?|?]%elem_of_cons.
Qed.

Lemma splitOn_concat s :
  concat (map (λ p, p ++ [sep]) (splitOn sep s)) = s ++ [sep].
Proof.
  induction s as [|c s IH]; simpl; [done|].
  case_decide as Hc.
  - simpl. by rewrite IH, Hc.
  - destruct (splitOn sep s) as [|p ps]; simpl in *.
    + by destruct s.
    + by rewrite <- IH.
Qed.
End splitOn_facts.

Lemma trim_cons p q ps : trim (p :: q :: ps) = p :: trim (q :: ps).
Proof.
  unfold trim. change (List.last (p :: q :: ps) [LF]) with (List.last (q :: ps) [LF]).
  destruct (List.last (q :: ps) [LF]); done.
Qed.

Lemma trim_app ps qs : qs ≠ [] → trim (ps ++ qs) = ps ++ trim qs.
Proof.
  intros Hqs. induction ps as [|p ps IH]; [done|].
  simpl. destruct (ps ++ qs) as [|r rs] eqn:E.
  - by apply app_eq_nil in E as [_ ?].
  - rewrite trim_cons. by rewrite IH.
Qed.

Lemma short_not_full acc p :
  short (reverse acc ++ p) → bufio.bufferFull acc = false.
Proof.
  unfold short, bufio.bufferFull. rewrite length_app, length_reverse.
  intros H. apply N.leb_gt. lia.
Qed.

Lemma scanFrom_spec data acc :
  Forall short
    (match filepath.splitOn LF data with
     | p :: ps => (reverse acc ++ p) :: ps
     | [] => []
     end) →
  bufio.scanFrom acc data
  = (map bufio.dropCR
       (trim (match filepath.splitOn LF data with
              | p :: ps => (reverse acc ++ p) :: ps
              | [] => []
              end)), None).
Proof.
  revert acc. induction data as [|c data IH]; intros acc Hs; simpl in *.
  - inversion_clear Hs as [|?? Hacc _].
    destruct acc as [|a acc]; [done|].
    rewrite (short_not_full _ _ Hacc). rewrite app_nil_r.
    unfold trim. simpl. rewrite reverse_cons. destruct (reverse acc ++ [a]) eqn:E; [|done].
    by destruct (reverse acc).
  - case_decide as Hc.
    + inversion_clear Hs as [|?? Hacc Hrest].
      rewrite (short_not_full _ _ Hacc). rewrite app_nil_r.
      destruct (splitOn_cons_inv LF data) as (p & ps & E).
      specialize (IH []). rewrite E in *. simpl in IH.
      rewrite IH by done. by rewrite trim_cons.
    + destruct (splitOn_cons_inv LF data) as (p & ps & E).
      specialize (IH (c :: acc)). rewrite E in *. simpl in IH.
      rewrite reverse_cons, <- app_assoc in IH. by apply IH.
Qed.

(** On a document whose lines all fit the scanner's buffer, the scanner
    yields every line, carriage return dropped, and reports no error. *)
Lemma scan_spec data :
  Forall short (filepath.splitOn LF data) →
  bufio.scan data = (map bufio.dropCR (lines data), None).
Proof.
  intros Hs. unfold bufio.scan, lines.
  pose proof (scanFrom_spec data []) as H.
  destruct (splitOn_cons_inv LF data) as (p & ps & E).
  rewrite E in *. by apply H.
Qed.

(** A line that does not fit the buffer stops the scanner. *)
Lemma scanFrom_long data acc :
  Exists (λ l, ¬ short l)
    (match filepath.splitOn LF data with
     | p :: ps => (reverse acc ++ p) :: ps
     | [] => []
     end) →
  (bufio.scanFrom acc data).2 = Some ErrTooLong.
Proof.
  assert (∀ acc, ¬ short (reverse acc ++ []) → bufio.bufferFull acc = true) as Hfull.
  { intros a. unfold short, bufio.bufferFull.
    rewrite app_nil_r, length_reverse. intros H. apply N.leb_le. lia. }
  revert acc. induction data as [|c data IH]; intros acc Hlong; simpl in *.
  - apply Exists_cons in Hlong as [Hlong|Hlong]; [|by apply Exists_nil in Hlong].
    rewrite (Hfull _ Hlong). destruct acc; [|done].
    exfalso. apply Hlong. by vm_compute.
  - case_decide as Hc.
    + apply Exists_cons in Hlong as [Hlong|Hlong]; [by rewrite (Hfull _ Hlong)|].
      destruct (bufio.bufferFull acc); [done|].
      destruct (splitOn_cons_inv LF data) as (p & ps & E).
      specialize (IH []). rewrite E in *. simpl in IH. specialize (IH Hlong).
      by destruct (bufio.scanFrom [] data).
    + destruct (splitOn_cons_inv LF data) as (p & ps & E).
      specialize (IH (c :: acc)). rewrite E in *. simpl in IH.
      rewrite reverse_cons, <- app_assoc in IH. by apply IH.
Qed.

Lemma scan_long data :
  Exists (λ l, ¬ short l) (filepath.splitOn LF data) →
  (bufio.scan data).2 = Some ErrTooLong.
Proof.
  intros Hlong. apply scanFrom_long.
  destruct (splitOn_cons_inv LF data) as (p & ps & E). by rewrite E in *.
Qed.

(** The scanner reports nothing but a line that is too long. *)
Lemma scanFrom_err data acc e :
  (bufio.scanFrom acc data).2 = Some e → e = ErrTooLong.
Proof.
  revert acc. induction data as [|c data IH]; intros acc; simpl.
  - destruct acc; [done|]. case_match; simpl; congruence.
  - case_decide; [|by apply IH].
    case_match; simpl; [congruence|].
    specialize (IH []). destruct (bufio.scanFrom [] data). simpl in *. done.
Qed.

(** ** The scan loop of [readFull] *)

Lemma readFullLoop_body tokens n fm c :
  2 ≤ n →
  readFullLoop tokens n fm c
  = (n, fm, c ++ concat (map (λ b, b ++ [LF]) tokens)).
Proof.
  intros Hn. revert c.
  induction tokens as [|b tokens IH]; intros c; cbn [readFullLoop map concat].
  - by rewrite app_nil_r.
  - destruct (Nat.ltb_spec n 2); [lia|]. rewrite andb_false_r.
    rewrite IH. by rewrite <- !app_assoc.
Qed.

Lemma readFullLoop_meta tokens rest n fm c :
  n < 2 → Forall (λ b, b ≠ FRONTMATTER_BOUNDARY) tokens →
  readFullLoop (tokens ++ rest) n fm c
  = readFullLoop rest n (fm ++ concat tokens) c.
Proof.
  intros Hn Hb. revert fm.
  induction Hb as [|b tokens Hne _ IH]; intros fm; cbn [readFullLoop app concat].
  - by rewrite app_nil_r.
  - rewrite bool_decide_eq_false_2 by done. cbn [andb].
    destruct (Nat.ltb_spec n 2); [|lia]. rewrite IH. by rewrite <- app_assoc.
Qed.

Lemma readFullLoop_boundary tokens n fm c :
  n < 2 →
  readFullLoop (FRONTMATTER_BOUNDARY :: tokens) n fm c
  = readFullLoop tokens (n + 1) fm c.
Proof.
  intros Hn. cbn [readFullLoop]. rewrite bool_decide_eq_true_2 by done.
  by destruct (Nat.ltb_spec n 2); [|lia].
Qed.

Lemma readFullLoop_few tokens n fm c :
  n + length (filter (λ b, b = FRONTMATTER_BOUNDARY) tokens) < 2 →
  readFullLoop tokens n fm c
  = (n + length (filter (λ b, b = FRONTMATTER_BOUNDARY) tokens),
     fm ++ concat (filter (λ b, b ≠ FRONTMATTER_BOUNDARY) tokens), c).
Proof.
  revert n fm.
  induction tokens as [|b tokens IH]; intros n fm Hn; cbn [readFullLoop].
  - rewrite !filter_nil. cbn [length concat]. by rewrite Nat.add_0_r, app_nil_r.
  - rewrite filter_cons in Hn |- *. rewrite (filter_cons (λ b, b ≠ _)).
    destruct (decide (b = FRONTMATTER_BOUNDARY)) as [->|Hb].
    + cbn [length] in Hn |- *. rewrite bool_decide_eq_true_2 by done.
      destruct (Nat.ltb_spec n 2); [|lia]. cbn [andb].
      rewrite decide_False by (by intros []).
      rewrite IH by lia. f_equal. f_equal. lia.
    + rewrite bool_decide_eq_false_2 by done. cbn [andb].
      destruct (Nat.ltb_spec n 2); [|lia].
      rewrite decide_True by done.
      rewrite IH by lia. cbn [concat]. by rewrite <- app_assoc.
Qed.

(** ** JSON texts and the removal of line ends *)

Section json_facts.
Import json.

Lemma separated_app_r out tokens : separated (out ++ tokens) → separated tokens.
Proof. induction out as [|t out IH]; [done|]. intros [_ H]. by apply IH. Qed.

Lemma feed_word_twice st st' w w' :
  feed st (TWord w) = Some st' → feed st' (TWord w') = None.
Proof.
  assert (∀ v stack, feed (endValue v stack) (TWord w') = None) as Hend.
  { intros v [|[]]; done. }
  destruct st; simpl; try done;
    (destruct (wordValue w); [|done]); intros [= <-]; first [done | apply Hend].
Qed.

Lemma feedAll_separated tokens st st' :
  feedAll st tokens = Some st' → separated tokens.
Proof.
  revert st. induction tokens as [|t tokens IH]; intros st; simpl; [done|].
  destruct (feed st t) as [st1|] eqn:E1; [|done]. intros Hall. split; [|by eauto].
  destruct t; try done. destruct tokens as [|[] tokens]; try done.
  simpl in Hall. by rewrite (feed_word_twice _ _ _ _ E1) in Hall.
Qed.

(** Every number or literal that is accepted has a value. *)
Lemma feedAll_words tokens st st' w :
  feedAll st tokens = Some st' → TWord w ∈ tokens → is_Some (wordValue w).
Proof.
  revert st. induction tokens as [|t tokens IH]; intros st; simpl.
  - by intros _ ?%elem_of_nil.
  - destruct (feed st t) as [st1|] eqn:E1; [|done].
    intros Hall [<-|Hin]%elem_of_cons; [|by eauto].
    destruct st; simpl in E1; try done; by destruct (wordValue w).
Qed.

Lemma lexFrom_word acc s tokens :
  lexFrom (InWord acc) s = Some tokens → ∃ w rest, tokens = TWord w :: rest.
Proof.
  revert acc tokens. induction s as [|c s IH]; intros acc tokens; simpl.
  - intros [= <-]. eauto.
  - destruct (endsWord c).
    + destruct (stepBetween c) as [out m']. destruct (lexFrom m' s); [|done].
      intros [= <-]. eauto.
    + destruct (lexFrom (InWord (c :: acc)) s) eqn:E; [|done].
      intros [= <-]. by eapply IH.
Qed.

Lemma stepBetween_word c :
  endsWord c = false → stepBetween c = ([], InWord [c]).
Proof.
  unfold endsWord, stepBetween. intros H.
  apply orb_false_iff in H as [H Hq]. apply orb_false_iff in H as [-> Hp].
  destruct (punct c); [by rewrite bool_decide_eq_true_2 in Hp|].
  apply bool_decide_eq_false in Hq. by rewrite decide_False.
Qed.

(** A number or literal read so far can be put in front of what follows,
    unless that begins with a number or literal itself. *)
Lemma lexFrom_resume acc s tokens :
  lexFrom Between s = Some tokens →
  match tokens with TWord _ :: _ => False | _ => True end →
  lexFrom (InWord acc) s = Some (TWord (reverse acc) :: tokens).
Proof.
  destruct s as [|c s]; simpl.
  - by intros [= <-].
  - destruct (endsWord c) eqn:Ec.
    + destruct (stepBetween c) as [out m']. destruct (lexFrom m' s); [|done].
      by intros [= <-].
    + rewrite stepBetween_word by done.
      destruct (lexFrom (InWord [c]) s) as [rest|] eqn:E; [|done].
      intros [= <-]. simpl. by destruct (lexFrom_word _ _ _ E) as (w & r & ->).
Qed.

Lemma lineEnd_space c : c = LF ∨ c = CR → isSpace c = true.
Proof. by intros [-> | ->]. Qed.

Lemma lexFrom_stripped s s' :
  stripped s s' →
  ∀ m tokens, lexFrom m s = Some tokens → separated tokens →
              lexFrom m s' = Some tokens.
Proof.
  induction 1 as [|c s s' _ IH|c s s' Hc _ IH]; intros m tokens; [done| |].
  - simpl. destruct (step m c) as [[out m']|]; [|done].
    destruct (lexFrom m' s) as [rest|] eqn:E; [|done].
    intros [= <-] Hsep. by rewrite (IH _ _ E (separated_app_r _ _ Hsep)).
  - destruct m as [|acc|acc|n acc|acc]; simpl.
    + unfold stepBetween. rewrite (lineEnd_space _ Hc).
      destruct (lexFrom Between s) eqn:E; [|done]. intros [= <-] Hsep. by eapply IH.
    + by destruct Hc as [-> | ->].
    + by destruct Hc as [-> | ->].
    + by destruct Hc as [-> | ->].
    + unfold endsWord, stepBetween. rewrite (lineEnd_space _ Hc). simpl.
      destruct (lexFrom Between s) as [rest|] eqn:E; [|done].
      intros [= <-] [Hhd Hsep]. apply lexFrom_resume; [by eapply IH|].
      by destruct rest as [|[]].
Qed.

(** A JSON text keeps its value when line ends are taken out of it. *)
Lemma parse_stripped s s' v :
  stripped s s' → parse s = Some v → parse s' = Some v.
Proof.
  unfold parse, lex. intros Hs.
  destruct (lexFrom Between s) as [tokens|] eqn:E; [|done].
  destruct (feedAll (BeginValue []) tokens) as [st|] eqn:Ef; [|done].
  intros Hv. by rewrite (lexFrom_stripped _ _ Hs _ _ E (feedAll_separated _ _ _ Ef)), Ef.
Qed.

(** After a line feed the reader is between tokens. *)
Lemma lexFrom_line m p rest tokens :
  lexFrom m (p ++ LF :: rest) = Some tokens →
  ∃ before after, tokens = before ++ after ∧ lexFrom Between rest = Some after.
Proof.
  revert m tokens. induction p as [|c p IH]; intros m tokens.
  - cbn [app lexFrom].
    destruct (step m LF) as [[out m']|] eqn:Es; [|done].
    assert (m' = Between) as ->.
    { destruct m; simpl in Es; try done; by injection Es as <- <-. }
    destruct (lexFrom Between rest) as [after|]; [|done].
    intros [= <-]. eauto.
  - cbn [app lexFrom].
    destruct (step m c) as [[out m']|]; [|done].
    destruct (lexFrom m' (p ++ LF :: rest)) as [ts|] eqn:E; [|done].
    intros [= <-]. destruct (IH _ _ E) as (before & after & -> & ?).
    exists (out ++ before), after. by rewrite app_assoc.
Qed.

Lemma lexFrom_silent m m' c s :
  step m c = Some ([], m') → lexFrom m (c :: s) = lexFrom m' s.
Proof. simpl. intros ->. by destruct (lexFrom m' s). Qed.

Lemma lexFrom_dashes n acc rest :
  lexFrom (InWord acc) (replicate n "-"%char ++ rest)
  = lexFrom (InWord (replicate n "-"%char ++ acc)) rest.
Proof.
  revert acc. induction n as [|n IH]; intros acc; [done|].
  cbn [replicate app]. rewrite (lexFrom_silent _ (InWord ("-"%char :: acc))) by done.
  rewrite IH. do 2 f_equal. clear. induction n as [|n IH]; [done|].
  simpl. by rewrite IH.
Qed.

(** A line of dashes read between tokens is one word. *)
Lemma lexFrom_boundary rest tokens :
  lexFrom Between (FRONTMATTER_BOUNDARY ++ rest) = Some tokens →
  match rest with [] => True | c :: _ => c = LF ∨ c = CR end →
  TWord FRONTMATTER_BOUNDARY ∈ tokens.
Proof.
  change FRONTMATTER_BOUNDARY with ("-"%char :: replicate 17 "-"%char) at 1.
  cbn [app]. rewrite (lexFrom_silent _ (InWord ["-"%char])) by done.
  rewrite lexFrom_dashes.
  change (replicate 17 "-"%char ++ ["-"%char]) with (reverse FRONTMATTER_BOUNDARY).
  destruct rest as [|c rest]; simpl.
  - intros [= <-] _. apply list_elem_of_singleton. done.
  - intros Ht Hc. unfold endsWord, stepBetween in Ht.
    rewrite (lineEnd_space _ Hc) in Ht. simpl in Ht.
    destruct (lexFrom Between rest); [|done]. injection Ht as <-.
    by left.
Qed.
End json_facts.

(** ** Decoding a document *)

Lemma dropCR_cons c p :
  bufio.dropCR (c :: p)
  = match p with
    | [] => if decide (c = CR) then [] else [c]
    | _ => c :: bufio.dropCR p
    end.
Proof.
  unfold bufio.dropCR. destruct p as [|x p].
  - simpl. destruct (decide (c = CR)) as [->|Hc]; [done|].
    rewrite decide_False; [done|]. by intros [= ?].
  - rewrite last_cons_cons. by case_decide.
Qed.

Lemma dropCR_inv l b :
  bufio.dropCR l = b → l = b ∨ l = b ++ [CR].
Proof.
  unfold bufio.dropCR. case_decide as Hl; [|by left].
  apply last_Some in Hl as [l' ->]. rewrite removelast_last. intros ->. by right.
Qed.

Lemma stripped_lines raw :
  stripped raw (concat (map bufio.dropCR (filepath.splitOn LF raw))).
Proof.
  induction raw as [|c raw IH]; simpl; [constructor|].
  case_decide as Hc.
  - subst c. simpl. apply stripped_drop; [by left|done].
  - destruct (splitOn_cons_inv LF raw) as (p & ps & E). rewrite E in *.
    cbn [map concat] in *. rewrite dropCR_cons. destruct p as [|x p].
    + change (bufio.dropCR []) with (@nil ascii) in IH. simpl in IH.
      case_decide as Hcr.
      * apply stripped_drop; [by right|done].
      * by apply stripped_keep.
    + by apply stripped_keep.
Qed.

(** No line of a JSON text is the boundary. *)
Lemma json_no_boundary raw v :
  json.parse raw = Some v →
  Forall (λ l, bufio.dropCR l ≠ FRONTMATTER_BOUNDARY) (filepath.splitOn LF raw).
Proof.
  unfold json.parse, json.lex.
  destruct (json.lexFrom json.Between raw) as [tokens|] eqn:E; [|done].
  destruct (json.feedAll _ tokens) as [st|] eqn:Ef; [|done]. intros _.
  assert (json.TWord FRONTMATTER_BOUNDARY ∉ tokens) as Hno.
  { intros Hin. by destruct (feedAll_words _ _ _ _ Ef Hin). }
  clear Ef. remember (length raw) as n eqn:Hn. revert raw tokens Hn E Hno.
  induction n as [n IH] using lt_wf_ind. intros raw tokens -> E Hno.
  destruct (decide (LF ∈ raw)) as [Hin|Hnin].
  - apply list_elem_of_split_l in Hin as (p & raw' & -> & Hp).
    rewrite splitOn_app, (splitOn_no_sep _ _ Hp). simpl.
    destruct (lexFrom_line _ _ _ _ E) as (before & after & -> & E').
    constructor.
    + intros [->| ->]%dropCR_inv.
      * apply Hno. eapply lexFrom_boundary; [done|]. by left.
      * rewrite <- app_assoc in E. apply Hno. eapply lexFrom_boundary; [done|].
        by right.
    + eapply IH; [|done|done|].
      * rewrite length_app. simpl. lia.
      * intros ?. apply Hno. apply elem_of_app. by right.
  - rewrite (splitOn_no_sep _ _ Hnin). repeat constructor.
    intros [->| ->]%dropCR_inv.
    + apply Hno. rewrite <- (app_nil_r FRONTMATTER_BOUNDARY) in E.
      by eapply lexFrom_boundary.
    + apply Hno. eapply lexFrom_boundary; [done|]. by right.
Qed.

Lemma lines_nonempty_pieces data :
  filepath.splitOn LF data ≠ [].
Proof. by destruct (splitOn_cons_inv LF data) as (p & ps & ->). Qed.

Lemma trim_cons_ne p ps : ps ≠ [] → trim (p :: ps) = p :: trim ps.
Proof. intros Hps. by apply (trim_app [p]). Qed.

Lemma short_boundary : short FRONTMATTER_BOUNDARY.
Proof. by vm_compute. Qed.

Lemma splitOn_boundary : filepath.splitOn LF FRONTMATTER_BOUNDARY = [FRONTMATTER_BOUNDARY].
Proof. by vm_compute. Qed.

Lemma document_pieces block body :
  filepath.splitOn LF (document block body)
  = FRONTMATTER_BOUNDARY :: filepath.splitOn LF block
    ++ FRONTMATTER_BOUNDARY :: filepath.splitOn LF body.
Proof.
  unfold document. cbn [app]. rewrite splitOn_app, splitOn_boundary.
  rewrite splitOn_app. rewrite (splitOn_app _ FRONTMATTER_BOUNDARY body), splitOn_boundary.
  done.
Qed.

Lemma scan_document block body :
  Forall short (filepath.splitOn LF block) →
  Forall short (filepath.splitOn LF body) →
  bufio.scan (document block body)
  = (FRONTMATTER_BOUNDARY :: map bufio.dropCR (filepath.splitOn LF block)
       ++ FRONTMATTER_BOUNDARY :: map bufio.dropCR (lines body), None).
Proof.
  intros Hblock Hbody. rewrite scan_spec.
  - unfold lines. rewrite document_pieces.
    rewrite (trim_cons_ne FRONTMATTER_BOUNDARY (_ ++ _))
      by (by destruct (filepath.splitOn LF block)).
    rewrite trim_app by done.
    rewrite trim_cons_ne by apply lines_nonempty_pieces.
    cbn [map]. rewrite map_app. done.
  - rewrite document_pieces. constructor; [apply short_boundary|].
    apply Forall_app. split; [done|]. constructor; [apply short_boundary|done].
Qed.

Lemma readFullLoop_document block body :
  Forall (λ b, b ≠ FRONTMATTER_BOUNDARY) block →
  readFullLoop (FRONTMATTER_BOUNDARY :: block ++ FRONTMATTER_BOUNDARY :: body) 0 [] []
  = (2, concat block, concat (map (λ b, b ++ [LF]) body)).
Proof.
  intros Hblock. rewrite readFullLoop_boundary by lia.
  rewrite readFullLoop_meta by (done || lia).
  rewrite readFullLoop_boundary by lia. by rewrite readFullLoop_body.
Qed.

Lemma readFull_file fs filepath data :
  fs !! filepath.elements filepath = Some (os.File data) →
  readFull fs filepath = decode filepath (os.File data).
Proof. unfold readFull, os.Open. by intros ->. Qed.

(** The decoding of a document with a block that holds no boundary line. *)
Lemma decode_document name block body :
  Forall short (filepath.splitOn LF block) →
  Forall short (filepath.splitOn LF body) →
  Forall (λ l, bufio.dropCR l ≠ FRONTMATTER_BOUNDARY) (filepath.splitOn LF block) →
  decode name (os.File (document block body))
  = Ok (concat (map bufio.dropCR (filepath.splitOn LF block)),
        concat (map (λ l, bufio.dropCR l ++ [LF]) (lines body))).
Proof.
  intros Hblock Hbody Hno. unfold decode. cbn [os.Read].
  rewrite scan_document by done. rewrite readFullLoop_document.
  - by rewrite map_map.
  - by apply Forall_map.
Qed.

(** ** The frontmatter codec: the claims *)

(** C1. The document made of a boundary line, the line [{"title":"A"}],
    a boundary line and the line [Body text], each ended by a line feed,
    decodes to the metadata [{"title":"A"}] and the body [Body text] with
    its line feed: the boundary lines go nowhere, the line before the
    second boundary goes to the metadata without its line end, the line
    after it goes to the body with one line feed. *)
Theorem C1_boundary_parsing (fs : os.FS) (filepath : bytes) :
  fs !! filepath.elements filepath
  = Some (os.File (FRONTMATTER_BOUNDARY ++ [LF] ++ titleA ++ [LF]
                   ++ FRONTMATTER_BOUNDARY ++ [LF] ++ str "Body text" ++ [LF])) →
  readFull fs filepath = Ok (titleA, str "Body text" ++ [LF]).
Proof. intros Hfile. rewrite (readFull_file _ _ _ Hfile). by vm_compute. Qed.

Lemma C1_boundary_parsing_witness :
  readFull exampleTree (str "post.md") = Ok (titleA, str "Body text" ++ [LF]).
Proof. apply C1_boundary_parsing. by vm_compute. Defined.

Lemma addFrontmatter_new raw :
  addFrontmatter ∅ (str "test.md") raw
  = Ok (<[ [str "test.md"] := os.File (document raw []) ]> ∅).
Proof. unfold addFrontmatter, document. by rewrite <- !app_assoc. Qed.

(** C2, as stated, fails: a JSON object with a line of 64 KiB or more is
    written by [addFrontmatter] and is not read back. *)
Lemma C2_round_trip_counterexample :
  ¬ (∀ (fs fs' : os.FS) (filepath raw : bytes) (M : json.value),
       json.Unmarshal Some raw = Ok M →
       addFrontmatter fs filepath raw = Ok fs' →
       ∃ meta body,
         readFull fs' filepath = Ok (meta, body) ∧ json.Unmarshal Some meta = Ok M).
Proof.
  intros Hclaim.
  assert (isOk (json.Unmarshal Some longObject) = true) as HM by (vm_compute; reflexivity).
  destruct (json.Unmarshal Some longObject) as [M|] eqn:EM; [clear HM|done].
  destruct (Hclaim ∅ _ (str "test.md") longObject M EM (addFrontmatter_new _))
    as (meta & body & Hread & _).
  rewrite (readFull_file _ _ (document longObject [])) in Hread by done.
  assert (isOk (decode (str "test.md") (os.File (document longObject []))) = false)
    as Hno by (vm_compute; reflexivity).
  by rewrite Hread in Hno.
Qed.

(** C2, amended. For every JSON text [raw] with value [M] whose lines are
    shorter than the scanner's 64 KiB buffer: when [addFrontmatter] has
    written it, [readFull] returns a metadata buffer that unmarshals to
    [M] again, and an empty body. *)
Theorem C2_round_trip {T} (assign : json.value → option T)
    (fs fs' : os.FS) (filepath raw : bytes) (M : T) :
  json.Unmarshal assign raw = Ok M →
  Forall short (filepath.splitOn LF raw) →
  addFrontmatter fs filepath raw = Ok fs' →
  ∃ meta,
    readFull fs' filepath = Ok (meta, []) ∧ json.Unmarshal assign meta = Ok M.
Proof.
  intros HM Hshort Hadd. unfold json.Unmarshal in HM.
  destruct (json.parse raw) as [v|] eqn:Hv; [|done].
  exists (concat (map bufio.dropCR (filepath.splitOn LF raw))). split.
  - unfold addFrontmatter, os.WriteFile, wrap in Hadd.
    assert (fs' = <[filepath.elements filepath :=
                      os.File (document raw [])]> fs) as ->.
    { unfold document. rewrite <- !app_assoc in Hadd.
      repeat case_match; simplify_eq; done. }
    rewrite (readFull_file _ _ (document raw [])) by apply lookup_insert_eq.
    rewrite decode_document; [done|done|by repeat constructor|].
    by eapply json_no_boundary.
  - unfold json.Unmarshal.
    by rewrite (parse_stripped _ _ _ (stripped_lines raw) Hv).
Qed.

Lemma C2_round_trip_witness :
  json.Unmarshal Some titleA = Ok (json.Object [(str "title", json.String (str "A"))])
  ∧ Forall short (filepath.splitOn LF titleA)
  ∧ addFrontmatter ∅ (str "test.md") titleA
    = Ok (<[ [str "test.md"] := os.File (document titleA []) ]> ∅)
  ∧ ∃ meta,
      readFull (<[ [str "test.md"] := os.File (document titleA []) ]> ∅) (str "test.md")
      = Ok (meta, [])
      ∧ json.Unmarshal Some meta
        = Ok (json.Object [(str "title", json.String (str "A"))]).
Proof.
  assert (Forall short (filepath.splitOn LF titleA)) as Hshort.
  { repeat constructor. }
  split; [by vm_compute|]. split; [done|]. split; [apply addFrontmatter_new|].
  apply (C2_round_trip Some ∅ _ (str "test.md") titleA);
    [by vm_compute|done|apply addFrontmatter_new].
Defined.

Lemma lookup_postmd (f : os.node) :
  ({[ [str "post.md"] := f ]} : os.FS) !! filepath.elements (str "post.md") = Some f.
Proof. apply lookup_singleton_eq. Qed.

(** C3, as stated, fails: a document of one line of 64 KiB has no boundary
    line, and its line does not reach the metadata buffer: [readFull]
    returns the scanner's error and no buffer. *)
Lemma C3_no_body_counterexample :
  ¬ (∀ (fs : os.FS) (filepath data : bytes),
       fs !! filepath.elements filepath = Some (os.File data) →
       length (filter (λ l, l = FRONTMATTER_BOUNDARY)
                 (map bufio.dropCR (lines data))) < 2 →
       readFull fs filepath
       = Ok (concat (filter (λ l, l ≠ FRONTMATTER_BOUNDARY)
                       (map bufio.dropCR (lines data))), [])).
Proof.
  intros Hclaim.
  specialize (Hclaim {[ [str "post.md"] := os.File longLine ]} (str "post.md") longLine).
  assert (isOk (readFull {[ [str "post.md"] := os.File longLine ]} (str "post.md"))
          = false) as Hread by (vm_compute; reflexivity).
  rewrite Hclaim in Hread; [done|apply lookup_postmd|].
  assert (length (filter (λ l, l = FRONTMATTER_BOUNDARY)
                    (map bufio.dropCR (lines longLine))) = 0) as ->; [|lia].
  vm_compute. reflexivity.
Qed.

(** C3, amended. For every document with fewer than two boundary lines
    whose lines are all shorter than the scanner's 64 KiB buffer,
    [readFull] returns an empty body, and the metadata buffer is every
    line that is not a boundary, one after the other. *)
Theorem C3_no_body (fs : os.FS) (filepath data : bytes) :
  fs !! filepath.elements filepath = Some (os.File data) →
  Forall short (filepath.splitOn LF data) →
  length (filter (λ l, l = FRONTMATTER_BOUNDARY)
            (map bufio.dropCR (lines data))) < 2 →
  readFull fs filepath
  = Ok (concat (filter (λ l, l ≠ FRONTMATTER_BOUNDARY)
                  (map bufio.dropCR (lines data))), []).
Proof.
  intros Hfile Hshort Hfew. rewrite (readFull_file _ _ _ Hfile).
  unfold decode. cbn [os.Read]. rewrite scan_spec by done.
  by rewrite readFullLoop_few.
Qed.

Lemma C3_no_body_witness :
  ({[ [str "post.md"] := os.File oneBoundary ]} : os.FS)
    !! filepath.elements (str "post.md") = Some (os.File oneBoundary)
  ∧ Forall short (filepath.splitOn LF oneBoundary)
  ∧ length (filter (λ l, l = FRONTMATTER_BOUNDARY)
              (map bufio.dropCR (lines oneBoundary))) < 2
  ∧ readFull {[ [str "post.md"] := os.File oneBoundary ]} (str "post.md")
    = Ok (str "title: ABody text", []).
Proof.
  assert (Forall short (filepath.splitOn LF oneBoundary)) as Hshort.
  { repeat constructor. }
  split; [apply lookup_postmd|]. split; [done|]. split; [vm_compute; lia|].
  by rewrite (C3_no_body _ _ oneBoundary); [| apply lookup_postmd | | vm_compute; lia].
Defined.

(** C9, as stated, fails: the scan of a document of one line of 64 KiB
    does not succeed, and the failure is not an I/O error. *)
Lemma C9_decode_total_counterexample :
  ¬ (∀ (fs : os.FS) (filepath data : bytes),
       fs !! filepath.elements filepath = Some (os.File data) →
       ∃ meta body, readFull fs filepath = Ok (meta, body))
  ∧ ¬ (∀ (fs : os.FS) (filepath : bytes) (e : error),
         readFull fs filepath = Err e → isIOError e = true).
Proof.
  assert (readFull {[ [str "post.md"] := os.File longLine ]} (str "post.md")
          = Err (Errorf (str "error post reading file: %w") [] ErrTooLong)) as Hread.
  { rewrite (readFull_file _ _ longLine) by apply lookup_postmd.
    unfold decode. cbn [os.Read].
    assert (bufio.scan longLine = ([], Some ErrTooLong)) as -> by (vm_compute; reflexivity).
    done. }
  split; intros Hclaim.
  - destruct (Hclaim _ _ longLine (lookup_postmd _)) as (meta & body & Hok).
    by rewrite Hread in Hok.
  - by specialize (Hclaim _ _ _ Hread).
Qed.

(** C9, amended. The scan of [readFull] succeeds on every document whose
    lines are all shorter than the scanner's 64 KiB buffer, whatever its
    boundaries; metadata that is no JSON text is then rejected by [parse],
    at unmarshal time. A document with a line of 64 KiB or more makes the
    scan fail. Every failure of [readFull] is an I/O error or the
    scanner's token-too-long error. *)
Theorem C9_decode_total (fs : os.FS) (filepath data : bytes) :
  fs !! filepath.elements filepath = Some (os.File data) →
  (Forall short (filepath.splitOn LF data) →
   ∃ meta body,
     readFull fs filepath = Ok (meta, body)
     ∧ (json.parse meta = None →
        ∀ (assignPost : json.value → option Post.t) (Parse : bytes → ast.Node)
          (defaultRenderNode : ast.Node → bool → bytes),
          parse assignPost Parse defaultRenderNode fs filepath
          = Err (Errorf (str "error unmarshaling metadata: %w") [] SyntaxError)))
  ∧ (Exists (λ l, ¬ short l) (filepath.splitOn LF data) →
     readFull fs filepath
     = Err (Errorf (str "error post reading file: %w") [] ErrTooLong))
  ∧ (∀ (fs' : os.FS) (filepath' : bytes) (e : error),
       readFull fs' filepath' = Err e →
       isIOError e = true ∨ Unwrap e = ErrTooLong).
Proof.
  intros Hfile. split; [|split].
  - intros Hshort. rewrite (readFull_file _ _ _ Hfile).
    unfold decode. cbn [os.Read]. rewrite scan_spec by done.
    destruct (readFullLoop _ 0 [] []) as [[n meta] body] eqn:Hloop.
    exists meta, body. split; [done|]. intros Hbad assignPost Parse defaultRenderNode.
    unfold parse. rewrite (readFull_file _ _ _ Hfile).
    unfold decode. cbn [os.Read]. rewrite scan_spec, Hloop by done.
    cbn [wrap mbind result_bind]. unfold json.Unmarshal. by rewrite Hbad.
  - intros Hlong. rewrite (readFull_file _ _ _ Hfile).
    unfold decode. cbn [os.Read]. pose proof (scan_long _ Hlong) as Herr.
    destruct (bufio.scan data) as [tokens err]. simpl in Herr. subst err.
    by destruct (readFullLoop tokens 0 [] []) as [[? ?] ?].
  - clear. intros fs filepath e. unfold readFull, os.Open.
    destruct (fs !! filepath.elements filepath) as [[data|]|];
      cbn [wrap mbind result_bind decode os.Read].
    + destruct (bufio.scan data) as [tokens [e'|]] eqn:Hscan.
      * assert (e' = ErrTooLong) as ->.
        { apply (scanFrom_err data []). unfold bufio.scan in Hscan. by rewrite Hscan. }
        destruct (readFullLoop tokens 0 [] []) as [[? ?] ?].
        intros [= <-]. by right.
      * by destruct (readFullLoop tokens 0 [] []) as [[? ?] ?].
    + intros [= <-]. by left.
    + intros [= <-]. by left.
Qed.

Lemma C9_decode_total_witness :
  ({[ [str "post.md"] := os.File oneBoundary ]} : os.FS)
    !! filepath.elements (str "post.md") = Some (os.File oneBoundary)
  ∧ Forall short (filepath.splitOn LF oneBoundary)
  ∧ ∃ meta body,
      readFull {[ [str "post.md"] := os.File oneBoundary ]} (str "post.md")
      = Ok (meta, body).
Proof.
  split; [apply lookup_postmd|]. split; [repeat constructor|].
  destruct (C9_decode_total _ (str "post.md") oneBoundary (lookup_postmd _))
    as (Hscan & _ & _).
  destruct Hscan as (meta & body & Hread & _); [repeat constructor|].
  by exists meta, body.
Defined.

Lemma concat_lines_filter block :
  CR ∉ block →
  concat (map bufio.dropCR (filepath.splitOn LF block))
  = filter (λ c, c ≠ LF) block.
Proof.
  induction block as [|c block IH]; [done|].
  intros [Hc Hblock]%not_elem_of_cons. specialize (IH Hblock).
  cbn [filepath.splitOn]. rewrite filter_cons. case_decide as Hlf.
  - subst c. rewrite decide_False by (by intros []). done.
  - rewrite decide_True by done.
    destruct (splitOn_cons_inv LF block) as (p & ps & E). rewrite E in *.
    cbn [map concat] in *. rewrite dropCR_cons. destruct p as [|x p].
    + rewrite decide_False by done. by rewrite <- IH.
    + by rewrite <- IH.
Qed.

(** C10, as stated, fails: a frontmatter block that is one line of 64 KiB
    is not returned as the concatenation of its lines: [readFull] returns
    the scanner's error and no buffer. *)
Lemma C10_metadata_line_ends_counterexample :
  ¬ (∀ (fs : os.FS) (filepath block body : bytes),
       fs !! filepath.elements filepath = Some (os.File (document block body)) →
       Forall (λ l, bufio.dropCR l ≠ FRONTMATTER_BOUNDARY) (filepath.splitOn LF block) →
       readFull fs filepath
       = Ok (concat (map bufio.dropCR (filepath.splitOn LF block)),
             concat (map (λ l, bufio.dropCR l ++ [LF]) (lines body)))).
Proof.
  intros Hclaim.
  specialize (Hclaim {[ [str "post.md"] := os.File (document longLine []) ]}
                (str "post.md") longLine []).
  assert (isOk (readFull {[ [str "post.md"] := os.File (document longLine []) ]}
                  (str "post.md")) = false) as Hread by (vm_compute; reflexivity).
  rewrite Hclaim in Hread; [done|apply lookup_postmd|].
  apply (bool_decide_unpack _). vm_compute. reflexivity.
Qed.

(** C10, amended. In a document made of a boundary line, a frontmatter
    block, a boundary line and a body, with lines that fit the scanner's
    buffer and no boundary line inside the block, the metadata buffer is
    the lines of the block one after the other, each without its line end
    and with nothing between them, and the body is its lines with one line
    feed after each. When the block holds no carriage return, the metadata
    buffer is the block with its line feeds removed. *)
Theorem C10_metadata_line_ends (fs : os.FS) (filepath block body : bytes) :
  fs !! filepath.elements filepath = Some (os.File (document block body)) →
  Forall short (filepath.splitOn LF block) →
  Forall short (filepath.splitOn LF body) →
  Forall (λ l, bufio.dropCR l ≠ FRONTMATTER_BOUNDARY) (filepath.splitOn LF block) →
  readFull fs filepath
  = Ok (concat (map bufio.dropCR (filepath.splitOn LF block)),
        concat (map (λ l, bufio.dropCR l ++ [LF]) (lines body)))
  ∧ (CR ∉ block →
     concat (map bufio.dropCR (filepath.splitOn LF block))
     = filter (λ c, c ≠ LF) block).
Proof.
  intros Hfile Hblock Hbody Hno. split.
  - rewrite (readFull_file _ _ _ Hfile). by apply decode_document.
  - apply concat_lines_filter.
Qed.

Lemma C10_metadata_line_ends_witness :
  ({[ [str "post.md"] := os.File (document threeLines twoLines) ]} : os.FS)
    !! filepath.elements (str "post.md")
  = Some (os.File (document threeLines twoLines))
  ∧ Forall short (filepath.splitOn LF threeLines)
  ∧ Forall short (filepath.splitOn LF twoLines)
  ∧ Forall (λ l, bufio.dropCR l ≠ FRONTMATTER_BOUNDARY) (filepath.splitOn LF threeLines)
  ∧ readFull {[ [str "post.md"] := os.File (document threeLines twoLines) ]}
      (str "post.md")
    = Ok (str "{  x: 1,}", str "Body" ++ [LF] ++ [LF] ++ str "text" ++ [LF]).
Proof.
  assert (Forall short (filepath.splitOn LF threeLines)) as H1 by repeat constructor.
  assert (Forall short (filepath.splitOn LF twoLines)) as H2 by repeat constructor.
  assert (Forall (λ l, bufio.dropCR l ≠ FRONTMATTER_BOUNDARY)
            (filepath.splitOn LF threeLines)) as H3 by (repeat constructor; done).
  split; [apply lookup_postmd|]. do 3 (split; [done|]).
  by destruct (C10_metadata_line_ends _ (str "post.md") threeLines twoLines
                 (lookup_postmd _) H1 H2 H3) as [-> _].
Defined.

(** ** Root names *)

Lemma hd_splitOn_dot filename :
  hd [] (filepath.splitOn "."%char filename) = beforeFirstDot filename.
Proof.
  induction filename as [|c rest IH]; [done|]. simpl. case_decide; [done|].
  destruct (splitOn_cons_inv "."%char rest) as (p & ps & E). rewrite E in *.
  simpl in *. by rewrite IH.
Qed.

Lemma Split_file dir file :
  filepath.Separator ∉ file →
  (filepath.Split (dir ++ filepath.Separator :: file)).2 = file
  ∧ (filepath.Split file).2 = file.
Proof.
  intros Hfile. unfold filepath.Split. cbn [snd].
  rewrite splitOn_app, (splitOn_no_sep _ _ Hfile). split; [|done].
  by rewrite last_last.
Qed.

Lemma rootName_Split path :
  rootName path = beforeFirstDot (filepath.Split path).2.
Proof.
  unfold rootName. destruct (filepath.Split path) as [d f]. apply hd_splitOn_dot.
Qed.

(** C4. The root name of [bbc/cbc/abc.md] is [abc] and that of
    [abc.md.json] is [abc]; in general the root name of a path is its
    final component up to its first dot, a function of the path alone. *)
Theorem C4_root_name (dir file : bytes) :
  filepath.Separator ∉ file →
  rootName (str "bbc/cbc/abc.md") = str "abc"
  ∧ rootName (str "abc.md.json") = str "abc"
  ∧ rootName (dir ++ filepath.Separator :: file) = beforeFirstDot file
  ∧ rootName file = beforeFirstDot file.
Proof.
  intros Hfile. destruct (Split_file dir file Hfile) as [Hd Hf].
  split; [by vm_compute|]. split; [by vm_compute|].
  split; rewrite rootName_Split; congruence.
Qed.

Lemma C4_root_name_witness :
  (filepath.Separator ∉ str "post.tar.gz")
  ∧ rootName (str "markdown/posts" ++ filepath.Separator :: str "post.tar.gz")
    = str "post".
Proof.
  assert (filepath.Separator ∉ (str "post.tar.gz")) as Hfile.
  { intros Hin. by repeat (apply elem_of_cons in Hin as [?|Hin]; [done|]);
      apply elem_of_nil in Hin. }
  split; [done|].
  by destruct (C4_root_name (str "markdown/posts") (str "post.tar.gz") Hfile)
    as (_ & _ & -> & _).
Defined.

(** ** The reset stage *)

Section reset_facts.
Import tree.
Context (assetsEFS : tree.Walk).

Lemma RemoveAll_lookup (fs : os.FS) (name : bytes) (k : list bytes) :
  RemoveAll fs name !! k
  = if decide (under (filepath.elements name) k) then None else fs !! k.
Proof.
  unfold RemoveAll. case_decide as Hk.
  - apply map_lookup_filter_None. right. intros x _ Hx. by apply Hx.
  - destruct (fs !! k) as [x|] eqn:E.
    + by apply map_lookup_filter_Some.
    + apply map_lookup_filter_None. by left.
Qed.

(** Two trees that differ below [name] only are the same once [name] is
    removed. *)
Lemma RemoveAll_agree (fs fs' : os.FS) (name : bytes) :
  (∀ k, ¬ under (filepath.elements name) k → fs' !! k = fs !! k) →
  RemoveAll fs' name = RemoveAll fs name.
Proof.
  intros Hagree. apply map_eq. intros k. rewrite !RemoveAll_lookup.
  case_decide; [done|]. by apply Hagree.
Qed.

Lemma RemoveAll_outside (fs : os.FS) (name : bytes) (k : list bytes) :
  ¬ under (filepath.elements name) k → RemoveAll fs name !! k = fs !! k.
Proof. intros Hk. rewrite RemoveAll_lookup. by rewrite decide_False. Qed.

(** [MkdirAll] touches nothing outside [d] when its first new element is
    below [d]. *)
Lemma mkdirFrom_outside (d : list bytes) (name : bytes) (walked todo : list bytes)
    (fs fs' : os.FS) (k : list bytes) :
  mkdirFrom name walked todo fs = Ok fs' →
  match todo with e :: _ => under d (walked ++ [e]) | [] => True end →
  ¬ under d k → fs' !! k = fs !! k.
Proof.
  intros Hmk Hd Hk. revert walked fs Hmk Hd.
  induction todo as [|e todo IH]; intros walked fs; cbn [mkdirFrom].
  - by intros [= ->].
  - intros Hmk Hd.
    assert (match todo with
            | e' :: _ => under d ((walked ++ [e]) ++ [e'])
            | [] => True
            end) as Hnext.
    { destruct todo; [done|]. unfold under in *. by apply prefix_app_r. }
    destruct (fs !! (walked ++ [e])) as [[content|]|] eqn:E; [done| |].
    + by eapply IH.
    + rewrite (IH _ _ Hmk Hnext). apply lookup_insert_ne. by intros <-.
Qed.

Lemma elements_Join (d fpath : bytes) :
  d ≠ [] →
  filepath.elements (filepath.Join [d; fpath])
  = filepath.elements d ++ filepath.elements fpath.
Proof.
  intros Hd. unfold filepath.Join, filepath.elements.
  rewrite filter_cons, decide_True by done. destruct fpath as [|c fpath].
  - rewrite filter_cons, decide_False by (by intros []).
    cbn [filter filepath.joinAll filepath.splitOn].
    rewrite (filter_cons _ []), decide_False by (by intros [[] _]).
    by rewrite app_nil_r.
  - rewrite filter_cons, decide_True by done.
    cbn [filter filepath.joinAll]. by rewrite splitOn_app, filter_app.
Qed.

Lemma elements_SITE_DIR : filepath.elements SITE_DIR = [SITE_DIR].
Proof. by vm_compute. Qed.

Lemma under_SITE_DIR (fpath : bytes) :
  under [SITE_DIR] (filepath.elements (filepath.Join [SITE_DIR; fpath])).
Proof.
  rewrite elements_Join by done. rewrite elements_SITE_DIR. by apply prefix_app_r.
Qed.

Lemma MkdirAll_outside (fpath : bytes) (fs fs' : os.FS) (k : list bytes) :
  MkdirAll fs (filepath.Join [SITE_DIR; fpath]) = Ok fs' →
  ¬ under [SITE_DIR] k → fs' !! k = fs !! k.
Proof.
  unfold MkdirAll. intros Hmk. eapply mkdirFrom_outside; [done|].
  rewrite elements_Join, elements_SITE_DIR by done. simpl. done.
Qed.

Lemma CopyFS_outside (fsys : tree.Walk) (fs fs' : os.FS) (k : list bytes) :
  CopyFS fs SITE_DIR fsys = Ok fs' →
  ¬ under [SITE_DIR] k → fs' !! k = fs !! k.
Proof.
  intros Hcp Hk. revert fs Hcp.
  induction fsys as [|[fpath entry] fsys IH]; intros fs; cbn [CopyFS].
  - by intros [= ->].
  - destruct entry as [content|].
    + destruct (fs !! _) eqn:E; [done|].
      destruct (os.parentOk _ _); [|done]. cbn [mbind result_bind].
      intros Hcp. rewrite (IH _ Hcp). apply lookup_insert_ne.
      intros <-. apply Hk, under_SITE_DIR.
    + destruct (MkdirAll fs _) as [fs1|] eqn:Emk; [|done]. cbn [mbind result_bind].
      intros Hcp. rewrite (IH _ Hcp). by eapply MkdirAll_outside.
Qed.

(** [reset] is a function of the tree without the site directory. *)
Lemma reset_RemoveAll (fs fs' : os.FS) :
  RemoveAll fs' SITE_DIR = RemoveAll fs SITE_DIR →
  reset assetsEFS fs' = reset assetsEFS fs.
Proof. unfold reset. by intros ->. Qed.

Lemma reset_outside (fs fs1 : os.FS) (k : list bytes) :
  reset assetsEFS fs = Ok fs1 →
  ¬ under [SITE_DIR] k → fs1 !! k = fs !! k.
Proof.
  unfold reset. intros Hreset Hk.
  destruct (MkdirAll (RemoveAll fs SITE_DIR) _) as [fs2|] eqn:E2; [|done].
  cbn [wrap mbind result_bind] in Hreset.
  destruct (MkdirAll fs2 _) as [fs3|] eqn:E3; [|done].
  cbn [wrap mbind result_bind] in Hreset.
  destruct (CopyFS fs3 SITE_DIR assetsEFS) as [fs4|] eqn:E4; [|done].
  injection Hreset as <-.
  rewrite (CopyFS_outside _ _ _ _ E4 Hk), (MkdirAll_outside _ _ _ _ E3 Hk),
    (MkdirAll_outside _ _ _ _ E2 Hk).
  apply RemoveAll_outside. by rewrite elements_SITE_DIR.
Qed.

End reset_facts.

(** C8. When the reset stage has run, running it again leaves the tree as
    it is; and its result is the same whatever stood below the site
    directory before: nothing of a previous run is left. *)
Theorem C8_idempotent_reset (assetsEFS : tree.Walk) (fs fs1 : os.FS) :
  reset assetsEFS fs = Ok fs1 →
  reset assetsEFS fs1 = Ok fs1
  ∧ (∀ fs' : os.FS,
       (∀ k, ¬ tree.under [SITE_DIR] k → fs' !! k = fs !! k) →
       reset assetsEFS fs' = Ok fs1).
Proof.
  intros Hreset. split.
  - transitivity (reset assetsEFS fs); [|done]. apply reset_RemoveAll, RemoveAll_agree.
    rewrite elements_SITE_DIR. intros k Hk. by eapply reset_outside.
  - intros fs' Hagree. rewrite <- Hreset. apply reset_RemoveAll, RemoveAll_agree.
    by rewrite elements_SITE_DIR.
Qed.

Lemma C8_idempotent_reset_witness :
  ∃ fs1, reset someAssets builtTree = Ok fs1 ∧ reset someAssets fs1 = Ok fs1.
Proof.
  assert (isOk (reset someAssets builtTree) = true) as Hok by (vm_compute; reflexivity).
  destruct (reset someAssets builtTree) as [fs1|] eqn:Hreset; [|discriminate Hok].
  exists fs1. split; [reflexivity|].
  exact (proj1 (C8_idempotent_reset someAssets builtTree fs1 Hreset)).
Defined.

(** ** The discovery of posts *)

Section discovery_facts.
Context (assignPost : json.value → option Post.t).
Context (Parse : bytes → ast.Node).
Context (defaultRenderNode : ast.Node → bool → bytes).

Local Abbreviation parse' := (parse assignPost Parse defaultRenderNode).
Local Abbreviation parsePosts' := (parsePosts assignPost Parse defaultRenderNode).

(** The loop stops at the first file that does not parse. *)
Lemma parsePosts_first (fs : os.FS) (postsDir : bytes)
    (before after : list bytes) (name : bytes) (posts : list Post.t) (e : error) :
  Forall (λ n, isOk (parse' fs (filepath.Join [postsDir; n])) = true) before →
  parse' fs (filepath.Join [postsDir; name]) = Err e →
  parsePosts' fs postsDir (before ++ name :: after) posts
  = Err (Errorf (str "error rendering posts: %w") [] e).
Proof.
  intros Hbefore Hname. revert posts.
  induction Hbefore as [|n before Hn _ IH]; intros posts; cbn [app parsePosts].
  - by rewrite Hname.
  - destruct (parse' fs (filepath.Join [postsDir; n])); [|done].
    cbn [wrap mbind result_bind]. apply IH.
Qed.

(** One file that does not parse is enough for the loop to fail. *)
Lemma parsePosts_fail (fs : os.FS) (postsDir : bytes)
    (postsFilenames : list bytes) (name : bytes) (posts : list Post.t) :
  name ∈ postsFilenames →
  isOk (parse' fs (filepath.Join [postsDir; name])) = false →
  isOk (parsePosts' fs postsDir postsFilenames posts) = false.
Proof.
  intros Hin Hname. revert posts.
  induction postsFilenames as [|n rest IH]; intros posts.
  - by apply elem_of_nil in Hin.
  - cbn [parsePosts].
    destruct (parse' fs (filepath.Join [postsDir; n])) as [post|e] eqn:E; [|done].
    cbn [wrap mbind result_bind]. apply IH.
    apply elem_of_cons in Hin as [->|Hin]; [|done]. by rewrite E in Hname.
Qed.

Lemma parse_bad_json (fs : os.FS) (path meta body : bytes) :
  readFull fs path = Ok (meta, body) →
  json.parse meta = None →
  parse' fs path = Err (Errorf (str "error unmarshaling metadata: %w") [] SyntaxError).
Proof.
  intros Hread Hbad. unfold parse. rewrite Hread.
  cbn [wrap mbind result_bind]. unfold json.Unmarshal. by rewrite Hbad.
Qed.

Lemma parse_unreadable (fs : os.FS) (path : bytes) (e : error) :
  readFull fs path = Err e →
  parse' fs path = Err (Errorf (str "error reading post: %s, %w") [path] e).
Proof. intros Hread. unfold parse. by rewrite Hread. Qed.

End discovery_facts.

Lemma twoPosts_Glob :
  tree.Glob twoPosts postsDir (str ".md") = [str "a.md"; str "b.md"].
Proof. by vm_compute. Qed.

Lemma twoPosts_readFull :
  readFull twoPosts (filepath.Join [postsDir; str "b.md"])
  = Ok (str "{", str "Body text" ++ [LF]).
Proof. by vm_compute. Qed.

Lemma badMetadata_names (path : bytes) : ¬ names badMetadata path.
Proof. by intros [?%elem_of_nil|[?%elem_of_nil|?]]. Qed.

(** C6, as stated, fails on the code: the error for the post [b.md],
    whose metadata is an open brace, does not carry the path of the
    post. *)
Lemma C6_fail_fast_counterexample :
  ¬ (∀ (assignPost : json.value → option Post.t) (Parse : bytes → ast.Node)
       (defaultRenderNode : ast.Node → bool → bytes)
       (fs : os.FS) (cfg : Config.t) (name meta body : bytes),
       name ∈ tree.Glob fs postsDir (str ".md") →
       readFull fs (filepath.Join [postsDir; name]) = Ok (meta, body) →
       json.parse meta = None →
       ∃ e, discoverPosts assignPost Parse defaultRenderNode fs cfg = Err e
            ∧ names e (filepath.Join [postsDir; name])).
Proof.
  intros Hclaim.
  destruct (Hclaim anyObject noMarkdown noOutput twoPosts emptyConfig
              (str "b.md") (str "{") (str "Body text" ++ [LF]))
    as (e & He & Hnames).
  - rewrite twoPosts_Glob. apply elem_of_cons. right. by apply elem_of_cons; left.
  - apply twoPosts_readFull.
  - by vm_compute.
  - assert (discoverPosts anyObject noMarkdown noOutput twoPosts emptyConfig
            = Err badMetadata) as Hrun by (by vm_compute).
    rewrite Hrun in He. injection He as <-. by apply badMetadata_names in Hnames.
Qed.

(** C6, the code against the claim. When a post file in the posts
    directory has metadata that is no JSON text, the discovery of posts
    returns an error and no configuration with posts: the list parsed so
    far is dropped, as the claim says. But when the files before it
    parse, the error is the decoder's error inside two wrappers, and no
    operand of the chain is the path of the file, whereas the other
    failure of [parse], a file that cannot be opened or read, is wrapped
    with the path of that file. *)
Theorem C6_fail_fast
    (assignPost : json.value → option Post.t) (Parse : bytes → ast.Node)
    (defaultRenderNode : ast.Node → bool → bytes)
    (fs : os.FS) (cfg : Config.t) (name meta body : bytes) :
  name ∈ tree.Glob fs postsDir (str ".md") →
  readFull fs (filepath.Join [postsDir; name]) = Ok (meta, body) →
  json.parse meta = None →
  (∃ e, discoverPosts assignPost Parse defaultRenderNode fs cfg = Err e)
  ∧ (∀ before after,
       tree.Glob fs postsDir (str ".md") = before ++ name :: after →
       Forall (λ n, isOk (parse assignPost Parse defaultRenderNode fs
                            (filepath.Join [postsDir; n])) = true) before →
       discoverPosts assignPost Parse defaultRenderNode fs cfg = Err badMetadata)
  ∧ (∀ path, ¬ names badMetadata path)
  ∧ (∀ path e,
       readFull fs path = Err e →
       ∃ e', parse assignPost Parse defaultRenderNode fs path = Err e'
             ∧ names e' path).
Proof.
  intros Hin Hread Hbad.
  pose proof (parse_bad_json assignPost Parse defaultRenderNode _ _ _ _ Hread Hbad)
    as Hparse.
  split; [|split; [|split]].
  - unfold discoverPosts. fold postsDir.
    pose proof (parsePosts_fail assignPost Parse defaultRenderNode fs postsDir
                  _ name [] Hin) as Hfail.
    rewrite Hparse in Hfail. specialize (Hfail eq_refl).
    destruct (parsePosts _ _ _ _ _ _ _) as [posts|e]; [done|]. by exists e.
  - intros before after Hglob Hbefore. unfold discoverPosts. fold postsDir.
    rewrite Hglob.
    by rewrite (parsePosts_first assignPost Parse defaultRenderNode fs postsDir
                  before after name [] _ Hbefore Hparse).
  - apply badMetadata_names.
  - intros path e Hpath. eexists. split; [by apply parse_unreadable|].
    left. by apply list_elem_of_singleton.
Qed.

Lemma C6_fail_fast_witness :
  str "b.md" ∈ tree.Glob twoPosts postsDir (str ".md")
  ∧ readFull twoPosts (filepath.Join [postsDir; str "b.md"])
    = Ok (str "{", str "Body text" ++ [LF])
  ∧ json.parse (str "{") = None
  ∧ discoverPosts anyObject noMarkdown noOutput twoPosts emptyConfig = Err badMetadata
  ∧ ¬ names badMetadata (filepath.Join [postsDir; str "b.md"]).
Proof.
  assert (str "b.md" ∈ tree.Glob twoPosts postsDir (str ".md")) as Hin.
  { rewrite twoPosts_Glob. apply elem_of_cons. right. by apply elem_of_cons; left. }
  assert (json.parse (str "{") = None) as Hbad by (by vm_compute).
  split; [done|]. split; [apply twoPosts_readFull|]. split; [done|].
  destruct (C6_fail_fast anyObject noMarkdown noOutput twoPosts emptyConfig
              (str "b.md") (str "{") (str "Body text" ++ [LF])
              Hin twoPosts_readFull Hbad) as (_ & Hfirst & Hnames & _).
  split; [|apply Hnames].
  apply (Hfirst [str "a.md"] []); [apply twoPosts_Glob|].
  apply Forall_singleton. vm_compute. reflexivity.
Defined.

(** ** Tag pages *)

(** C5, as stated, fails in [generate]: the record of a tag page has the
    layout [tagged], not the layout of the tag. *)
Lemma C5_tag_page_counterexample :
  ¬ (∀ t : Tag.t, Post.Layout (tagAsPost t) = Tag.Layout t).
Proof. intros Hclaim. by specialize (Hclaim (Tag.Build (str "go") (str "custom"))). Qed.

(** ** The code-block hook *)

Section hook_facts.
Context (Parse : bytes → ast.Node).

(** The walk of a tree depends on what the visitor does at its nodes
    only. *)
Lemma Walk_ext (visit visit' : ast.Visitor) :
  (∀ n entering, visit n entering = visit' n entering) →
  ∀ n, ast.Walk visit n = ast.Walk visit' n.
Proof.
  intros Hext.
  fix IH 1. intros n.
  assert (∀ ns,
            (fix walkAll (ns : list ast.Node) : bytes * ast.WalkStatus :=
               match ns with
               | [] => ([], ast.GoToNext)
               | c :: ns' =>
                   let '(out, status) := ast.Walk visit c in
                   match status with
                   | ast.Terminate => (out, ast.Terminate)
                   | _ => let '(out', status') := walkAll ns' in (out ++ out', status')
                   end
               end) ns
            = (fix walkAll (ns : list ast.Node) : bytes * ast.WalkStatus :=
                 match ns with
                 | [] => ([], ast.GoToNext)
                 | c :: ns' =>
                     let '(out, status) := ast.Walk visit' c in
                     match status with
                     | ast.Terminate => (out, ast.Terminate)
                     | _ => let '(out', status') := walkAll ns' in (out ++ out', status')
                     end
                 end) ns) as Hall.
  { fix IHs 1. intros [|c ns]; [done|]. rewrite (IH c). by rewrite (IHs ns). }
  destruct n as [children|kind children|Literal|kind Literal]; cbn [ast.Walk].
  - unfold ast.walkContainer. rewrite !Hext, Hall. done.
  - unfold ast.walkContainer. rewrite !Hext, Hall. done.
  - by rewrite Hext.
  - by rewrite Hext.
Qed.

(** The renderer's own output for a code block is never asked for. *)
Lemma RenderNode_own (defaultRenderNode defaultRenderNode' : ast.Node → bool → bytes) :
  (∀ n entering,
     (∀ Literal, n ≠ ast.CodeBlock Literal) →
     defaultRenderNode n entering = defaultRenderNode' n entering) →
  ∀ n entering,
    RenderNode defaultRenderNode n entering = RenderNode defaultRenderNode' n entering.
Proof.
  intros Hagree n entering. unfold RenderNode.
  destruct n; cbn [myRenderHook]; try done; by rewrite Hagree.
Qed.
End hook_facts.

Lemma Walk_CodeBlock (defaultRenderNode : ast.Node → bool → bytes) (Literal : bytes) :
  ast.Walk (RenderNode defaultRenderNode) (ast.CodeBlock Literal)
  = (str "<div class='highlight'><pre class='highlight'><code>"
       ++ Literal ++ str "</code></pre></div>", ast.GoToNext).
Proof. done. Qed.

Lemma mdToHTML_CodeBlock (Parse : bytes → ast.Node)
    (defaultRenderNode : ast.Node → bool → bytes) (md Literal : bytes) :
  Parse md = ast.Document [ast.CodeBlock Literal] →
  mdToHTML Parse defaultRenderNode md
  = defaultRenderNode (Parse md) true
    ++ (str "<div class='highlight'><pre class='highlight'><code>"
          ++ Literal ++ str "</code></pre></div>")
    ++ defaultRenderNode (Parse md) false.
Proof.
  intros Hdoc. unfold mdToHTML. rewrite Hdoc.
  cbn [ast.Walk ast.walkContainer RenderNode myRenderHook renderCodeBlock fst app].
  by rewrite app_nil_r.
Qed.

(** C7. When the body parses to a document of one fenced code block whose
    text is the line [hello], the HTML of [mdToHTML] holds
    [<div class='highlight'><pre class='highlight'><code>hello], a line
    feed and [</code></pre></div>]. The text of a code block is written
    as it is between the wrapper's tags, and the hook owns the output of
    code blocks: what the renderer itself would write for a code block
    never reaches the output. *)
Theorem C7_code_block (Parse : bytes → ast.Node)
    (defaultRenderNode : ast.Node → bool → bytes) (body : bytes) :
  Parse body = ast.Document [ast.CodeBlock (str "hello" ++ [LF])] →
  contains (mdToHTML Parse defaultRenderNode body)
    (str "<div class='highlight'><pre class='highlight'><code>hello" ++ [LF]
       ++ str "</code></pre></div>")
  ∧ (∀ Literal,
       ast.Walk (RenderNode defaultRenderNode) (ast.CodeBlock Literal)
       = (str "<div class='highlight'><pre class='highlight'><code>"
            ++ Literal ++ str "</code></pre></div>", ast.GoToNext))
  ∧ (∀ (defaultRenderNode' : ast.Node → bool → bytes) (md : bytes),
       (∀ n entering,
          (∀ Literal, n ≠ ast.CodeBlock Literal) →
          defaultRenderNode n entering = defaultRenderNode' n entering) →
       mdToHTML Parse defaultRenderNode md = mdToHTML Parse defaultRenderNode' md).
Proof.
  intros Hdoc. split; [|split].
  - rewrite (mdToHTML_CodeBlock _ _ _ _ Hdoc).
    by exists (defaultRenderNode (Parse body) true),
              (defaultRenderNode (Parse body) false).
  - apply Walk_CodeBlock.
  - intros defaultRenderNode' md Hagree. unfold mdToHTML. f_equal.
    apply Walk_ext. by apply RenderNode_own.
Qed.

Lemma C7_code_block_witness :
  fencedOnly helloBlock = ast.Document [ast.CodeBlock (str "hello" ++ [LF])]
  ∧ mdToHTML fencedOnly tagNames helloBlock
    = str "<div class='highlight'><pre class='highlight'><code>hello" ++ [LF]
      ++ str "</code></pre></div>"
  ∧ contains (mdToHTML fencedOnly tagNames helloBlock)
      (str "<div class='highlight'><pre class='highlight'><code>hello" ++ [LF]
         ++ str "</code></pre></div>").
Proof.
  assert (fencedOnly helloBlock = ast.Document [ast.CodeBlock (str "hello" ++ [LF])])
    as Hdoc by (by vm_compute).
  split; [done|]. split; [by vm_compute|].
  exact (proj1 (C7_code_block fencedOnly tagNames helloBlock Hdoc)).
Defined.

(** * More of the program: what the code shows *)

(** ** Tags of a post, dates, root names *)

Lemma indexFrom_spec (s : list bytes) (v : bytes) (i : Z) :
  (v ∈ s → (i ≤ slices.indexFrom i s v)%Z)
  ∧ (v ∉ s → slices.indexFrom i s v = (-1)%Z).
Proof.
  revert i. induction s as [|x s IH]; intros i; simpl.
  - split; [by intros ?%elem_of_nil|done].
  - case_decide as Hv.
    + split; [lia|]. intros Hnot. exfalso. apply Hnot. subst. by left.
    + destruct (IH (i + 1)%Z) as [Hin Hout]. split.
      * intros [?|?]%elem_of_cons; [done|]. specialize (Hin H). lia.
      * intros Hnot. apply Hout. intros ?. apply Hnot. by right.
Qed.

(** X1. [ContainsTag] is true exactly when the tag is one of the tags of
    the post, byte for byte; it is false for a post without tags. *)
Theorem X1_ContainsTag (p : Post.t) (tag : bytes) :
  (ContainsTag p tag = true ↔ tag ∈ Post.Tags p)
  ∧ (Post.Tags p = [] → ContainsTag p tag = false).
Proof.
  unfold ContainsTag, slices.Contains, slices.Index.
  destruct (indexFrom_spec (Post.Tags p) tag 0) as [Hin Hout]. split.
  - split.
    + intros Hle%Z.leb_le. destruct (decide (tag ∈ Post.Tags p)); [done|].
      rewrite Hout in Hle by done. lia.
    + intros H. apply Z.leb_le. by apply Hin.
  - intros ->. done.
Qed.

Lemma suffix_ordinal (day : Z) :
  (1 ≤ day ≤ 31)%Z →
  (if decide (day = 1 ∨ day = 21 ∨ day = 31)%Z then str "st"
   else if decide (day = 2 ∨ day = 22)%Z then str "nd"
   else if decide (day = 3 ∨ day = 23)%Z then str "rd"
   else str "th") = ordinalSuffix day.
Proof.
  intros Hday.
  assert (day ∈ seqZ 1 31) as Hin by (apply elem_of_seqZ; lia).
  assert (forallb (λ d : Z, bool_decide
            ((if decide (d = 1 ∨ d = 21 ∨ d = 31)%Z then str "st"
              else if decide (d = 2 ∨ d = 22)%Z then str "nd"
              else if decide (d = 3 ∨ d = 23)%Z then str "rd"
              else str "th") = ordinalSuffix d)) (seqZ 1 31) = true) as Hall.
  { vm_compute. reflexivity. }
  rewrite forallb_forall in Hall.
  apply list_elem_of_In, Hall in Hin. by apply bool_decide_eq_true in Hin.
Qed.

(** X2. For every day of a month, 1 to 31, [formatDate] writes the short
    name of the month, the day with its English ordinal ending (st, nd,
    rd, and th also for 11, 12 and 13), a comma and the year. *)
Theorem X2_formatDate (t : time.Time) :
  (1 ≤ time.Day t ≤ 31)%Z →
  formatDate t
  = time.shortMonthName (time.Month_of t) ++ str " " ++ Itoa (time.Day t)
    ++ ordinalSuffix (time.Day t) ++ str ", " ++ Itoa (time.Year t).
Proof. intros Hday. unfold formatDate. by rewrite suffix_ordinal. Qed.

Lemma X2_formatDate_witness :
  (1 ≤ 21 ≤ 31)%Z
  ∧ formatDate {| time.Year := 2024; time.Month_of := time.February; time.Day := 21 |}
    = str "Feb 21st, 2024".
Proof.
  split; [lia|].
  by rewrite (X2_formatDate {| time.Year := 2024; time.Month_of := time.February;
                               time.Day := 21 |}) by (simpl; lia).
Defined.

Lemma beforeFirstDot_clean (filename : bytes) :
  ("."%char ∉ beforeFirstDot filename)
  ∧ (∀ c, c ∈ beforeFirstDot filename → c ∈ filename).
Proof.
  induction filename as [|c rest [IH1 IH2]]; simpl.
  - split; [by intros ?%elem_of_nil|done].
  - case_decide as Hc.
    + split; [by intros ?%elem_of_nil|by intros ? ?%elem_of_nil].
    + split.
      * by intros [?|?]%elem_of_cons.
      * intros x [->|?]%elem_of_cons; [by left|right; by apply IH2].
Qed.

Lemma beforeFirstDot_id (filename : bytes) :
  "."%char ∉ filename → beforeFirstDot filename = filename.
Proof.
  induction filename as [|c rest IH]; [done|].
  intros [Hc Hrest]%not_elem_of_cons. simpl.
  rewrite decide_False by done. by rewrite IH.
Qed.

Lemma last_elem (pieces : list bytes) (d : bytes) :
  pieces ≠ [] → List.last pieces d ∈ pieces.
Proof.
  induction pieces as [|p ps IH]; [done|]. intros _.
  destruct ps as [|q ps]; [by left|].
  right. by apply IH.
Qed.

Lemma Split_clean (path : bytes) :
  filepath.Separator ∉ (filepath.Split path).2.
Proof.
  unfold filepath.Split. cbn [snd].
  pose proof (splitOn_pieces filepath.Separator path) as Hall.
  destruct (splitOn_cons_inv filepath.Separator path) as (p & ps & E).
  rewrite E in *. eapply Forall_forall in Hall; [done|].
  by apply last_elem.
Qed.

(** X3. A root name holds no dot and no separator, whatever the path, and
    it is its own root name. *)
Theorem X3_rootName_clean (path : bytes) :
  ("."%char ∉ rootName path)
  ∧ (filepath.Separator ∉ rootName path)
  ∧ rootName (rootName path) = rootName path.
Proof.
  rewrite !rootName_Split.
  destruct (beforeFirstDot_clean (filepath.Split path).2) as [Hdot Hsub].
  assert (filepath.Separator ∉ beforeFirstDot (filepath.Split path).2) as Hsep.
  { intros Hin. by apply (Split_clean path), Hsub. }
  split; [done|]. split; [done|].
  destruct (Split_file [] _ Hsep) as [_ ->]. by apply beforeFirstDot_id.
Qed.

(** ** The body and the lines before the first boundary *)

Lemma dropCR_id (l : bytes) : CR ∉ l → bufio.dropCR l = l.
Proof.
  intros Hl. unfold bufio.dropCR. case_decide as Hlast; [|done].
  by apply last_Some_elem_of in Hlast.
Qed.

Lemma endedByLF_cons (c : ascii) (body : bytes) :
  body ≠ [] → endedByLF (c :: body) = c :: endedByLF body.
Proof.
  intros Hbody. destruct body as [|b body]; [done|].
  unfold endedByLF. rewrite last_cons_cons.
  destruct (decide (b :: body = [] ∨ last (b :: body) = Some LF)) as [H|H].
  - rewrite decide_True; [done|]. right. by destruct H.
  - rewrite decide_False; [done|]. intros [?|?]; [done|]. apply H. by right.
Qed.

(** The lines of a text, a line feed after each, are the text itself,
    ended by a line feed unless it is empty. *)
Lemma concat_lines_LF (body : bytes) :
  concat (map (λ l, l ++ [LF]) (lines body)) = endedByLF body.
Proof.
  induction body as [|c body IH]; [done|].
  unfold lines in *. cbn [filepath.splitOn].
  pose proof (splitOn_pieces LF body) as Hpieces.
  pose proof (splitOn_concat LF body) as Hconcat.
  destruct (splitOn_cons_inv LF body) as (p & ps & E). rewrite E in *.
  case_decide as Hc.
  - subst c. rewrite trim_cons. cbn [map concat]. rewrite IH.
    destruct body as [|b body]; [done|].
    by rewrite (endedByLF_cons LF (b :: body)).
  - destruct ps as [|q ps].
    + cbn [map concat] in Hconcat. rewrite app_nil_r in Hconcat.
      apply app_inj_tail in Hconcat as [-> _].
      apply Forall_cons in Hpieces as [Hp _].
      unfold trim. cbn [List.last removelast map concat]. rewrite app_nil_r.
      unfold endedByLF. rewrite decide_False; [done|].
      intros [?|Hlast]; [done|]. apply last_Some_elem_of in Hlast.
      by apply elem_of_cons in Hlast as [?|?].
    + rewrite trim_cons in *. cbn [map concat] in *.
      rewrite (endedByLF_cons c body) by (intros ->; done).
      by rewrite <- IH.
Qed.

Lemma elem_of_lines (body l : bytes) (c : ascii) :
  l ∈ lines body → c ∈ l → c ∈ body.
Proof.
  intros Hl Hin. unfold lines, trim in Hl.
  assert (l ∈ filepath.splitOn LF body) as Hl'.
  { apply list_elem_of_In. apply list_elem_of_In in Hl.
    destruct (List.last _ _); [|done].
    revert Hl. generalize (filepath.splitOn LF body). intros pieces.
    induction pieces as [|p [|q pieces] IH]; simpl; [done|done|].
    intros [->|?]; [by left|right; by apply IH]. }
  clear Hl. revert l Hl' Hin. induction body as [|b body IH]; intros l Hl Hin.
  - simpl in Hl. apply list_elem_of_singleton in Hl as ->. done.
  - simpl in Hl. case_decide.
    + apply elem_of_cons in Hl as [->|Hl]; [by apply elem_of_nil in Hin|].
      right. by eapply IH.
    + destruct (splitOn_cons_inv LF body) as (p & ps & E). rewrite E in *.
      apply elem_of_cons in Hl as [->|Hl].
      * apply elem_of_cons in Hin as [->|Hin]; [by left|].
        right. eapply (IH p); [by left|done].
      * right. eapply (IH l); [by right|done].
Qed.

(** A body without carriage returns comes back from the scanner as it
    is. *)
Lemma lines_verbatim (body : bytes) :
  CR ∉ body →
  concat (map (λ l, bufio.dropCR l ++ [LF]) (lines body)) = endedByLF body.
Proof.
  intros Hcr. rewrite <- concat_lines_LF. f_equal.
  apply map_ext_in. intros l Hl. rewrite dropCR_id; [done|].
  intros Hin. apply Hcr. eapply elem_of_lines; [|done]. by apply list_elem_of_In.
Qed.

(** X4. Of a document with two boundary lines, [readFull] returns the
    body as it stands when the body holds no carriage return and ends with
    a line feed or is empty, and with a line feed added at its end
    otherwise; boundary lines inside the body are part of it. *)
Theorem X4_body_verbatim (fs : os.FS) (filepath block body : bytes) :
  fs !! filepath.elements filepath = Some (os.File (document block body)) →
  Forall short (filepath.splitOn LF block) →
  Forall short (filepath.splitOn LF body) →
  Forall (λ l, bufio.dropCR l ≠ FRONTMATTER_BOUNDARY) (filepath.splitOn LF block) →
  CR ∉ body →
  ∃ meta, readFull fs filepath = Ok (meta, endedByLF body).
Proof.
  intros Hfile Hblock Hbody Hno Hcr.
  rewrite (readFull_file _ _ _ Hfile), decode_document by done.
  eexists. by rewrite lines_verbatim.
Qed.

Lemma X4_body_verbatim_witness :
  ∃ meta,
    readFull {[ [str "post.md"] := os.File (document titleA bodyWithBoundary) ]}
      (str "post.md")
    = Ok (meta, bodyWithBoundary ++ [LF]).
Proof.
  apply (X4_body_verbatim _ (str "post.md") titleA bodyWithBoundary).
  - apply lookup_postmd.
  - repeat constructor.
  - repeat constructor.
  - repeat constructor; done.
  - apply (bool_decide_unpack _). by vm_compute.
Defined.

(** X5. In a document whose lines are all shorter than the 64 KiB
    buffer of the scanner, the lines that stand before the first boundary
    line are not dropped: with no boundary line among them nor inside the
    block between the two boundaries, [readFull] puts them at the head of
    the metadata, each without its line end, before the lines of the
    block. *)
Theorem X5_preamble (fs : os.FS) (filepath pre block body : bytes) :
  fs !! filepath.elements filepath
  = Some (os.File (pre ++ [LF] ++ document block body)) →
  Forall short (filepath.splitOn LF pre) →
  Forall short (filepath.splitOn LF block) →
  Forall short (filepath.splitOn LF body) →
  Forall (λ l, bufio.dropCR l ≠ FRONTMATTER_BOUNDARY) (filepath.splitOn LF pre) →
  Forall (λ l, bufio.dropCR l ≠ FRONTMATTER_BOUNDARY) (filepath.splitOn LF block) →
  readFull fs filepath
  = Ok (concat (map bufio.dropCR (filepath.splitOn LF pre))
        ++ concat (map bufio.dropCR (filepath.splitOn LF block)),
        concat (map (λ l, bufio.dropCR l ++ [LF]) (lines body))).
Proof.
  intros Hfile Hpre Hblock Hbody Hnopre Hno.
  rewrite (readFull_file _ _ _ Hfile). unfold decode. cbn [os.Read].
  pose proof (scan_document block body Hblock Hbody) as Hdoc.
  assert (Forall short (filepath.splitOn LF (document block body))) as Hshort.
  { rewrite document_pieces. constructor; [apply short_boundary|].
    apply Forall_app. split; [done|]. constructor; [apply short_boundary|done]. }
  rewrite scan_spec in Hdoc by done. injection Hdoc as Hdoc.
  cbn [app]. rewrite scan_spec.
  - unfold lines in *. rewrite splitOn_app.
    rewrite trim_app by apply lines_nonempty_pieces.
    rewrite map_app, Hdoc.
    rewrite readFullLoop_meta by (lia || by apply Forall_map).
    rewrite readFullLoop_boundary by lia.
    rewrite readFullLoop_meta by (lia || by apply Forall_map).
    rewrite readFullLoop_boundary by lia. rewrite readFullLoop_body by lia.
    by rewrite map_map.
  - rewrite splitOn_app. by apply Forall_app.
Qed.

Lemma X5_preamble_witness :
  readFull {[ [str "post.md"] :=
                os.File (str "draft" ++ [LF] ++ document titleA (str "Body")) ]}
    (str "post.md")
  = Ok (str "draft" ++ titleA, str "Body" ++ [LF]).
Proof.
  apply (X5_preamble _ (str "post.md") (str "draft") titleA (str "Body")).
  - apply lookup_postmd.
  - repeat constructor.
  - repeat constructor.
  - repeat constructor.
  - repeat constructor; done.
  - repeat constructor; done.
Defined.

(** ** Paths and trees *)

Lemma elements_nil : filepath.elements [] = [].
Proof. done. Qed.

Lemma elements_app_sep (a b : bytes) :
  filepath.elements (a ++ filepath.Separator :: b)
  = filepath.elements a ++ filepath.elements b.
Proof. unfold filepath.elements. by rewrite splitOn_app, filter_app. Qed.

Lemma elements_joinAll (elem : list bytes) :
  filepath.elements (filepath.joinAll elem) = concat (map filepath.elements elem).
Proof.
  induction elem as [|e [|e' elem] IH]; [done| |].
  - simpl. by rewrite app_nil_r.
  - change (filepath.joinAll (e :: e' :: elem))
      with (e ++ filepath.Separator :: filepath.joinAll (e' :: elem)).
    rewrite elements_app_sep, IH. done.
Qed.

(** The elements of a joined path are the elements of its parts. *)
Lemma elements_Join_all (elem : list bytes) :
  filepath.elements (filepath.Join elem) = concat (map filepath.elements elem).
Proof.
  unfold filepath.Join. rewrite elements_joinAll.
  induction elem as [|e elem IH]; [done|].
  rewrite filter_cons. case_decide as He.
  - cbn [map concat]. by rewrite IH.
  - subst e. by rewrite IH.
Qed.

(** A name without a separator that is neither empty nor [.] is one
    element. *)
Lemma elements_name (name : bytes) :
  filepath.Separator ∉ name → name ≠ [] → name ≠ str "." →
  filepath.elements name = [name].
Proof.
  intros Hsep Hne Hdot. unfold filepath.elements.
  rewrite (splitOn_no_sep _ _ Hsep). rewrite filter_cons, decide_True by done. done.
Qed.

Lemma elements_MARKDOWN_DIR : filepath.elements MARKDOWN_DIR = [MARKDOWN_DIR].
Proof. by vm_compute. Qed.

Section tree_facts.
Import tree.

Lemma WriteFile_inv (fs fs' : os.FS) (name data : bytes) :
  os.WriteFile fs name data = Ok fs' →
  fs' = <[filepath.elements name := os.File data]> fs
  ∧ os.parentOk fs (filepath.elements name) = true
  ∧ fs !! filepath.elements name ≠ Some os.Dir.
Proof.
  unfold os.WriteFile. intros H.
  destruct (fs !! filepath.elements name) as [[c|]|] eqn:E; [| done |];
    destruct (os.parentOk fs _); simplify_eq; done.
Qed.

Lemma WriteFile_ok (fs : os.FS) (name data : bytes) :
  os.parentOk fs (filepath.elements name) = true →
  fs !! filepath.elements name ≠ Some os.Dir →
  os.WriteFile fs name data = Ok (<[filepath.elements name := os.File data]> fs).
Proof.
  unfold os.WriteFile. intros -> Hnd.
  by destruct (fs !! filepath.elements name) as [[c|]|].
Qed.

(** [MkdirAll] keeps what is there. *)
Lemma mkdirFrom_mono (name : bytes) (walked todo : list bytes) (fs fs' : os.FS)
    (k : list bytes) (n : os.node) :
  mkdirFrom name walked todo fs = Ok fs' → fs !! k = Some n → fs' !! k = Some n.
Proof.
  revert walked fs. induction todo as [|e todo IH]; intros walked fs; cbn [mkdirFrom].
  - by intros [= ->].
  - destruct (fs !! (walked ++ [e])) as [[c|]|] eqn:E; [done| |].
    + apply IH.
    + intros Hmk Hk. eapply IH; [done|].
      rewrite lookup_insert_ne; [done|]. intros <-. congruence.
Qed.

(** After [MkdirAll] every directory on the way exists. *)
Lemma mkdirFrom_dirs (name : bytes) (walked todo : list bytes) (fs fs' : os.FS)
    (i : nat) :
  mkdirFrom name walked todo fs = Ok fs' →
  0 < i ≤ length todo →
  fs' !! (walked ++ take i todo) = Some os.Dir.
Proof.
  revert walked fs i. induction todo as [|e todo IH]; intros walked fs i; cbn [mkdirFrom].
  - simpl. lia.
  - intros Hmk Hi. destruct i as [|i]; [lia|]. cbn [take length] in *.
    destruct (decide (i = 0)) as [->|Hi0].
    + rewrite take_0.
      destruct (fs !! (walked ++ [e])) as [[c|]|] eqn:E; [done| |].
      * by eapply mkdirFrom_mono.
      * eapply mkdirFrom_mono; [done|]. apply lookup_insert_eq.
    + rewrite (cons_middle e), app_assoc.
      destruct (fs !! (walked ++ [e])) as [[c|]|] eqn:E; [done| |];
        (eapply IH; [done|lia]).
Qed.

(** [MkdirAll] makes directories on the way and nothing else. *)
Lemma mkdirFrom_only (name : bytes) (walked todo : list bytes) (fs fs' : os.FS)
    (k : list bytes) :
  mkdirFrom name walked todo fs = Ok fs' →
  fs' !! k = fs !! k
  ∨ (fs !! k = None ∧ fs' !! k = Some os.Dir
     ∧ ∃ i, 0 < i ≤ length todo ∧ k = walked ++ take i todo).
Proof.
  revert walked fs. induction todo as [|e todo IH]; intros walked fs; cbn [mkdirFrom].
  - intros [= ->]. by left.
  - assert (∀ fs0 : os.FS, mkdirFrom name (walked ++ [e]) todo fs0 = Ok fs' →
              fs' !! k = fs0 !! k
              ∨ (fs0 !! k = None ∧ fs' !! k = Some os.Dir
                 ∧ ∃ i, 0 < i ≤ length (e :: todo) ∧ k = walked ++ take i (e :: todo)))
      as Hstep.
    { intros fs0 Hmk. destruct (IH _ _ Hmk) as [?|(? & ? & i & Hi & ->)]; [by left|].
      right. split; [done|]. split; [done|]. exists (S i). split; [simpl; lia|].
      cbn [take]. by rewrite <- app_assoc. }
    destruct (fs !! (walked ++ [e])) as [[c|]|] eqn:E; [done| |].
    + apply Hstep.
    + intros Hmk. destruct (decide (k = walked ++ [e])) as [->|Hk].
      * right. split; [done|]. split.
        -- eapply mkdirFrom_mono; [done|]. apply lookup_insert_eq.
        -- exists 1. split; [simpl; lia|done].
      * destruct (Hstep _ Hmk) as [Heq|(Hnone & ? & ?)].
        -- left. by rewrite Heq, lookup_insert_ne.
        -- right. by rewrite lookup_insert_ne in Hnone.
Qed.

(** [MkdirAll] succeeds when no element on the way is a file. *)
Lemma mkdirFrom_ok (name : bytes) (walked todo : list bytes) (fs : os.FS) :
  (∀ i c, 0 < i ≤ length todo → fs !! (walked ++ take i todo) ≠ Some (os.File c)) →
  ∃ fs', mkdirFrom name walked todo fs = Ok fs'.
Proof.
  revert walked fs. induction todo as [|e todo IH]; intros walked fs Hno; cbn [mkdirFrom].
  - by eexists.
  - assert (∀ fs0 : os.FS,
              (∀ k, k ≠ walked ++ [e] → fs0 !! k = fs !! k) →
              ∃ fs', mkdirFrom name (walked ++ [e]) todo fs0 = Ok fs') as Hstep.
    { intros fs0 Hfs0. apply IH. intros i c Hi.
      assert (length (walked ++ [e]) < length ((walked ++ [e]) ++ take i todo)) as Hlen.
      { rewrite !length_app, length_take. simpl. lia. }
      rewrite Hfs0 by (intros Heq; rewrite Heq in Hlen; lia).
      rewrite <- app_assoc. apply (Hno (S i) c). simpl. lia. }
    destruct (fs !! (walked ++ [e])) as [[c|]|] eqn:E.
    + exfalso. apply (Hno 1 c); [simpl; lia|exact E].
    + by apply Hstep.
    + apply Hstep. intros k Hk. by rewrite lookup_insert_ne.
Qed.

(** [CopyFS] keeps what is there. *)
Lemma CopyFS_mono (dir : bytes) (fsys : tree.Walk) (fs fs' : os.FS)
    (k : list bytes) (n : os.node) :
  CopyFS fs dir fsys = Ok fs' → fs !! k = Some n → fs' !! k = Some n.
Proof.
  revert fs. induction fsys as [|[fpath entry] fsys IH]; intros fs; cbn [CopyFS].
  - by intros [= ->].
  - destruct entry as [content|].
    + destruct (fs !! filepath.elements _) eqn:E; [done|].
      destruct (os.parentOk _ _); [|done]. cbn [mbind result_bind].
      intros Hcp Hk. eapply IH; [done|].
      rewrite lookup_insert_ne; [done|]. intros <-. congruence.
    + destruct (MkdirAll fs _) as [fs1|] eqn:Emk; [|done]. cbn [mbind result_bind].
      intros Hcp Hk. eapply IH; [done|]. by eapply mkdirFrom_mono.
Qed.

(** After [CopyFS] every file of the source tree is in the destination with
    its content. *)
Lemma CopyFS_files (dir : bytes) (fsys : tree.Walk) (fs fs' : os.FS)
    (fpath content : bytes) :
  CopyFS fs dir fsys = Ok fs' →
  (fpath, os.File content) ∈ fsys →
  fs' !! filepath.elements (filepath.Join [dir; fpath]) = Some (os.File content).
Proof.
  revert fs. induction fsys as [|[fpath' entry] fsys IH]; intros fs; cbn [CopyFS].
  - by intros _ ?%elem_of_nil.
  - intros Hcp [[= <- <-]|Hin]%elem_of_cons.
    + destruct (fs !! filepath.elements _) eqn:E; [done|].
      destruct (os.parentOk _ _); [|done]. cbn [mbind result_bind] in Hcp.
      eapply CopyFS_mono; [done|]. apply lookup_insert_eq.
    + destruct (match entry with os.File _ => _ | os.Dir => _ end) as [fs1|]; [|done].
      cbn [mbind result_bind] in Hcp. by eapply IH.
Qed.

End tree_facts.

Section site_facts.
Import tree.

(** What [CopyFS] adds lies on the way to an entry of the source tree. *)
Lemma CopyFS_only (dir : bytes) (fsys : tree.Walk) (fs fs' : os.FS)
    (k : list bytes) (n : os.node) :
  CopyFS fs dir fsys = Ok fs' → fs' !! k = Some n →
  fs !! k = Some n
  ∨ ∃ fpath entry, (fpath, entry) ∈ fsys
      ∧ k `prefix_of` filepath.elements (filepath.Join [dir; fpath]).
Proof.
  revert fs. induction fsys as [|[fpath entry] fsys IH]; intros fs; cbn [CopyFS].
  - intros [= ->]. by left.
  - intros Hcp Hk.
    assert (∀ fs1 : os.FS, CopyFS fs1 dir fsys = Ok fs' →
              fs1 !! k = Some n
              ∨ ∃ fpath0 entry0, (fpath0, entry0) ∈ (fpath, entry) :: fsys
                  ∧ k `prefix_of` filepath.elements (filepath.Join [dir; fpath0]))
      as Hrest.
    { intros fs1 Hcp1. destruct (IH _ Hcp1 Hk) as [?|(f & e & Hin & Hpre)]; [by left|].
      right. exists f, e. split; [by right|done]. }
    destruct entry as [content|].
    + destruct (fs !! filepath.elements _) eqn:E; [done|].
      destruct (os.parentOk _ _); [|done]. cbn [mbind result_bind] in Hcp.
      destruct (Hrest _ Hcp) as [Hk1|?]; [|by right].
      destruct (decide (k = filepath.elements (filepath.Join [dir; fpath]))) as [->|Hne].
      * right. exists fpath, (os.File content). split; [by left|done].
      * left. by rewrite lookup_insert_ne in Hk1.
    + destruct (MkdirAll fs _) as [fs1|] eqn:Emk; [|done].
      cbn [mbind result_bind] in Hcp.
      destruct (Hrest _ Hcp) as [Hk1|?]; [|by right].
      destruct (mkdirFrom_only _ _ _ _ _ k Emk) as [Heq|(_ & _ & i & _ & ->)].
      * left. by rewrite <- Heq.
      * right. exists fpath, os.Dir. split; [by left|].
        exists (drop i (filepath.elements (filepath.Join [dir; fpath]))).
        by rewrite app_nil_l, take_drop.
Qed.

Lemma elements_SITE_blog :
  filepath.elements (filepath.Join [SITE_DIR; str "blog"]) = [SITE_DIR; str "blog"].
Proof. by vm_compute. Qed.

Lemma elements_SITE_tagged :
  filepath.elements (filepath.Join [SITE_DIR; str "tagged"]) = [SITE_DIR; str "tagged"].
Proof. by vm_compute. Qed.

Lemma take_pair (i : nat) (a b : bytes) :
  0 < i ≤ 2 → take i [a; b] = [a] ∨ take i [a; b] = [a; b].
Proof. intros Hi. destruct i as [|[|[|i]]]; [lia|by left|by right|lia]. Qed.

End site_facts.

(** X6. When [reset] has succeeded, the site directory and its
    directories [blog] and [tagged] exist, every file of the embedded
    assets lies below the site directory with its content, and the site
    directory holds nothing else: every entry below it is one of the three
    directories or lies on the way to an entry of the assets. *)
Theorem X6_reset_site (assetsEFS : tree.Walk) (fs fs1 : os.FS) :
  reset assetsEFS fs = Ok fs1 →
  fs1 !! [SITE_DIR] = Some os.Dir
  ∧ fs1 !! [SITE_DIR; str "blog"] = Some os.Dir
  ∧ fs1 !! [SITE_DIR; str "tagged"] = Some os.Dir
  ∧ (∀ fpath content, (fpath, os.File content) ∈ assetsEFS →
       fs1 !! filepath.elements (filepath.Join [SITE_DIR; fpath])
       = Some (os.File content))
  ∧ (∀ k n, tree.under [SITE_DIR] k → fs1 !! k = Some n →
       k ∈ [[SITE_DIR]; [SITE_DIR; str "blog"]; [SITE_DIR; str "tagged"]]
       ∨ ∃ fpath entry, (fpath, entry) ∈ assetsEFS
           ∧ k `prefix_of` filepath.elements (filepath.Join [SITE_DIR; fpath])).
Proof.
  unfold reset. intros Hreset.
  destruct (tree.MkdirAll (tree.RemoveAll fs SITE_DIR) _) as [fs2|] eqn:E2; [|done].
  cbn [wrap mbind result_bind] in Hreset.
  destruct (tree.MkdirAll fs2 _) as [fs3|] eqn:E3; [|done].
  cbn [wrap mbind result_bind] in Hreset.
  destruct (tree.CopyFS fs3 SITE_DIR assetsEFS) as [fs4|] eqn:E4; [|done].
  injection Hreset as <-.
  unfold tree.MkdirAll in E2, E3. rewrite elements_SITE_blog in E2.
  rewrite elements_SITE_tagged in E3.
  assert (fs2 !! [SITE_DIR] = Some os.Dir) as Hsite.
  { apply (mkdirFrom_dirs _ _ _ _ _ 1 E2). simpl. lia. }
  assert (fs2 !! [SITE_DIR; str "blog"] = Some os.Dir) as Hblog.
  { apply (mkdirFrom_dirs _ _ _ _ _ 2 E2). simpl. lia. }
  assert (fs3 !! [SITE_DIR; str "tagged"] = Some os.Dir) as Htagged.
  { apply (mkdirFrom_dirs _ _ _ _ _ 2 E3). simpl. lia. }
  split; [|split; [|split; [|split]]].
  - eapply CopyFS_mono; [done|]. by eapply mkdirFrom_mono.
  - eapply CopyFS_mono; [done|]. by eapply mkdirFrom_mono.
  - by eapply CopyFS_mono.
  - intros fpath content Hin. by eapply CopyFS_files.
  - intros k n Hunder Hk.
    destruct (CopyFS_only _ _ _ _ _ _ E4 Hk) as [Hk3|?]; [|by right]. left.
    destruct (mkdirFrom_only _ _ _ _ _ k E3) as [Heq|(_ & _ & i & Hi & ->)].
    + destruct (mkdirFrom_only _ _ _ _ _ k E2) as [Heq2|(_ & _ & i & Hi & ->)].
      * rewrite Heq, Heq2, RemoveAll_lookup in Hk3.
        rewrite elements_SITE_DIR, decide_True in Hk3 by done. done.
      * rewrite app_nil_l.
        destruct (take_pair i SITE_DIR (str "blog") Hi) as [-> | ->].
        -- by left.
        -- right. by left.
    + rewrite app_nil_l.
      destruct (take_pair i SITE_DIR (str "tagged") Hi) as [-> | ->].
      * by left.
      * right. right. by left.
Qed.

Lemma X6_reset_site_witness :
  ∃ fs1, reset someAssets builtTree = Ok fs1
    ∧ fs1 !! [SITE_DIR; str "blog"] = Some os.Dir
    ∧ fs1 !! filepath.elements (filepath.Join [SITE_DIR; str "assets/styles.css"])
      = Some (os.File (str "body {}")).
Proof.
  assert (isOk (reset someAssets builtTree) = true) as Hok by (vm_compute; reflexivity).
  destruct (reset someAssets builtTree) as [fs1|] eqn:Hreset; [|discriminate Hok].
  exists fs1. split; [reflexivity|].
  destruct (X6_reset_site someAssets builtTree fs1 Hreset)
    as (_ & Hblog & _ & Hfiles & _).
  split; [exact Hblog|].
  apply (Hfiles (str "assets/styles.css") (str "body {}")).
  right. right. left.
Defined.

(** ** Rendering a page *)

Section render_facts.
Context (ExecuteTemplate : bytes → IncludesContent → bytes).
Context (layouts : bytes → option (LayoutContent → bytes)).

Local Abbreviation renderIncludes' := (renderIncludes ExecuteTemplate).
Local Abbreviation render' := (render ExecuteTemplate layouts).

Lemma includes_step_other (content : IncludesContent) (m acc : gmap bytes bytes)
    (known : list (bytes * bytes)) (k : bytes) :
  k ∉ known.*2 →
  foldl (λ (acc : gmap bytes bytes) (kk : bytes * bytes),
           match m !! kk.1 with
           | Some _ => <[kk.2 := ExecuteTemplate kk.1 content]> acc
           | None => acc
           end) acc known !! k
  = acc !! k.
Proof.
  revert acc. induction known as [|[file keyword] known IH]; intros acc Hk; [done|].
  cbn [fmap list_fmap snd] in Hk. apply not_elem_of_cons in Hk as [Hne Hk].
  cbn [foldl fst snd]. rewrite IH by done.
  destruct (m !! file); [|done]. by rewrite lookup_insert_ne.
Qed.

Lemma includes_step_lookup (content : IncludesContent) (m acc : gmap bytes bytes)
    (known : list (bytes * bytes)) (file keyword : bytes) :
  NoDup known.*2 →
  (file, keyword) ∈ known →
  foldl (λ (acc : gmap bytes bytes) (kk : bytes * bytes),
           match m !! kk.1 with
           | Some _ => <[kk.2 := ExecuteTemplate kk.1 content]> acc
           | None => acc
           end) acc known !! keyword
  = match m !! file with
    | Some _ => Some (ExecuteTemplate file content)
    | None => acc !! keyword
    end.
Proof.
  revert acc. induction known as [|[file' keyword'] known IH]; intros acc Hnd Hin.
  - by apply elem_of_nil in Hin.
  - cbn [fmap list_fmap snd] in Hnd. apply NoDup_cons in Hnd as [Hfresh Hnd].
    cbn [foldl fst snd]. apply elem_of_cons in Hin as [[= <- <-]|Hin].
    + rewrite includes_step_other by done.
      destruct (m !! file); [|done]. apply lookup_insert_eq.
    + rewrite IH by done. destruct (m !! file) eqn:Efile; [done|].
      destruct (m !! file'); [|done]. apply lookup_insert_ne.
      intros ->. apply Hfresh. apply list_elem_of_fmap. by exists (file, keyword).
Qed.

Lemma includeFiles_NoDup : NoDup includeFiles.*2.
Proof. apply (bool_decide_unpack _). by vm_compute. Qed.

(** The entry of a keyword once the includes are rendered. *)
Lemma renderIncludes_lookup (content : IncludesContent) (m : gmap bytes bytes)
    (file keyword : bytes) :
  (file, keyword) ∈ includeFiles →
  renderIncludes' content m !! keyword
  = match m !! file with
    | Some _ => Some (ExecuteTemplate file content)
    | None => m !! keyword
    end.
Proof. apply includes_step_lookup, includeFiles_NoDup. Qed.

(** Every other entry is as it was. *)
Lemma renderIncludes_other (content : IncludesContent) (m : gmap bytes bytes)
    (k : bytes) :
  k ∉ includeFiles.*2 →
  renderIncludes' content m !! k = m !! k.
Proof. apply includes_step_other. Qed.

Lemma includeFiles_disjoint (file keyword : bytes) :
  (file, keyword) ∈ includeFiles → file ∉ includeFiles.*2.
Proof.
  assert (Forall (λ fk : bytes * bytes, fk.1 ∉ includeFiles.*2) includeFiles) as Hall.
  { apply (bool_decide_unpack _). by vm_compute. }
  intros Hin. rewrite Forall_forall in Hall. exact (Hall _ Hin).
Qed.

(** Rendering the includes for one page wipes what was rendered for the
    page before. *)
Lemma renderIncludes_fresh (c1 c2 : IncludesContent) (m : gmap bytes bytes) :
  renderIncludes' c2 (renderIncludes' c1 m) = renderIncludes' c2 m.
Proof.
  apply map_eq. intros k. destruct (decide (k ∈ includeFiles.*2)) as [Hk|Hk].
  - apply list_elem_of_fmap in Hk as ([file keyword] & -> & Hin). cbn [snd].
    rewrite (renderIncludes_lookup c2 (renderIncludes' c1 m) file keyword) by done.
    rewrite (renderIncludes_lookup c2 m file keyword) by done.
    rewrite renderIncludes_other by by eapply includeFiles_disjoint.
    destruct (m !! file) eqn:E; [done|].
    by rewrite (renderIncludes_lookup c1 m file keyword), E.
  - by rewrite !renderIncludes_other.
Qed.

Lemma render_inv (post : Post.t) (destDir : bytes) (cfg : Config.t) (tag : Tag.t)
    (w w' : World) :
  render' post destDir cfg tag w = Ok w' →
  ∃ layoutTempl,
    layouts (Post.Layout post) = Some layoutTempl
    ∧ includesRender w'
      = renderIncludes' {| ic_Site := cfg; ic_Post := post |} (includesRender w)
    ∧ os.WriteFile (files w)
        (filepath.Join [destDir; Post.RootName post ++ str ".html"])
        (layoutTempl {| lc_Content := Post.HTML post; lc_Site := cfg;
                        lc_Post := post; lc_Includes := includesRender w';
                        lc_Tag := tag |})
      = Ok (files w').
Proof.
  unfold render. destruct (layouts (Post.Layout post)) as [layoutTempl|]; [|done].
  destruct (os.WriteFile _ _ _) as [fs|] eqn:E; [|done].
  cbn [wrap mbind result_bind]. intros [= <-]. by exists layoutTempl.
Qed.

End render_facts.

(** X7. The includes of a page are rendered from that page and the site
    alone: [render] stores, for each include file registered in
    [includesRender], the output of its template under its keyword, and a
    page rendered before leaves no trace, so that rendering a page after
    another is rendering it with the map as it was before. *)
Theorem X7_render_includes
    (ExecuteTemplate : bytes → IncludesContent → bytes)
    (layouts : bytes → option (LayoutContent → bytes))
    (post : Post.t) (destDir : bytes) (cfg : Config.t) (tag : Tag.t) (w w' : World) :
  render ExecuteTemplate layouts post destDir cfg tag w = Ok w' →
  (∀ file keyword, (file, keyword) ∈ includeFiles →
     is_Some (includesRender w !! file) →
     includesRender w' !! keyword
     = Some (ExecuteTemplate file {| ic_Site := cfg; ic_Post := post |}))
  ∧ (∀ (post2 : Post.t) (destDir2 : bytes) (cfg2 : Config.t) (tag2 : Tag.t),
       render ExecuteTemplate layouts post2 destDir2 cfg2 tag2 w'
       = render ExecuteTemplate layouts post2 destDir2 cfg2 tag2
           {| files := files w'; includesRender := includesRender w |}).
Proof.
  intros Hrender.
  destruct (render_inv _ _ _ _ _ _ _ _ Hrender) as (layoutTempl & _ & Hinc & _).
  split.
  - intros file keyword Hin [x Hx]. rewrite Hinc.
    by rewrite (renderIncludes_lookup _ _ _ file keyword), Hx.
  - intros post2 destDir2 cfg2 tag2. unfold render. cbn [files includesRender].
    by rewrite Hinc, renderIncludes_fresh.
Qed.

Lemma X7_render_includes_witness :
  ∃ w', render echoIncludes taggedOnly (tagAsPost goTag) [] emptyConfig goTag
          siteWorld = Ok w'
    ∧ includesRender w' !! INCLUDES_HEADER = Some (str "header.html" ++ str "go").
Proof.
  assert (isOk (render echoIncludes taggedOnly (tagAsPost goTag) [] emptyConfig goTag
                  siteWorld) = true) as Hok by (vm_compute; reflexivity).
  destruct (render echoIncludes taggedOnly (tagAsPost goTag) [] emptyConfig goTag
              siteWorld) as [w'|] eqn:Hrender; [|discriminate Hok].
  exists w'. split; [reflexivity|].
  apply (proj1 (X7_render_includes _ _ _ _ _ _ _ _ Hrender)
           (str "header.html") INCLUDES_HEADER).
  - left.
  - by eexists.
Defined.

(** X8. When [render] has succeeded on a path without [..], the layout
    named by the post exists, the file [<RootName>.html] of the
    destination directory holds the output of that layout on the post, the
    site, the tag and the includes as just rendered, and every other path
    of the tree is as it was. *)
Theorem X8_render_page
    (ExecuteTemplate : bytes → IncludesContent → bytes)
    (layouts : bytes → option (LayoutContent → bytes))
    (post : Post.t) (destDir : bytes) (cfg : Config.t) (tag : Tag.t) (w w' : World) :
  clean (filepath.Join [destDir; Post.RootName post ++ str ".html"]) →
  render ExecuteTemplate layouts post destDir cfg tag w = Ok w' →
  ∃ layoutTempl,
    layouts (Post.Layout post) = Some layoutTempl
    ∧ files w' !! filepath.elements
                    (filepath.Join [destDir; Post.RootName post ++ str ".html"])
      = Some (os.File (layoutTempl
                         {| lc_Content := Post.HTML post; lc_Site := cfg;
                            lc_Post := post; lc_Includes := includesRender w';
                            lc_Tag := tag |}))
    ∧ (∀ k, k ≠ filepath.elements
                  (filepath.Join [destDir; Post.RootName post ++ str ".html"]) →
         files w' !! k = files w !! k).
Proof.
  intros _ Hrender.
  destruct (render_inv _ _ _ _ _ _ _ _ Hrender) as (layoutTempl & Hlayout & _ & Hwrite).
  apply WriteFile_inv in Hwrite as (Hfiles & _ & _).
  exists layoutTempl. split; [done|]. rewrite Hfiles. split.
  - apply lookup_insert_eq.
  - intros k Hk. by rewrite lookup_insert_ne.
Qed.

Lemma X8_render_page_witness :
  ∃ w', render echoIncludes taggedOnly (tagAsPost goTag) [] emptyConfig goTag
          siteWorld = Ok w'
    ∧ files w' !! [str "go.html"] = Some (os.File (str "<h1>go</h1>")).
Proof.
  assert (isOk (render echoIncludes taggedOnly (tagAsPost goTag) [] emptyConfig goTag
                  siteWorld) = true) as Hok by (vm_compute; reflexivity).
  destruct (render echoIncludes taggedOnly (tagAsPost goTag) [] emptyConfig goTag
              siteWorld) as [w'|] eqn:Hrender; [|discriminate Hok].
  exists w'. split; [reflexivity|].
  assert (clean (filepath.Join [[]; Post.RootName (tagAsPost goTag) ++ str ".html"]))
    as Hclean by (apply (bool_decide_unpack _); vm_compute; reflexivity).
  destruct (X8_render_page _ _ _ _ _ _ _ _ Hclean Hrender)
    as (layoutTempl & Hlayout & Hpage & _).
  injection Hlayout as <-. exact Hpage.
Defined.



(** X10. Two pages with the same root name rendered into the same
    directory are one file: the second takes the place of the first, and
    the world is as if the first had not been rendered. *)
Theorem X10_same_root_name
    (ExecuteTemplate : bytes → IncludesContent → bytes)
    (layouts : bytes → option (LayoutContent → bytes))
    (post1 post2 : Post.t) (destDir : bytes) (cfg1 cfg2 : Config.t)
    (tag1 tag2 : Tag.t) (w w1 w2 : World) :
  Post.RootName post1 = Post.RootName post2 →
  render ExecuteTemplate layouts post1 destDir cfg1 tag1 w = Ok w1 →
  render ExecuteTemplate layouts post2 destDir cfg2 tag2 w1 = Ok w2 →
  render ExecuteTemplate layouts post2 destDir cfg2 tag2 w = Ok w2.
Proof.
  intros Hname H1 H2.
  destruct (render_inv _ _ _ _ _ _ _ _ H1) as (templ1 & _ & Hinc1 & Hwrite1).
  destruct (render_inv _ _ _ _ _ _ _ _ H2) as (templ2 & Hlayout & Hinc2 & Hwrite2).
  apply WriteFile_inv in Hwrite1 as (Hfiles1 & Hparent & Hdir).
  apply WriteFile_inv in Hwrite2 as (Hfiles2 & _ & _).
  rewrite Hname in *. unfold render. rewrite Hlayout.
  rewrite WriteFile_ok by done. cbn [wrap mbind result_bind].
  destruct w2 as [files2 includes2]. cbn [files includesRender] in *.
  rewrite Hinc1, renderIncludes_fresh in Hinc2.
  rewrite Hfiles1, insert_insert_eq in Hfiles2.
  by rewrite <- Hinc2, <- Hfiles2.
Qed.

Lemma X10_same_root_name_witness :
  ∃ w2,
    render echoIncludes taggedOnly (tagAsPost goTag) [] emptyConfig goTag siteWorld
    = Ok w2
    ∧ files w2 !! [str "go.html"] = Some (os.File (str "<h1>go</h1>")).
Proof.
  assert (isOk (w1 ← render echoIncludes taggedOnly (tagAsPost goTag) [] emptyConfig
                       (Tag.Build (str "rust") []) siteWorld;
                render echoIncludes taggedOnly (tagAsPost goTag) [] emptyConfig goTag
                  w1) = true) as Hok by (vm_compute; reflexivity).
  destruct (render echoIncludes taggedOnly (tagAsPost goTag) [] emptyConfig
              (Tag.Build (str "rust") []) siteWorld) as [w1|] eqn:H1;
    [|discriminate Hok].
  cbn [mbind result_bind] in Hok.
  destruct (render echoIncludes taggedOnly (tagAsPost goTag) [] emptyConfig goTag w1)
    as [w2|] eqn:H2; [|discriminate Hok].
  exists w2.
  pose proof (X10_same_root_name _ _ _ _ _ _ _ _ _ _ _ _ eq_refl H1 H2) as H.
  split; [exact H|].
  destruct (render_inv _ _ _ _ _ _ _ _ H) as (templ & Hlayout & _ & Hwrite).
  apply WriteFile_inv in Hwrite as (-> & _ & _).
  injection Hlayout as <-. apply lookup_insert_eq.
Defined.

(** ** The pages of the tags *)

Section tag_page_facts.
Context (ExecuteTemplate : bytes → IncludesContent → bytes).
Context (layouts : bytes → option (LayoutContent → bytes)).

(** A file stays a file while the tag pages are rendered. *)
Lemma renderTags_keeps (cfg : Config.t) (tags : list Tag.t) (w w' : World)
    (k : list bytes) :
  renderTags ExecuteTemplate layouts cfg tags w = Ok w' →
  (∃ content, files w !! k = Some (os.File content)) →
  ∃ content, files w' !! k = Some (os.File content).
Proof.
  revert w. induction tags as [|t tags IH]; intros w; cbn [renderTags].
  - by intros [= ->].
  - destruct (tree.MkdirAll (files w) _) as [fs|] eqn:Emk; [|done].
    cbn [wrap mbind result_bind].
    destruct (render _ _ (tagAsPost t) _ cfg t _) as [w1|] eqn:Hrender; [|done].
    cbn [wrap mbind result_bind]. intros Hrun [content Hk]. apply (IH _ Hrun).
    destruct (render_inv _ _ _ _ _ _ _ _ Hrender) as (templ & _ & _ & Hwrite).
    apply WriteFile_inv in Hwrite as (-> & _ & _). cbn [files].
    destruct (decide (k = filepath.elements
                            (filepath.Join [filepath.Join [SITE_DIR; str "tagged"; Tag.Slug t];
                                            Post.RootName (tagAsPost t) ++ str ".html"])))
      as [->|Hne].
    + rewrite lookup_insert_eq. by eexists.
    + rewrite lookup_insert_ne by done. exists content.
      by eapply mkdirFrom_mono.
Qed.

End tag_page_facts.



(** ** Parsing a post *)

Section parse_facts.
Context (assignPost : json.value → option Post.t).
Context (Parse : bytes → ast.Node).
Context (defaultRenderNode : ast.Node → bool → bytes).

(** The post [parse] makes of a document whose frontmatter is a JSON
    text. *)
Lemma parse_decoded (fs : os.FS) (path raw body : bytes) (m : Post.t) :
  fs !! filepath.elements path = Some (os.File (document raw body)) →
  json.Unmarshal assignPost raw = Ok m →
  Forall short (filepath.splitOn LF raw) →
  Forall short (filepath.splitOn LF body) →
  parse assignPost Parse defaultRenderNode fs path
  = Ok (Post.Build
          (concat (map (λ l, bufio.dropCR l ++ [LF]) (lines body)))
          (mdToHTML Parse defaultRenderNode
             (concat (map (λ l, bufio.dropCR l ++ [LF]) (lines body))))
          (Post.Layout m) (Post.Title m) (Post.Date m) (Post.Description m)
          (Post.Tags m) (rootName path)).
Proof.
  intros Hfile Hm Hraw Hbody. unfold parse.
  unfold json.Unmarshal in Hm.
  destruct (json.parse raw) as [v|] eqn:Hv; [|done].
  rewrite (readFull_file _ _ _ Hfile).
  rewrite decode_document; [|done|done|by eapply json_no_boundary].
  cbn [wrap mbind result_bind]. unfold json.Unmarshal.
  rewrite (parse_stripped _ _ _ (stripped_lines raw) Hv).
  destruct (assignPost v) as [m'|]; [|done]. by simplify_eq.
Qed.

End parse_facts.

(** X12. Of a document whose frontmatter is a JSON text for a post,
    [parse] makes the post of the metadata with three fields set from the
    file instead: the markdown is the body, the HTML is the body rendered,
    and the root name is that of the path, whatever the metadata held for
    them. *)
Theorem X12_parse_document
    (assignPost : json.value → option Post.t) (Parse : bytes → ast.Node)
    (defaultRenderNode : ast.Node → bool → bytes)
    (fs : os.FS) (path raw body : bytes) (m : Post.t) :
  fs !! filepath.elements path = Some (os.File (document raw body)) →
  json.Unmarshal assignPost raw = Ok m →
  Forall short (filepath.splitOn LF raw) →
  Forall short (filepath.splitOn LF body) →
  CR ∉ body →
  parse assignPost Parse defaultRenderNode fs path
  = Ok (Post.Build (endedByLF body)
          (mdToHTML Parse defaultRenderNode (endedByLF body))
          (Post.Layout m) (Post.Title m) (Post.Date m) (Post.Description m)
          (Post.Tags m) (rootName path)).
Proof.
  intros Hfile Hm Hraw Hbody Hcr.
  rewrite (parse_decoded _ _ _ _ _ _ _ _ Hfile Hm Hraw Hbody).
  by rewrite lines_verbatim.
Qed.

Lemma X12_parse_document_witness :
  parse titled fencedOnly tagNames exampleTree (str "post.md")
  = Ok (Post.Build (str "Body text" ++ [LF])
          (str "<p>" ++ str "Body text" ++ [LF] ++ str "</p>")
          [] (str "A") [] [] [] (str "post")).
Proof.
  apply (X12_parse_document titled fencedOnly tagNames exampleTree (str "post.md")
           titleA (str "Body text" ++ [LF])
           (Post.Build (str "stale") [] [] (str "A") [] [] [] (str "other"))).
  - apply lookup_postmd.
  - by vm_compute.
  - repeat constructor.
  - repeat constructor.
  - apply (bool_decide_unpack _). by vm_compute.
Defined.

(** ** The command [post] *)

Lemma elements_posts : filepath.elements (str "posts") = [str "posts"].
Proof. by vm_compute. Qed.

Lemma elements_tags : filepath.elements (str "tags") = [str "tags"].
Proof. by vm_compute. Qed.

(** A name with an extension, neither holding a separator, is one
    element. *)
Lemma elements_file (name ext : bytes) :
  filepath.Separator ∉ name → filepath.Separator ∉ ext → 2 ≤ length ext →
  filepath.elements (name ++ ext) = [name ++ ext].
Proof.
  intros Hname Hext Hlen. apply elements_name.
  - by intros [?|?]%elem_of_app.
  - intros Heq. apply (f_equal length) in Heq. rewrite length_app in Heq.
    simpl in Heq. lia.
  - intros Heq. apply (f_equal length) in Heq. rewrite length_app in Heq.
    change (length (str ".")) with 1 in Heq. lia.
Qed.

Lemma ReplaceAll_no_sep (s : bytes) :
  filepath.Separator ∉ s →
  filepath.Separator ∉ strings.ReplaceAll s " "%char "_"%char.
Proof.
  intros Hs Hin. apply Hs. unfold strings.ReplaceAll in Hin.
  apply list_elem_of_fmap in Hin as (c & Hc & Hin).
  case_decide; [done|]. by subst.
Qed.

Lemma elements_post_path (filename : bytes) :
  filepath.Separator ∉ filename →
  filepath.elements (filepath.Join [MARKDOWN_DIR; str "posts"; filename ++ str ".md"])
  = [MARKDOWN_DIR; str "posts"; filename ++ str ".md"].
Proof.
  intros Hsep. rewrite elements_Join_all. cbn [map concat].
  rewrite elements_MARKDOWN_DIR, elements_posts.
  rewrite elements_file; [done|done| |simpl; lia].
  apply (bool_decide_unpack _). by vm_compute.
Qed.

Lemma parentOk_three (fs : os.FS) (a b c : bytes) :
  os.parentOk fs [a; b; c] = true ↔ fs !! [a; b] = Some os.Dir.
Proof.
  unfold os.parentOk. cbn [removelast].
  destruct (fs !! [a; b]) as [[content|]|]; split; done.
Qed.

Lemma addFrontmatter_inv (fs fs' : os.FS) (path data : bytes) :
  addFrontmatter fs path data = Ok fs' →
  fs' = <[filepath.elements path := os.File (document data [])]> fs
  ∧ os.parentOk fs (filepath.elements path) = true
  ∧ fs !! filepath.elements path ≠ Some os.Dir.
Proof.
  unfold addFrontmatter. intros Hadd.
  destruct (os.WriteFile _ _ _) as [fs1|] eqn:Hwrite; [|done].
  injection Hadd as <-. apply WriteFile_inv in Hwrite as (-> & ? & ?).
  unfold document. by rewrite <- !app_assoc.
Qed.

Lemma addFrontmatter_ok (fs : os.FS) (path data : bytes) :
  os.parentOk fs (filepath.elements path) = true →
  fs !! filepath.elements path ≠ Some os.Dir →
  addFrontmatter fs path data
  = Ok (<[filepath.elements path := os.File (document data [])]> fs).
Proof.
  intros Hparent Hdir. unfold addFrontmatter. rewrite WriteFile_ok by done.
  unfold document. by rewrite <- !app_assoc.
Qed.


Lemma postsTree_posts : postsTree !! [MARKDOWN_DIR; str "posts"] = Some os.Dir.
Proof.
  unfold postsTree. rewrite lookup_insert_ne by discriminate. apply lookup_insert_eq.
Qed.

Lemma postsTree_tags : postsTree !! [MARKDOWN_DIR; str "tags"] = Some os.Dir.
Proof.
  unfold postsTree. rewrite !lookup_insert_ne by discriminate.
  apply lookup_singleton_eq.
Qed.

Lemma postsTree_file (dir name : bytes) :
  postsTree !! [MARKDOWN_DIR; dir; name] = None.
Proof.
  unfold postsTree. rewrite !lookup_insert_ne by discriminate.
  apply lookup_singleton_ne. discriminate.
Qed.


Lemma beforeFirstDot_app (name rest : bytes) :
  beforeFirstDot (name ++ "."%char :: rest) = beforeFirstDot name.
Proof.
  induction name as [|c name IH]; [done|].
  cbn [app beforeFirstDot]. case_decide; [done|]. by rewrite IH.
Qed.

(** X14. The root name of the file [initPost] makes for a title without a
    separator is the title, underscores for its spaces, up to its first
    dot: the whole of it when the title holds no dot. *)
Theorem X14_initPost_rootName (title : bytes) :
  filepath.Separator ∉ title →
  rootName (filepath.Join [MARKDOWN_DIR; str "posts";
                           strings.ReplaceAll title " "%char "_"%char ++ str ".md"])
  = beforeFirstDot (strings.ReplaceAll title " "%char "_"%char)
  ∧ ("."%char ∉ title →
     beforeFirstDot (strings.ReplaceAll title " "%char "_"%char)
     = strings.ReplaceAll title " "%char "_"%char).
Proof.
  intros Hsep. split.
  - rewrite rootName_Split.
    assert (filepath.Join [MARKDOWN_DIR; str "posts";
                           strings.ReplaceAll title " "%char "_"%char ++ str ".md"]
            = str "markdown/posts" ++ filepath.Separator
                :: (strings.ReplaceAll title " "%char "_"%char ++ str ".md")) as ->.
    { unfold filepath.Join. rewrite !filter_cons, filter_nil.
      rewrite decide_True by done. rewrite decide_True by done.
      rewrite decide_True by (by destruct (strings.ReplaceAll _ _ _)). done. }
    destruct (Split_file (str "markdown/posts")
                (strings.ReplaceAll title " "%char "_"%char ++ str ".md")) as [-> _].
    + intros [?|?]%elem_of_app; [by eapply ReplaceAll_no_sep|].
      revert H. apply (bool_decide_unpack _). by vm_compute.
    + apply beforeFirstDot_app.
  - intros Hdot. apply beforeFirstDot_id. intros Hin.
    apply list_elem_of_fmap in Hin as (c & Hc & Hin).
    case_decide; [done|]. by subst.
Qed.

Lemma X14_initPost_rootName_witness :
  rootName (filepath.Join [MARKDOWN_DIR; str "posts";
                           strings.ReplaceAll (str "v1.2 notes") " "%char "_"%char
                           ++ str ".md"])
  = str "v1".
Proof.
  assert (filepath.Separator ∉ str "v1.2 notes") as Hsep
    by (apply (bool_decide_unpack _); vm_compute; reflexivity).
  exact (proj1 (X14_initPost_rootName (str "v1.2 notes") Hsep)).
Defined.

(** X15. A post made by [initPost] parses: when the marshalled metadata
    is a JSON text for a post, with lines that fit the scanner's buffer,
    [parse] of the new file gives that post with an empty markdown, the
    rendering of the empty text and the root name of the file. *)
Theorem X15_initPost_parse
    (marshalPost : Post.t → bytes) (assignPost : json.value → option Post.t)
    (Parse : bytes → ast.Node) (defaultRenderNode : ast.Node → bool → bytes)
    (now : time.Time) (title : bytes) (tags : list bytes) (fs fs' : os.FS)
    (m : Post.t) :
  initPost marshalPost now title tags fs = Done fs' →
  json.Unmarshal assignPost
    (marshalPost (Post.Build [] [] [] title (formatDate now) [] tags [])) = Ok m →
  Forall short
    (filepath.splitOn LF
       (marshalPost (Post.Build [] [] [] title (formatDate now) [] tags []))) →
  parse assignPost Parse defaultRenderNode fs'
    (filepath.Join [MARKDOWN_DIR; str "posts";
                    strings.ReplaceAll title " "%char "_"%char ++ str ".md"])
  = Ok (Post.Build [] (mdToHTML Parse defaultRenderNode [])
          (Post.Layout m) (Post.Title m) (Post.Date m) (Post.Description m)
          (Post.Tags m)
          (rootName (filepath.Join
                       [MARKDOWN_DIR; str "posts";
                        strings.ReplaceAll title " "%char "_"%char ++ str ".md"]))).
Proof.
  unfold initPost. case_decide as Htitle; [done|].
  destruct (addFrontmatter _ _ _) as [fs1|] eqn:Hadd; [|done].
  intros [= <-] Hm Hshort. apply addFrontmatter_inv in Hadd as (-> & _ & _).
  rewrite (parse_decoded _ _ _ _ _ _ [] m (lookup_insert_eq _ _ _) Hm Hshort);
    [done|]. by repeat constructor.
Qed.

Example initPost_demo :
  initPost (λ _, titleA) feb21 (str "My first post") [] postsTree
  = Done (<[ [MARKDOWN_DIR; str "posts"; str "My_first_post" ++ str ".md"]
             := os.File (document titleA []) ]> postsTree).
Proof.
  unfold initPost. rewrite decide_False by discriminate.
  change (strings.ReplaceAll (str "My first post") " "%char "_"%char)
    with (str "My_first_post").
  assert (filepath.Separator ∉ str "My_first_post") as Hsep
    by (apply (bool_decide_unpack _); vm_compute; reflexivity).
  rewrite addFrontmatter_ok; rewrite (elements_post_path _ Hsep).
  - done.
  - apply parentOk_three, postsTree_posts.
  - by rewrite postsTree_file.
Qed.

Lemma X15_initPost_parse_witness :
  ∃ fs',
    initPost (λ _, titleA) feb21 (str "My first post") [] postsTree = Done fs'
    ∧ parse titled fencedOnly tagNames fs'
        (filepath.Join [MARKDOWN_DIR; str "posts";
                        strings.ReplaceAll (str "My first post") " "%char "_"%char
                        ++ str ".md"])
      = Ok (Post.Build [] (str "<p></p>") [] (str "A") [] [] [] (str "My_first_post")).
Proof.
  eexists. split; [exact initPost_demo|].
  assert (json.Unmarshal titled titleA
          = Ok (Post.Build (str "stale") [] [] (str "A") [] [] [] (str "other")))
    as Hm by (vm_compute; reflexivity).
  assert (Forall short (filepath.splitOn LF titleA)) as Hshort
    by repeat constructor.
  rewrite (X15_initPost_parse (λ _, titleA) titled fencedOnly tagNames feb21
             (str "My first post") [] postsTree _ _ initPost_demo Hm Hshort).
  by vm_compute.
Defined.

(** ** The command [init] *)

Lemma take_prefixes2 (i : nat) (a b : bytes) :
  0 < i ≤ 2 → take i [a; b] ∈ [[a]; [a; b]].
Proof.
  intros Hi. destruct i as [|[|[|i]]]; [lia| | |lia]; cbn [take].
  - by left.
  - right. by left.
Qed.

Lemma take_prefixes3 (i : nat) (a b c : bytes) :
  0 < i ≤ 3 → take i [a; b; c] ∈ [[a]; [a; b]; [a; b; c]].
Proof.
  intros Hi. destruct i as [|[|[|[|i]]]]; [lia| | | |lia]; cbn [take].
  - by left.
  - right. by left.
  - right. right. by left.
Qed.

Section init_facts.
Context (marshalConfig : Config.t → bytes).
Context (marshalPost : Post.t → bytes).

(** The steps of [initDirs], one after the other. *)
Lemma initDirs_inv (fs fs' : os.FS) :
  initDirs marshalConfig marshalPost fs = Ok fs' →
  ∃ fs1 fs2 fs3,
    tree.mkdirFrom (filepath.Join [MARKDOWN_DIR; str "posts"]) []
      [MARKDOWN_DIR; str "posts"] fs = Ok fs1
    ∧ tree.mkdirFrom (filepath.Join [MARKDOWN_DIR; str "tags"]) []
        [MARKDOWN_DIR; str "tags"] fs1 = Ok fs2
    ∧ tree.mkdirFrom (filepath.Join [MARKDOWN_DIR; str "assets"; str "images"]) []
        [MARKDOWN_DIR; str "assets"; str "images"] fs2 = Ok fs3
    ∧ fs' = <[ [CONFIG_FILE] := os.File (marshalConfig sampleCfg) ]>
              (<[ [MARKDOWN_DIR; BLOG_FILE]
                  := os.File (document (marshalPost blogPost) []) ]>
                 (<[ [MARKDOWN_DIR; INDEX_FILE]
                     := os.File (document (marshalPost indexPost) []) ]> fs3)).
Proof.
  unfold initDirs, tree.MkdirAll.
  change (filepath.elements (filepath.Join [MARKDOWN_DIR; str "posts"]))
    with [MARKDOWN_DIR; str "posts"].
  change (filepath.elements (filepath.Join [MARKDOWN_DIR; str "tags"]))
    with [MARKDOWN_DIR; str "tags"].
  change (filepath.elements (filepath.Join [MARKDOWN_DIR; str "assets"; str "images"]))
    with [MARKDOWN_DIR; str "assets"; str "images"].
  destruct (tree.mkdirFrom _ [] [MARKDOWN_DIR; str "posts"] fs) as [fs1|] eqn:E1;
    [|done].
  cbn [wrap mbind result_bind].
  destruct (tree.mkdirFrom _ [] [MARKDOWN_DIR; str "tags"] fs1) as [fs2|] eqn:E2;
    [|done].
  cbn [wrap mbind result_bind].
  destruct (tree.mkdirFrom _ [] [MARKDOWN_DIR; str "assets"; str "images"] fs2)
    as [fs3|] eqn:E3; [|done].
  cbn [wrap mbind result_bind].
  destruct (addFrontmatter fs3 _ _) as [fs4|] eqn:E4; [|done].
  cbn [wrap mbind result_bind].
  destruct (addFrontmatter fs4 _ _) as [fs5|] eqn:E5; [|done].
  cbn [wrap mbind result_bind].
  destruct (os.WriteFile fs5 _ _) as [fs6|] eqn:E6; [|done].
  cbn [wrap mbind result_bind].
  destruct (os.WriteFile fs6 _ _) as [fs7|] eqn:E7; [|done].
  cbn [wrap]. intros [= <-].
  apply addFrontmatter_inv in E4 as (-> & _ & _).
  apply addFrontmatter_inv in E5 as (-> & _ & _).
  apply WriteFile_inv in E6 as (-> & _ & _).
  apply WriteFile_inv in E7 as (-> & _ & _).
  exists fs1, fs2, fs3. do 3 (split; [done|]).
  change (filepath.elements CONFIG_FILE) with [CONFIG_FILE].
  change (filepath.elements (filepath.Join [MARKDOWN_DIR; INDEX_FILE]))
    with [MARKDOWN_DIR; INDEX_FILE].
  change (filepath.elements (filepath.Join [MARKDOWN_DIR; BLOG_FILE]))
    with [MARKDOWN_DIR; BLOG_FILE].
  by rewrite insert_insert_eq.
Qed.

End init_facts.

Lemma initFiles_not_directories (k : list bytes) :
  k ∈ initDirectories → k ∉ initFiles.
Proof.
  assert (Forall (λ d, d ∉ initFiles) initDirectories) as Hall.
  { apply (bool_decide_unpack _). by vm_compute. }
  rewrite Forall_forall in Hall. apply Hall.
Qed.

(** X16. When [initDirs] has succeeded, the directories [markdown],
    [markdown/posts], [markdown/tags], [markdown/assets] and
    [markdown/assets/images] exist, the files [markdown/index.md] and
    [markdown/blog.md] hold the sample frontmatter and no body, the file
    [config.json] holds the sample configuration, whatever the three files
    held before, and every other path is as it was: posts and tags that
    exist are kept. *)
Theorem X16_initDirs (marshalConfig : Config.t → bytes) (marshalPost : Post.t → bytes)
    (fs fs' : os.FS) :
  initDirs marshalConfig marshalPost fs = Ok fs' →
  (∀ d, d ∈ initDirectories → fs' !! d = Some os.Dir)
  ∧ fs' !! [MARKDOWN_DIR; INDEX_FILE]
    = Some (os.File (document (marshalPost indexPost) []))
  ∧ fs' !! [MARKDOWN_DIR; BLOG_FILE]
    = Some (os.File (document (marshalPost blogPost) []))
  ∧ fs' !! [CONFIG_FILE] = Some (os.File (marshalConfig sampleCfg))
  ∧ (∀ k, k ∉ initDirectories → k ∉ initFiles → fs' !! k = fs !! k).
Proof.
  intros Hinit.
  destruct (initDirs_inv _ _ _ _ Hinit) as (fs1 & fs2 & fs3 & E1 & E2 & E3 & ->).
  assert (∀ k, k ∉ initFiles →
            <[ [CONFIG_FILE] := os.File (marshalConfig sampleCfg) ]>
              (<[ [MARKDOWN_DIR; BLOG_FILE]
                  := os.File (document (marshalPost blogPost) []) ]>
                 (<[ [MARKDOWN_DIR; INDEX_FILE]
                     := os.File (document (marshalPost indexPost) []) ]> fs3)) !! k
            = fs3 !! k) as Hfiles.
  { intros k Hk. unfold initFiles in Hk. rewrite !not_elem_of_cons in Hk.
    destruct Hk as (? & ? & ? & _). by rewrite !lookup_insert_ne. }
  split; [|split; [|split; [|split]]].
  - intros d Hd. rewrite Hfiles by by apply initFiles_not_directories.
    unfold initDirectories in Hd.
    repeat (apply elem_of_cons in Hd as [->|Hd]); [| | | | |by apply elem_of_nil in Hd].
    + eapply mkdirFrom_mono; [done|]. eapply mkdirFrom_mono; [done|].
      apply (mkdirFrom_dirs _ _ _ _ _ 1 E1). simpl. lia.
    + eapply mkdirFrom_mono; [done|]. eapply mkdirFrom_mono; [done|].
      apply (mkdirFrom_dirs _ _ _ _ _ 2 E1). simpl. lia.
    + eapply mkdirFrom_mono; [done|].
      apply (mkdirFrom_dirs _ _ _ _ _ 2 E2). simpl. lia.
    + apply (mkdirFrom_dirs _ _ _ _ _ 2 E3). simpl. lia.
    + apply (mkdirFrom_dirs _ _ _ _ _ 3 E3). simpl. lia.
  - rewrite lookup_insert_ne by (intros H; vm_compute in H; discriminate H).
    rewrite lookup_insert_ne by (intros H; vm_compute in H; discriminate H).
    apply lookup_insert_eq.
  - rewrite lookup_insert_ne by (intros H; vm_compute in H; discriminate H).
    apply lookup_insert_eq.
  - apply lookup_insert_eq.
  - intros k Hdirs Hk. rewrite Hfiles by done.
    unfold initDirectories in Hdirs. rewrite !not_elem_of_cons in Hdirs.
    destruct Hdirs as (? & ? & ? & ? & ? & _).
    destruct (mkdirFrom_only _ _ _ _ _ k E3) as [->|(_ & _ & i & Hi & ->)].
    + destruct (mkdirFrom_only _ _ _ _ _ k E2) as [->|(_ & _ & i & Hi & ->)].
      * destruct (mkdirFrom_only _ _ _ _ _ k E1) as [->|(_ & _ & i & Hi & ->)]; [done|].
        exfalso. rewrite app_nil_l in *.
        pose proof (take_prefixes2 i MARKDOWN_DIR (str "posts") Hi) as Hin.
        repeat (apply elem_of_cons in Hin as [Hin|Hin]); [congruence..|].
        by apply elem_of_nil in Hin.
      * exfalso. rewrite app_nil_l in *.
        pose proof (take_prefixes2 i MARKDOWN_DIR (str "tags") Hi) as Hin.
        repeat (apply elem_of_cons in Hin as [Hin|Hin]); [congruence..|].
        by apply elem_of_nil in Hin.
    + exfalso. rewrite app_nil_l in *.
      pose proof (take_prefixes3 i MARKDOWN_DIR (str "assets") (str "images") Hi) as Hin.
      repeat (apply elem_of_cons in Hin as [Hin|Hin]); [congruence..|].
      by apply elem_of_nil in Hin.
Qed.

Lemma X16_initDirs_witness :
  ∃ fs',
    initDirs (λ _, str "{}") (λ _, titleA) userTree = Ok fs'
    ∧ fs' !! [MARKDOWN_DIR; INDEX_FILE] = Some (os.File (document titleA []))
    ∧ fs' !! [MARKDOWN_DIR; str "posts"; str "a.md"] = Some (os.File (str "kept")).
Proof.
  assert (isOk (initDirs (λ _, str "{}") (λ _, titleA) userTree) = true) as Hok
    by (vm_compute; reflexivity).
  destruct (initDirs (λ _, str "{}") (λ _, titleA) userTree) as [fs'|] eqn:Hinit;
    [|discriminate Hok].
  exists fs'. split; [reflexivity|].
  destruct (X16_initDirs _ _ _ _ Hinit) as (_ & Hindex & _ & _ & Hframe).
  split; [exact Hindex|].
  rewrite Hframe.
  - unfold userTree. rewrite !lookup_insert_ne by discriminate.
    apply lookup_singleton_eq.
  - apply (bool_decide_unpack _). vm_compute. reflexivity.
  - apply (bool_decide_unpack _). vm_compute. reflexivity.
Defined.

(** ** The command [tag] *)

Lemma elements_tag_path (filename : bytes) :
  filepath.Separator ∉ filename →
  filepath.elements (filepath.Join [MARKDOWN_DIR; str "tags"; filename ++ str ".json"])
  = [MARKDOWN_DIR; str "tags"; filename ++ str ".json"].
Proof.
  intros Hsep. rewrite elements_Join_all. cbn [map concat].
  rewrite elements_MARKDOWN_DIR, elements_tags.
  rewrite elements_file; [done|done| |simpl; lia].
  apply (bool_decide_unpack _). by vm_compute.
Qed.

Section tag_command_facts.
Context (marshalTag : Tag.t → bytes).
Context (ToLower : bytes → bytes).

(** The tree after [createTag]: one write for each tag, in order. *)
Lemma createTag_inv (tags : list bytes) (fs fs' : os.FS) :
  Forall (λ t, filepath.Separator ∉ ToLower t) tags →
  createTag marshalTag ToLower tags fs = Ok fs' →
  fs' = foldl (λ (acc : os.FS) (t : bytes),
                 <[ [MARKDOWN_DIR; str "tags"; ToLower t ++ str ".json"]
                    := os.File (marshalTag (Tag.Build (ToLower t) [])) ]> acc)
              fs tags.
Proof.
  intros Hsep. revert fs. induction Hsep as [|t tags Ht _ IH]; intros fs; cbn [createTag].
  - by intros [= ->].
  - destruct (os.WriteFile _ _ _) as [fs1|] eqn:Hwrite; [|done].
    cbn [wrap mbind result_bind]. intros Hrest. rewrite (IH _ Hrest). cbn [foldl].
    apply WriteFile_inv in Hwrite as (-> & _ & _).
    by rewrite elements_tag_path.
Qed.

Lemma tag_files_other (tags : list bytes) (fs : os.FS) (k : list bytes) :
  Forall (λ t, k ≠ [MARKDOWN_DIR; str "tags"; ToLower t ++ str ".json"]) tags →
  foldl (λ (acc : os.FS) (t : bytes),
           <[ [MARKDOWN_DIR; str "tags"; ToLower t ++ str ".json"]
              := os.File (marshalTag (Tag.Build (ToLower t) [])) ]> acc)
        fs tags !! k
  = fs !! k.
Proof.
  intros Hk. revert fs. induction Hk as [|t tags Ht _ IH]; intros fs; [done|].
  cbn [foldl]. rewrite IH. by rewrite lookup_insert_ne.
Qed.

Lemma tag_files_lookup (tags : list bytes) (fs : os.FS) (t : bytes) :
  t ∈ tags →
  foldl (λ (acc : os.FS) (t : bytes),
           <[ [MARKDOWN_DIR; str "tags"; ToLower t ++ str ".json"]
              := os.File (marshalTag (Tag.Build (ToLower t) [])) ]> acc)
        fs tags !! [MARKDOWN_DIR; str "tags"; ToLower t ++ str ".json"]
  = Some (os.File (marshalTag (Tag.Build (ToLower t) []))).
Proof.
  revert t fs. induction tags as [|t' tags IH]; intros t fs Hin.
  - by apply elem_of_nil in Hin.
  - cbn [foldl]. destruct (decide (t ∈ tags)) as [Hlater|Hlast]; [by apply IH|].
    apply elem_of_cons in Hin as [->|Hin]; [|done].
    destruct (decide (Forall (λ t0, [MARKDOWN_DIR; str "tags"; ToLower t' ++ str ".json"]
                                    ≠ [MARKDOWN_DIR; str "tags"; ToLower t0 ++ str ".json"])
                        tags)) as [Hother|Hsame].
    + rewrite tag_files_other by done. apply lookup_insert_eq.
    + apply not_Forall_Exists in Hsame; [|apply _].
      apply Exists_exists in Hsame as (t0 & Hin0 & Heq). apply dec_stable in Heq.
      rewrite Heq. assert (ToLower t' = ToLower t0) as ->.
      { injection Heq as Heq. by apply app_inv_tail in Heq. }
      by apply IH.
Qed.

End tag_command_facts.

(** X17. When [createTag] has succeeded on tags whose lowercase form
    holds no separator, every tag has its file
    [markdown/tags/<lowercase tag>.json] with the marshalled tag of that
    slug and no layout, whatever the file held before, and every other
    path is as it was. *)
Theorem X17_createTag_files (marshalTag : Tag.t → bytes) (ToLower : bytes → bytes)
    (tags : list bytes) (fs fs' : os.FS) :
  Forall (λ t, filepath.Separator ∉ ToLower t) tags →
  createTag marshalTag ToLower tags fs = Ok fs' →
  (∀ t, t ∈ tags →
     fs' !! [MARKDOWN_DIR; str "tags"; ToLower t ++ str ".json"]
     = Some (os.File (marshalTag (Tag.Build (ToLower t) []))))
  ∧ (∀ k, (∀ t, t ∈ tags → k ≠ [MARKDOWN_DIR; str "tags"; ToLower t ++ str ".json"]) →
       fs' !! k = fs !! k).
Proof.
  intros Hsep Hcreate. rewrite (createTag_inv _ _ _ _ _ Hsep Hcreate). split.
  - intros t Hin. by apply tag_files_lookup.
  - intros k Hk. apply tag_files_other. by apply Forall_forall.
Qed.

Lemma X17_createTag_files_witness :
  ∃ fs',
    createTag (λ t, Tag.Slug t) id [str "go"; str "rust"] postsTree = Ok fs'
    ∧ fs' !! [MARKDOWN_DIR; str "tags"; str "go.json"] = Some (os.File (str "go")).
Proof.
  assert (isOk (createTag (λ t, Tag.Slug t) id [str "go"; str "rust"] postsTree) = true)
    as Hok by (vm_compute; reflexivity).
  destruct (createTag (λ t, Tag.Slug t) id [str "go"; str "rust"] postsTree)
    as [fs'|] eqn:Hcreate; [|discriminate Hok].
  exists fs'. split; [reflexivity|].
  assert (Forall (λ t, filepath.Separator ∉ id t) [str "go"; str "rust"]) as Hsep.
  { apply (bool_decide_unpack _). vm_compute. reflexivity. }
  apply (proj1 (X17_createTag_files _ _ _ _ _ Hsep Hcreate) (str "go")). by left.
Defined.

(** ** Listing a directory *)

Section glob_facts.
Import tree.

Lemma elem_of_insertSorted (x name : bytes) (sorted : list bytes) :
  x ∈ insertSorted name sorted ↔ x = name ∨ x ∈ sorted.
Proof.
  induction sorted as [|n sorted IH]; cbn [insertSorted].
  - rewrite list_elem_of_singleton, elem_of_nil. tauto.
  - destruct (lessEq name n).
    + by rewrite elem_of_cons.
    + rewrite !elem_of_cons, IH. tauto.
Qed.

Lemma elem_of_sorted (x : bytes) (names : list bytes) :
  x ∈ foldr insertSorted [] names ↔ x ∈ names.
Proof.
  induction names as [|n names IH]; cbn [foldr]; [done|].
  by rewrite elem_of_insertSorted, elem_of_cons, IH.
Qed.

(** The names [ReadDir] lists are the entries of the directory. *)
Lemma elem_of_ReadDir (fs : os.FS) (dir name : bytes) :
  name ∈ ReadDir fs dir ↔ is_Some (fs !! (filepath.elements dir ++ [name])).
Proof.
  unfold ReadDir. rewrite elem_of_sorted, list_elem_of_omap. split.
  - intros ([k n] & Hin & Hname). apply elem_of_map_to_list in Hin. cbn [fst] in Hname.
    destruct (reverse k) as [|name' parent] eqn:Hrev; [done|].
    case_decide as Hparent; [|done]. injection Hname as ->.
    exists n. rewrite <- Hparent, <- reverse_cons, <- Hrev, reverse_involutive. done.
  - intros [n Hn]. exists (filepath.elements dir ++ [name], n). split.
    + by apply elem_of_map_to_list.
    + cbn [fst]. rewrite reverse_app. cbn [reverse app].
      change (reverse [name]) with [name]. cbn [app].
      by rewrite reverse_involutive, decide_True.
Qed.

(** The names [Glob] lists are the entries of the directory that end with
    the suffix. *)
Lemma elem_of_Glob (fs : os.FS) (dir suffix name : bytes) :
  name ∈ Glob fs dir suffix
  ↔ suffix `suffix_of` name ∧ is_Some (fs !! (filepath.elements dir ++ [name])).
Proof. unfold Glob. by rewrite list_elem_of_filter, elem_of_ReadDir. Qed.

End glob_facts.

(** ** The collection of posts and tags *)

Section collection_facts.
Context (assignPost : json.value → option Post.t).
Context (Parse : bytes → ast.Node).
Context (defaultRenderNode : ast.Node → bool → bytes).
Context (assignTag : json.value → option Tag.t).

Local Abbreviation parse' := (parse assignPost Parse defaultRenderNode).
Local Abbreviation parsePosts' := (parsePosts assignPost Parse defaultRenderNode).


(** The loop over the tags reads and decodes each name, in order. *)
Lemma parseTags_spec (fs : os.FS) (dir : bytes) (names : list bytes)
    (acc tags : list Tag.t) :
  parseTags assignTag fs dir names acc = Ok tags
  ↔ ∃ new,
      Forall2 (λ name tag, ∃ data,
                 read fs (filepath.Join [dir; name]) = Ok data
                 ∧ json.Unmarshal assignTag data = Ok tag) names new
      ∧ tags = acc ++ new.
Proof.
  revert acc. induction names as [|name names IH]; intros acc; cbn [parseTags].
  - split.
    + intros [= ->]. exists []. split; [constructor|by rewrite app_nil_r].
    + intros (new & Hall & ->). apply Forall2_nil_inv_l in Hall as ->.
      by rewrite app_nil_r.
  - destruct (read fs (filepath.Join [dir; name])) as [data|e] eqn:Hread;
      cbn [wrap mbind result_bind].
    + destruct (json.Unmarshal assignTag data) as [tag|e] eqn:Htag;
        cbn [wrap mbind result_bind].
      * rewrite IH. split.
        -- intros (new & Hall & ->). exists (tag :: new).
           split; [constructor; eauto|]. by rewrite <- app_assoc.
        -- intros (new & Hall & ->).
           apply Forall2_cons_inv_l in Hall
             as (tag' & new' & (data' & Hdata & Htag') & Hall & ->).
           exists new'. split; [done|]. rewrite <- app_assoc.
           assert (tag = tag') as -> by congruence. done.
      * split; [done|]. intros (new & Hall & _).
        apply Forall2_cons_inv_l in Hall as (tag' & new' & (data' & Hdata & Htag') & _).
        congruence.
    + split; [done|]. intros (new & Hall & _).
      apply Forall2_cons_inv_l in Hall as (tag' & new' & (data' & Hdata & _) & _).
      congruence.
Qed.

End collection_facts.



Lemma elements_tag_read (filename : bytes) :
  filepath.Separator ∉ filename →
  filepath.elements (filepath.Join [tagsDir; filename ++ str ".json"])
  = [MARKDOWN_DIR; str "tags"; filename ++ str ".json"].
Proof.
  intros Hsep. rewrite elements_Join_all. cbn [map concat].
  change (filepath.elements tagsDir) with [MARKDOWN_DIR; str "tags"].
  rewrite elements_file; [done|done| |simpl; lia].
  apply (bool_decide_unpack _). by vm_compute.
Qed.

(** X20. Tags made by [createTag] are found by [generate]: when the
    marshalled form of each new tag decodes to that tag again and the
    lowercase tags hold no separator, the tags read from [markdown/tags]
    after [createTag] include, for every tag given, the tag with the
    lowercase slug and no layout. *)
Theorem X20_createTag_discoverTags
    (marshalTag : Tag.t → bytes) (ToLower : bytes → bytes)
    (assignTag : json.value → option Tag.t)
    (tags : list bytes) (fs fs' : os.FS) (cfg cfg' : Config.t) :
  Forall (λ t, filepath.Separator ∉ ToLower t) tags →
  Forall (λ t, json.Unmarshal assignTag (marshalTag (Tag.Build (ToLower t) []))
               = Ok (Tag.Build (ToLower t) [])) tags →
  createTag marshalTag ToLower tags fs = Ok fs' →
  discoverTags assignTag fs' cfg = Ok cfg' →
  ∀ t, t ∈ tags → Tag.Build (ToLower t) [] ∈ Config.Tags cfg'.
Proof.
  intros Hsep Hround Hcreate Hdiscover t Hin.
  rewrite (createTag_inv _ _ _ _ _ Hsep Hcreate) in Hdiscover.
  unfold discoverTags in Hdiscover. fold tagsDir in Hdiscover.
  destruct (parseTags _ _ tagsDir _ []) as [found|] eqn:Hloop; [|done].
  injection Hdiscover as <-. cbn [setTags Config.Tags].
  apply parseTags_spec in Hloop as (new & Hall & ->). rewrite app_nil_l.
  rewrite Forall_forall in Hsep. rewrite Forall_forall in Hround.
  assert (ToLower t ++ str ".json"
          ∈ tree.Glob
              (foldl (λ (acc : os.FS) (t : bytes),
                        <[ [MARKDOWN_DIR; str "tags"; ToLower t ++ str ".json"]
                           := os.File (marshalTag (Tag.Build (ToLower t) [])) ]> acc)
                 fs tags) tagsDir (str ".json")) as Hname.
  { apply elem_of_Glob. split; [by apply suffix_app_r|].
    change (filepath.elements tagsDir ++ [ToLower t ++ str ".json"])
      with [MARKDOWN_DIR; str "tags"; ToLower t ++ str ".json"].
    rewrite tag_files_lookup by done. by eexists. }
  apply list_elem_of_lookup in Hname as [i Hi].
  destruct (Forall2_lookup_l _ _ _ _ _ Hall Hi) as (tag & Htag & data & Hread & Hdata).
  apply (list_elem_of_lookup_2 _ i).
  unfold read, os.Open in Hread. rewrite elements_tag_read in Hread by by apply Hsep.
  rewrite tag_files_lookup in Hread by done.
  cbn [wrap mbind result_bind os.Read] in Hread. injection Hread as <-.
  rewrite (Hround _ Hin) in Hdata. by injection Hdata as <-.
Qed.

Lemma X20_createTag_discoverTags_witness :
  ∃ fs' cfg',
    createTag slugOnly id [str "go"] postsTree = Ok fs'
    ∧ discoverTags slugTag fs' emptyConfig = Ok cfg'
    ∧ Tag.Build (str "go") [] ∈ Config.Tags cfg'.
Proof.
  assert (isOk (fs' ← createTag slugOnly id [str "go"] postsTree;
                discoverTags slugTag fs' emptyConfig) = true) as Hok
    by (vm_compute; reflexivity).
  destruct (createTag slugOnly id [str "go"] postsTree) as [fs'|] eqn:Hcreate;
    [|discriminate Hok].
  cbn [mbind result_bind] in Hok.
  destruct (discoverTags slugTag fs' emptyConfig) as [cfg'|] eqn:Hdiscover;
    [|discriminate Hok].
  exists fs', cfg'. split; [reflexivity|]. split; [exact Hdiscover|].
  assert (Forall (λ t, filepath.Separator ∉ id t) [str "go"]) as Hsep.
  { apply (bool_decide_unpack _). vm_compute. reflexivity. }
  assert (Forall (λ t, json.Unmarshal slugTag (slugOnly (Tag.Build (id t) []))
                       = Ok (Tag.Build (id t) [])) [str "go"]) as Hround.
  { constructor; [|constructor]. vm_compute. reflexivity. }
  apply (X20_createTag_discoverTags slugOnly id slugTag [str "go"] postsTree fs'
           emptyConfig cfg' Hsep Hround Hcreate Hdiscover (str "go")).
  by left.
Defined.

(** ** The walk of the renderer *)

(** X21. [RenderNode] always goes on to the next node, so the walk of
    [mdToHTML] skips nothing and is never cut short: the HTML of a text is
    the output of the renderer for each node of its tree, entered and left
    in document order, with the wrapper of [renderCodeBlock] and the
    literal in the place of every code block, wherever it stands. *)
Theorem X21_mdToHTML_in_order (Parse : bytes → ast.Node)
    (defaultRenderNode : ast.Node → bool → bytes) (md : bytes) :
  mdToHTML Parse defaultRenderNode md = inOrder defaultRenderNode (Parse md)
  ∧ (∀ n, (ast.Walk (RenderNode defaultRenderNode) n).2 = ast.GoToNext).
Proof.
  assert (∀ n, ast.Walk (RenderNode defaultRenderNode) n
               = (inOrder defaultRenderNode n, ast.GoToNext)) as Hwalk.
  { fix IH 1. intros n.
    assert (∀ ns,
              (fix walkAll (ns : list ast.Node) : bytes * ast.WalkStatus :=
                 match ns with
                 | [] => ([], ast.GoToNext)
                 | c :: ns' =>
                     let '(out, status) := ast.Walk (RenderNode defaultRenderNode) c in
                     match status with
                     | ast.Terminate => (out, ast.Terminate)
                     | _ => let '(out', status') := walkAll ns' in (out ++ out', status')
                     end
                 end) ns
              = (concat (map (inOrder defaultRenderNode) ns), ast.GoToNext)) as Hall.
    { fix IHs 1. intros [|c ns]; [done|]. rewrite (IH c). by rewrite (IHs ns). }
    destruct n as [children|kind children|Literal|kind Literal];
      cbn [ast.Walk inOrder].
    - unfold ast.walkContainer. rewrite Hall.
      cbn [RenderNode myRenderHook]. by rewrite !app_nil_l.
    - unfold ast.walkContainer. rewrite Hall.
      cbn [RenderNode myRenderHook]. by rewrite !app_nil_l.
    - done.
    - done. }
  split.
  - unfold mdToHTML. by rewrite Hwalk.
  - intros n. by rewrite Hwalk.
Qed.

(** ** The whole of [generate] *)

Lemma under_site (parts : list bytes) :
  tree.under [SITE_DIR] (filepath.elements (filepath.Join (SITE_DIR :: parts))).
Proof.
  rewrite elements_Join_all. cbn [map concat]. rewrite elements_SITE_DIR.
  by apply prefix_app_r.
Qed.

Lemma under_site_file (parts : list bytes) (file : bytes) :
  tree.under [SITE_DIR]
    (filepath.elements (filepath.Join [filepath.Join (SITE_DIR :: parts); file])).
Proof.
  rewrite elements_Join_all. cbn [map concat].
  eapply prefix_app_r, under_site.
Qed.

Lemma under_site_root (file : bytes) :
  tree.under [SITE_DIR] (filepath.elements (filepath.Join [SITE_DIR; file])).
Proof. apply (under_site [file]). Qed.

Section generate_facts.
Context (assignConfig : json.value → option Config.t).
Context (assignPost : json.value → option Post.t).
Context (assignTag : json.value → option Tag.t).
Context (partialPost : json.value → Post.t).
Context (Parse : bytes → ast.Node).
Context (defaultRenderNode : ast.Node → bool → bytes).
Context (includesFilenames : list bytes).
Context (includesTemplates : option (bytes → IncludesContent → bytes)).
Context (layouts : bytes → option (LayoutContent → bytes)).
Context (assetsEFS : tree.Walk).
Context (ExecuteTemplate : bytes → IncludesContent → bytes).

Local Abbreviation parse' := (parse assignPost Parse defaultRenderNode).
Local Abbreviation render' := (render ExecuteTemplate layouts).
Local Abbreviation renderSpecial' :=
  (renderSpecial assignPost partialPost Parse defaultRenderNode layouts ExecuteTemplate).
Local Abbreviation renderPosts' :=
  (renderPosts assignPost partialPost Parse defaultRenderNode layouts ExecuteTemplate).
Local Abbreviation renderTags' := (renderTags ExecuteTemplate layouts).
Local Abbreviation readSite' :=
  (readSite assignConfig assignPost assignTag Parse defaultRenderNode assetsEFS).
Local Abbreviation generate' :=
  (generate assignConfig assignPost assignTag partialPost Parse defaultRenderNode
     includesFilenames includesTemplates layouts assetsEFS).

(** [render] writes its page and nothing else. *)
Lemma render_other (post : Post.t) (destDir : bytes) (cfg : Config.t) (tag : Tag.t)
    (w w' : World) (k : list bytes) :
  render' post destDir cfg tag w = Ok w' →
  k ≠ filepath.elements (filepath.Join [destDir; Post.RootName post ++ str ".html"]) →
  files w' !! k = files w !! k.
Proof.
  intros Hrender Hk.
  destruct (render_inv _ _ _ _ _ _ _ _ Hrender) as (templ & _ & _ & Hwrite).
  apply WriteFile_inv in Hwrite as (-> & _ & _). by rewrite lookup_insert_ne.
Qed.

Lemma render_page (post : Post.t) (destDir : bytes) (cfg : Config.t) (tag : Tag.t)
    (w w' : World) :
  render' post destDir cfg tag w = Ok w' →
  ∃ content,
    files w' !! filepath.elements
                  (filepath.Join [destDir; Post.RootName post ++ str ".html"])
    = Some (os.File content).
Proof.
  intros Hrender.
  destruct (render_inv _ _ _ _ _ _ _ _ Hrender) as (templ & _ & _ & Hwrite).
  apply WriteFile_inv in Hwrite as (-> & _ & _). eexists. apply lookup_insert_eq.
Qed.

(** The steps of the three rendering loops. *)
Lemma renderSpecial_cons (cfg : Config.t) (name : bytes) (rest : list bytes)
    (w w' : World) :
  renderSpecial' cfg (name :: rest) w = Ok w' →
  ∃ post w1,
    parse' (files w) (filepath.Join [MARKDOWN_DIR; name]) = Ok post
    ∧ render' (if decide (name = INDEX_FILE) then withLayout post (str "default")
               else if decide (name = BLOG_FILE) then withLayout post (str "blog")
               else post)
        SITE_DIR cfg (Tag.Build [] []) w = Ok w1
    ∧ renderSpecial' cfg rest w1 = Ok w'.
Proof.
  cbn [renderSpecial].
  destruct (parse' (files w) _) as [post|]; [|done].
  destruct (render' _ SITE_DIR cfg _ w) as [w1|] eqn:Hrender; [|done].
  cbn [wrap mbind result_bind]. intros Hrest. by exists post, w1.
Qed.

Lemma renderPosts_cons (cfg : Config.t) (postsDir name : bytes) (rest : list bytes)
    (w w' : World) :
  renderPosts' cfg postsDir (name :: rest) w = Ok w' →
  ∃ post w1,
    parse' (files w) (filepath.Join [postsDir; name]) = Ok post
    ∧ render' (withLayout post (str "post")) (filepath.Join [SITE_DIR; str "blog"])
        cfg (Tag.Build [] []) w = Ok w1
    ∧ renderPosts' cfg postsDir rest w1 = Ok w'.
Proof.
  cbn [renderPosts].
  destruct (parse' (files w) _) as [post|]; [|done].
  destruct (render' _ _ cfg _ w) as [w1|] eqn:Hrender; [|done].
  cbn [wrap mbind result_bind]. intros Hrest. by exists post, w1.
Qed.

Lemma renderTags_cons (cfg : Config.t) (t : Tag.t) (rest : list Tag.t) (w w' : World) :
  renderTags' cfg (t :: rest) w = Ok w' →
  ∃ fs w1,
    tree.MkdirAll (files w) (filepath.Join [SITE_DIR; str "tagged"; Tag.Slug t]) = Ok fs
    ∧ render' (tagAsPost t) (filepath.Join [SITE_DIR; str "tagged"; Tag.Slug t]) cfg t
        {| files := fs; includesRender := includesRender w |} = Ok w1
    ∧ renderTags' cfg rest w1 = Ok w'.
Proof.
  cbn [renderTags].
  destruct (tree.MkdirAll (files w) _) as [fs|] eqn:Emk; [|done].
  cbn [wrap mbind result_bind].
  destruct (render' (tagAsPost t) _ cfg t _) as [w1|] eqn:Hrender; [|done].
  cbn [wrap mbind result_bind]. intros Hrest. by exists fs, w1.
Qed.

(** The three loops write below the site directory only. *)
Lemma renderSpecial_outside (cfg : Config.t) (names : list bytes) (w w' : World)
    (k : list bytes) :
  renderSpecial' cfg names w = Ok w' →
  ¬ tree.under [SITE_DIR] k → files w' !! k = files w !! k.
Proof.
  intros Hrun Hk. revert w Hrun. induction names as [|name names IH]; intros w Hrun.
  - cbn [renderSpecial] in Hrun. by injection Hrun as <-.
  - apply renderSpecial_cons in Hrun as (post & w1 & _ & Hrender & Hrest).
    rewrite (IH _ Hrest). apply (render_other _ _ _ _ _ _ _ Hrender).
    intros ->. apply Hk, under_site_root.
Qed.

Lemma renderPosts_outside (cfg : Config.t) (postsDir : bytes) (names : list bytes)
    (w w' : World) (k : list bytes) :
  renderPosts' cfg postsDir names w = Ok w' →
  ¬ tree.under [SITE_DIR] k → files w' !! k = files w !! k.
Proof.
  intros Hrun Hk. revert w Hrun. induction names as [|name names IH]; intros w Hrun.
  - cbn [renderPosts] in Hrun. by injection Hrun as <-.
  - apply renderPosts_cons in Hrun as (post & w1 & _ & Hrender & Hrest).
    rewrite (IH _ Hrest). apply (render_other _ _ _ _ _ _ _ Hrender).
    intros ->. apply Hk, under_site_file.
Qed.

Lemma renderTags_outside (cfg : Config.t) (tags : list Tag.t) (w w' : World)
    (k : list bytes) :
  renderTags' cfg tags w = Ok w' →
  ¬ tree.under [SITE_DIR] k → files w' !! k = files w !! k.
Proof.
  intros Hrun Hk. revert w Hrun. induction tags as [|t tags IH]; intros w Hrun.
  - cbn [renderTags] in Hrun. by injection Hrun as <-.
  - apply renderTags_cons in Hrun as (fs & w1 & Hmk & Hrender & Hrest).
    rewrite (IH _ Hrest).
    rewrite (render_other _ _ _ _ _ _ _ Hrender)
      by (intros ->; apply Hk, under_site_file).
    cbn [files]. unfold tree.MkdirAll in Hmk.
    eapply mkdirFrom_outside; [done| |done].
    pose proof (under_site [str "tagged"; Tag.Slug t]) as Hu.
    destruct (filepath.elements _) as [|e rest]; [done|].
    destruct Hu as [tl Htl]. injection Htl as -> _. by exists [].
Qed.

(** The steps of [readSite]. *)
Lemma readSite_inv (fs fs2 : os.FS) (cfg : Config.t) :
  readSite' fs = Ok (fs2, cfg) →
  ∃ fs1 fsys f cfgRaw cfg0 cfg1,
    reset assetsEFS fs = Ok fs1
    ∧ dirfs.WalkDir fs1 (filepath.Join [MARKDOWN_DIR; ASSETS_DIR]) = Ok fsys
    ∧ tree.CopyFS fs1 SITE_DIR fsys = Ok fs2
    ∧ os.Open fs2 CONFIG_FILE = Ok f
    ∧ os.Read CONFIG_FILE f = Ok cfgRaw
    ∧ json.Unmarshal assignConfig cfgRaw = Ok cfg0
    ∧ discoverPosts assignPost Parse defaultRenderNode fs2 cfg0 = Ok cfg1
    ∧ discoverTags assignTag fs2 cfg1 = Ok cfg.
Proof.
  unfold readSite.
  destruct (reset assetsEFS fs) as [fs1|] eqn:E1; [|done].
  cbn [wrap mbind result_bind].
  destruct (dirfs.WalkDir fs1 _) as [fsys|] eqn:E2; [|done].
  cbn [wrap mbind result_bind].
  destruct (tree.CopyFS fs1 SITE_DIR fsys) as [fs2'|] eqn:E3; [|done].
  cbn [wrap mbind result_bind].
  destruct (os.Open fs2' CONFIG_FILE) as [f|] eqn:E4; [|done].
  cbn [wrap mbind result_bind].
  destruct (os.Read CONFIG_FILE f) as [cfgRaw|] eqn:E5; [|done].
  cbn [wrap mbind result_bind].
  destruct (json.Unmarshal assignConfig cfgRaw) as [cfg0|] eqn:E6; [|done].
  cbn [wrap mbind result_bind].
  destruct (discoverPosts _ _ _ fs2' cfg0) as [cfg1|] eqn:E7; [|done].
  cbn [mbind result_bind].
  destruct (discoverTags _ fs2' cfg1) as [cfg2|] eqn:E8; [|done].
  cbn [mbind result_bind]. intros [= <- <-].
  by exists fs1, fsys, f, cfgRaw, cfg0, cfg1.
Qed.

Lemma readSite_outside (fs fs2 : os.FS) (cfg : Config.t) (k : list bytes) :
  readSite' fs = Ok (fs2, cfg) →
  ¬ tree.under [SITE_DIR] k → fs2 !! k = fs !! k.
Proof.
  intros Hread Hk.
  destruct (readSite_inv _ _ _ Hread) as (fs1 & fsys & _ & _ & _ & _ & E1 & _ & E3 & _).
  rewrite (CopyFS_outside _ _ _ _ E3 Hk). by eapply reset_outside.
Qed.

End generate_facts.

Section generate_properties.
Context (assignConfig : json.value → option Config.t).
Context (assignPost : json.value → option Post.t).
Context (assignTag : json.value → option Tag.t).
Context (partialPost : json.value → Post.t).
Context (Parse : bytes → ast.Node).
Context (defaultRenderNode : ast.Node → bool → bytes).
Context (includesFilenames : list bytes).
Context (includesTemplates : option (bytes → IncludesContent → bytes)).
Context (layouts : bytes → option (LayoutContent → bytes)).
Context (assetsEFS : tree.Walk).

Local Abbreviation parse' := (parse assignPost Parse defaultRenderNode).
Local Abbreviation readSite' :=
  (readSite assignConfig assignPost assignTag Parse defaultRenderNode assetsEFS).
Local Abbreviation generate' :=
  (generate assignConfig assignPost assignTag partialPost Parse defaultRenderNode
     includesFilenames includesTemplates layouts assetsEFS).

(** The steps of a run of [generate] that succeeds. *)
Lemma generate_inv (w w' : World) :
  generate' w = Returned (Ok w') →
  ∃ fs2 cfg ExecuteTemplate registered w1 w2,
    readSite' (files w) = Ok (fs2, cfg)
    ∧ includesTemplates = Some ExecuteTemplate
    ∧ registerIncludes includesFilenames (includesRender w) = Some registered
    ∧ renderSpecial assignPost partialPost Parse defaultRenderNode layouts
        ExecuteTemplate cfg [INDEX_FILE; BLOG_FILE]
        {| files := fs2; includesRender := registered |} = Ok w1
    ∧ renderPosts assignPost partialPost Parse defaultRenderNode layouts
        ExecuteTemplate cfg postsDir (tree.Glob (files w1) postsDir (str ".md")) w1
      = Ok w2
    ∧ renderTags ExecuteTemplate layouts cfg (Config.Tags cfg) w2 = Ok w'.
Proof.
  unfold generate, renderSite.
  destruct (readSite' (files w)) as [[fs2 cfg]|] eqn:Hread; [|done].
  destruct includesTemplates as [ExecuteTemplate|]; [|done].
  cbn [files includesRender].
  destruct (registerIncludes _ _) as [registered|]; [|done].
  destruct (renderSpecial _ _ _ _ _ _ cfg _ _) as [w1|] eqn:E1; [|done].
  cbn [mbind result_bind]. fold postsDir.
  destruct (renderPosts _ _ _ _ _ _ cfg postsDir _ w1) as [w2|] eqn:E2; [|done].
  cbn [mbind result_bind]. intros [= Hrun].
  by exists fs2, cfg, ExecuteTemplate, registered, w1, w2.
Qed.

(** X22. [generate] writes below the site directory only: when it has
    succeeded on a site whose tags have slugs without [..], every path of
    the tree that is not below [docs] is as it was. *)
Theorem X22_generate_outside (w w' : World) (fs2 : os.FS) (cfg : Config.t) :
  readSite' (files w) = Ok (fs2, cfg) →
  Forall (λ t, clean (Tag.Slug t)) (Config.Tags cfg) →
  generate' w = Returned (Ok w') →
  ∀ k, ¬ tree.under [SITE_DIR] k → files w' !! k = files w !! k.
Proof.
  intros Hread _ Hrun k Hk.
  destruct (generate_inv _ _ Hrun)
    as (fs2' & cfg' & ExecuteTemplate & registered & w1 & w2
        & Hread' & _ & _ & E1 & E2 & E3).
  transitivity (files w2 !! k); [by eapply renderTags_outside|].
  transitivity (files w1 !! k); [by eapply renderPosts_outside|].
  transitivity (fs2' !! k); [by eapply renderSpecial_outside in E1|].
  by eapply readSite_outside.
Qed.

End generate_properties.

Lemma siteTree_post :
  siteTree !! [str "markdown"; str "posts"; str "a.md"]
  = Some (os.File (document titleA (str "Body text" ++ [LF]))).
Proof.
  unfold siteTree.
  rewrite lookup_insert_ne by discriminate.
  rewrite lookup_insert_ne by discriminate.
  rewrite lookup_insert_ne by (intros H; vm_compute in H; discriminate H).
  rewrite lookup_insert_ne by discriminate.
  apply lookup_insert_eq.
Qed.

Lemma outside_site_markdown (rest : list bytes) :
  ¬ tree.under [SITE_DIR] (str "markdown" :: rest).
Proof. intros [tl Htl]. vm_compute in Htl. discriminate Htl. Qed.

Lemma X22_generate_outside_witness :
  ∃ w',
    generate anyConfig titled slugTag noPartial fencedOnly tagNames includeNames
      (Some echoIncludes) namedLayouts someAssets siteWorld0 = Returned (Ok w')
    ∧ files w' !! [str "markdown"; str "posts"; str "a.md"]
      = Some (os.File (document titleA (str "Body text" ++ [LF]))).
Proof.
  assert (match readSite anyConfig titled slugTag fencedOnly tagNames someAssets
                  siteTree with
          | Ok (_, cfg) => bool_decide (Forall (λ t, clean (Tag.Slug t)) (Config.Tags cfg))
          | Err _ => false
          end = true) as Hclean by (vm_compute; reflexivity).
  destruct (readSite anyConfig titled slugTag fencedOnly tagNames someAssets siteTree)
    as [[fs2 cfg]|] eqn:Hread; [|discriminate Hclean].
  apply bool_decide_eq_true in Hclean.
  assert (match generate anyConfig titled slugTag noPartial fencedOnly tagNames
                  includeNames (Some echoIncludes) namedLayouts someAssets siteWorld0 with
          | Returned (Ok _) => true
          | _ => false
          end = true) as Hok by (vm_compute; reflexivity).
  destruct (generate anyConfig titled slugTag noPartial fencedOnly tagNames includeNames
              (Some echoIncludes) namedLayouts someAssets siteWorld0)
    as [[w'|]|] eqn:Hrun; [|discriminate Hok..].
  exists w'. split; [reflexivity|].
  rewrite (X22_generate_outside anyConfig titled slugTag noPartial fencedOnly tagNames
             includeNames (Some echoIncludes) namedLayouts someAssets
             siteWorld0 w' fs2 cfg Hread Hclean Hrun).
  - exact siteTree_post.
  - apply outside_site_markdown.
Defined.

Section page_facts.
Context (assignPost : json.value → option Post.t).
Context (partialPost : json.value → Post.t).
Context (Parse : bytes → ast.Node).
Context (defaultRenderNode : ast.Node → bool → bytes).
Context (layouts : bytes → option (LayoutContent → bytes)).
Context (ExecuteTemplate : bytes → IncludesContent → bytes).

Local Abbreviation parse' := (parse assignPost Parse defaultRenderNode).
Local Abbreviation render' := (render ExecuteTemplate layouts).
Local Abbreviation renderPosts' :=
  (renderPosts assignPost partialPost Parse defaultRenderNode layouts ExecuteTemplate).
Local Abbreviation renderTags' := (renderTags ExecuteTemplate layouts).

(** [parse] reads the tree at its path only, and what it parses is a
    file named by its root name. *)
Lemma parse_ext (fs fs' : os.FS) (path : bytes) :
  fs' !! filepath.elements path = fs !! filepath.elements path →
  parse' fs' path = parse' fs path.
Proof. intros Heq. unfold parse, readFull, os.Open. by rewrite Heq. Qed.

Lemma parse_file (fs : os.FS) (path : bytes) (post : Post.t) :
  parse' fs path = Ok post →
  Post.RootName post = rootName path
  ∧ ∃ data, fs !! filepath.elements path = Some (os.File data).
Proof.
  unfold parse, readFull, os.Open.
  destruct (fs !! filepath.elements path) as [[data|]|]; [| done..].
  cbn [wrap mbind result_bind]. destruct (decode path _) as [[metadata markdown]|]; [|done].
  cbn [wrap mbind result_bind].
  destruct (json.Unmarshal assignPost metadata) as [m|]; [|done].
  cbn [wrap mbind result_bind]. intros [= <-]. split; [done|by eexists].
Qed.

Lemma rootName_no_sep (path : bytes) : filepath.Separator ∉ rootName path.
Proof.
  rewrite rootName_Split. intros Hin.
  apply (Split_clean path). by apply beforeFirstDot_clean.
Qed.

Lemma elements_page (dir : list bytes) (parts : list bytes) (root : bytes) :
  filepath.Separator ∉ root →
  filepath.elements (filepath.Join parts) = dir →
  filepath.elements (filepath.Join [filepath.Join parts; root ++ str ".html"])
  = dir ++ [root ++ str ".html"].
Proof.
  intros Hroot Hdir. rewrite elements_Join_all. cbn [map concat].
  rewrite Hdir, app_nil_r. f_equal.
  apply elements_file; [done| |simpl; lia].
  apply (bool_decide_unpack _). by vm_compute.
Qed.

Lemma elements_blog_page (root : bytes) :
  filepath.Separator ∉ root →
  filepath.elements
    (filepath.Join [filepath.Join [SITE_DIR; str "blog"]; root ++ str ".html"])
  = [SITE_DIR; str "blog"; root ++ str ".html"].
Proof. intros Hroot. by rewrite (elements_page [SITE_DIR; str "blog"]). Qed.

Lemma elements_site_page (root : bytes) :
  filepath.Separator ∉ root →
  filepath.elements (filepath.Join [SITE_DIR; root ++ str ".html"])
  = [SITE_DIR; root ++ str ".html"].
Proof.
  intros Hroot. rewrite elements_Join_all. cbn [map concat].
  rewrite elements_SITE_DIR, app_nil_r. cbn [app]. f_equal.
  apply elements_file; [done| |simpl; lia].
  apply (bool_decide_unpack _). by vm_compute.
Qed.

(** The loop over the posts writes into [docs/blog] only and leaves a page
    for each name. *)
Lemma renderPosts_keeps (cfg : Config.t) (postsDir : bytes) (names : list bytes)
    (w w' : World) (k : list bytes) :
  renderPosts' cfg postsDir names w = Ok w' →
  (∀ rest, k ≠ [SITE_DIR; str "blog"] ++ rest) →
  files w' !! k = files w !! k.
Proof.
  intros Hrun Hk. revert w Hrun. induction names as [|name names IH]; intros w Hrun.
  - cbn [renderPosts] in Hrun. by injection Hrun as <-.
  - apply renderPosts_cons in Hrun as (post & w1 & _ & Hrender & Hrest).
    rewrite (IH _ Hrest). eapply render_other; [exact Hrender|].
    rewrite elements_Join_all. cbn [map concat].
    rewrite elements_SITE_blog. apply Hk.
Qed.

Lemma renderPosts_file (cfg : Config.t) (postsDir : bytes) (names : list bytes)
    (w w' : World) (k : list bytes) :
  renderPosts' cfg postsDir names w = Ok w' →
  (∃ content, files w !! k = Some (os.File content)) →
  ∃ content, files w' !! k = Some (os.File content).
Proof.
  revert w. induction names as [|name names IH]; intros w Hrun Hk.
  - cbn [renderPosts] in Hrun. by injection Hrun as <-.
  - apply renderPosts_cons in Hrun as (post & w1 & _ & Hrender & Hrest).
    apply (IH _ Hrest).
    destruct (decide (k = filepath.elements
                            (filepath.Join [filepath.Join [SITE_DIR; str "blog"];
                                            Post.RootName (withLayout post (str "post"))
                                            ++ str ".html"]))) as [->|Hne].
    + by eapply render_page.
    + erewrite render_other; [exact Hk|exact Hrender|exact Hne].
Qed.

Lemma renderPosts_pages (cfg : Config.t) (postsDir : bytes) (names : list bytes)
    (w w' : World) (name : bytes) :
  renderPosts' cfg postsDir names w = Ok w' →
  name ∈ names →
  ∃ content,
    files w' !! [SITE_DIR; str "blog";
                 rootName (filepath.Join [postsDir; name]) ++ str ".html"]
    = Some (os.File content).
Proof.
  revert w. induction names as [|name' names IH]; intros w Hrun Hin.
  - by apply elem_of_nil in Hin.
  - apply renderPosts_cons in Hrun as (post & w1 & Hparse & Hrender & Hrest).
    apply elem_of_cons in Hin as [->|Hin]; [|by eapply IH].
    eapply renderPosts_file; [exact Hrest|].
    apply parse_file in Hparse as [Hroot _].
    destruct (render_page _ _ _ _ _ _ _ _ Hrender) as [content Hpage].
    cbn [withLayout Post.RootName] in Hpage. rewrite Hroot in Hpage.
    rewrite elements_blog_page in Hpage by apply rootName_no_sep. by exists content.
Qed.

(** The loop over the tags writes into [docs/tagged] only. *)
Lemma renderTags_other (cfg : Config.t) (tags : list Tag.t) (w w' : World)
    (k : list bytes) (n : os.node) :
  renderTags' cfg tags w = Ok w' →
  (∀ rest, k ≠ [SITE_DIR; str "tagged"] ++ rest) →
  files w !! k = Some n → files w' !! k = Some n.
Proof.
  intros Hrun Hk. revert w Hrun. induction tags as [|t tags IH]; intros w Hrun Hn.
  - cbn [renderTags] in Hrun. by injection Hrun as <-.
  - apply renderTags_cons in Hrun as (fs & w1 & Hmk & Hrender & Hrest).
    apply (IH _ Hrest).
    erewrite render_other; [|exact Hrender|].
    + cbn [files]. by eapply mkdirFrom_mono.
    + rewrite elements_Join_all. cbn [map concat].
      rewrite elements_Join_all. cbn [map concat].
      rewrite elements_SITE_DIR. cbn [app].
      change (filepath.elements (str "tagged")) with [str "tagged"]. cbn [app].
      apply Hk.
Qed.

End page_facts.

Section site_properties.
Context (assignConfig : json.value → option Config.t).
Context (assignPost : json.value → option Post.t).
Context (assignTag : json.value → option Tag.t).
Context (partialPost : json.value → Post.t).
Context (Parse : bytes → ast.Node).
Context (defaultRenderNode : ast.Node → bool → bytes).
Context (includesFilenames : list bytes).
Context (includesTemplates : option (bytes → IncludesContent → bytes)).
Context (layouts : bytes → option (LayoutContent → bytes)).
Context (assetsEFS : tree.Walk).

Local Abbreviation parse' := (parse assignPost Parse defaultRenderNode).
Local Abbreviation readSite' :=
  (readSite assignConfig assignPost assignTag Parse defaultRenderNode assetsEFS).
Local Abbreviation generate' :=
  (generate assignConfig assignPost assignTag partialPost Parse defaultRenderNode
     includesFilenames includesTemplates layouts assetsEFS).

(** The first special page: what [render] is called on and what it
    leaves. *)
Lemma renderSpecial_index (ExecuteTemplate : bytes → IncludesContent → bytes)
    (cfg : Config.t) (w w1 : World) :
  renderSpecial assignPost partialPost Parse defaultRenderNode layouts ExecuteTemplate
    cfg [INDEX_FILE; BLOG_FILE] w = Ok w1 →
  ∃ post layoutTempl,
    parse' (files w) (filepath.Join [MARKDOWN_DIR; INDEX_FILE]) = Ok post
    ∧ layouts (str "default") = Some layoutTempl
    ∧ files w1 !! [SITE_DIR; str "index.html"]
      = Some (os.File
                (layoutTempl
                   {| lc_Content := Post.HTML post; lc_Site := cfg;
                      lc_Post := withLayout post (str "default");
                      lc_Includes :=
                        renderIncludes ExecuteTemplate
                          {| ic_Site := cfg;
                             ic_Post := withLayout post (str "default") |}
                          (includesRender w);
                      lc_Tag := Tag.Build [] [] |})).
Proof.
  intros Hrun.
  apply renderSpecial_cons in Hrun as (post & wA & Hparse & Hrender & Hrest).
  rewrite decide_True in Hrender by done.
  apply renderSpecial_cons in Hrest as (postB & wB & HparseB & HrenderB & Hrest).
  cbn [renderSpecial] in Hrest. injection Hrest as <-.
  rewrite decide_False in HrenderB by (intros H; vm_compute in H; discriminate H).
  rewrite decide_True in HrenderB by done.
  destruct (render_inv _ _ _ _ _ _ _ _ Hrender) as (templ & Hlayout & Hinc & Hwrite).
  apply WriteFile_inv in Hwrite as (Hfiles & _ & _).
  cbn [withLayout Post.Layout Post.RootName Post.HTML] in *.
  exists post, templ. split; [done|]. split; [done|].
  apply parse_file in Hparse as [Hroot _]. apply parse_file in HparseB as [HrootB _].
  erewrite render_other; [|exact HrenderB|].
  - rewrite Hfiles, Hinc, Hroot. exact (lookup_insert_eq _ _ _).
  - cbn [withLayout Post.RootName]. rewrite HrootB.
    intros H. vm_compute in H. discriminate H.
Qed.

Lemma renderSpecial_blog (ExecuteTemplate : bytes → IncludesContent → bytes)
    (cfg : Config.t) (w w1 : World) :
  renderSpecial assignPost partialPost Parse defaultRenderNode layouts ExecuteTemplate
    cfg [INDEX_FILE; BLOG_FILE] w = Ok w1 →
  is_Some (layouts (str "blog"))
  ∧ (∃ data, files w !! [MARKDOWN_DIR; BLOG_FILE] = Some (os.File data))
  ∧ ∃ content, files w1 !! [SITE_DIR; str "blog.html"] = Some (os.File content).
Proof.
  intros Hrun.
  apply renderSpecial_cons in Hrun as (post & wA & Hparse & Hrender & Hrest).
  apply renderSpecial_cons in Hrest as (postB & wB & HparseB & HrenderB & Hrest).
  cbn [renderSpecial] in Hrest. injection Hrest as <-.
  rewrite decide_True in Hrender by done.
  rewrite decide_False in HrenderB by (intros H; vm_compute in H; discriminate H).
  rewrite decide_True in HrenderB by done.
  destruct (render_inv _ _ _ _ _ _ _ _ HrenderB) as (templ & Hlayout & _ & Hwrite).
  apply WriteFile_inv in Hwrite as (Hfiles & _ & _).
  cbn [withLayout Post.Layout Post.RootName] in *.
  apply parse_file in HparseB as [HrootB [data HfileB]].
  split; [by eexists|]. split.
  - exists data. rewrite <- HfileB. symmetry.
    eapply render_other; [exact Hrender|].
    intros H.
    assert (Hu := under_site_root
                    (Post.RootName (withLayout post (str "default")) ++ str ".html")).
    rewrite <- H in Hu. destruct Hu as [tl Htl]. vm_compute in Htl. discriminate Htl.
  - eexists. rewrite Hfiles, HrootB. exact (lookup_insert_eq _ _ _).
Qed.

(** X23. When [generate] has succeeded on a site whose tags have slugs
    without [..], the home page [docs/index.html] is the output of the
    layout [default], whatever layout the metadata of [markdown/index.md]
    names, on the post parsed from that file, on the site read from
    [config.json] with all its posts and tags, on the empty tag and on the
    includes rendered for this page. *)
Theorem X23_generate_home_page (w w' : World) (fs2 : os.FS) (cfg : Config.t) :
  readSite' (files w) = Ok (fs2, cfg) →
  Forall (λ t, clean (Tag.Slug t)) (Config.Tags cfg) →
  generate' w = Returned (Ok w') →
  ∃ ExecuteTemplate registered post layoutTempl,
    includesTemplates = Some ExecuteTemplate
    ∧ registerIncludes includesFilenames (includesRender w) = Some registered
    ∧ parse' (files w) (filepath.Join [MARKDOWN_DIR; INDEX_FILE]) = Ok post
    ∧ layouts (str "default") = Some layoutTempl
    ∧ files w' !! [SITE_DIR; str "index.html"]
      = Some (os.File
                (layoutTempl
                   {| lc_Content := Post.HTML post; lc_Site := cfg;
                      lc_Post := withLayout post (str "default");
                      lc_Includes :=
                        renderIncludes ExecuteTemplate
                          {| ic_Site := cfg;
                             ic_Post := withLayout post (str "default") |}
                          registered;
                      lc_Tag := Tag.Build [] [] |})).
Proof.
  intros Hsite _ Hrun.
  destruct (generate_inv _ _ _ _ _ _ _ _ _ _ _ _ Hrun)
    as (fs2' & cfg' & ExecuteTemplate & registered & w1 & w2
        & Hread & Hinc & Hreg & E1 & E2 & E3).
  rewrite Hsite in Hread. injection Hread as <- <-.
  destruct (renderSpecial_index _ _ _ _ E1) as (post & templ & Hparse & Hlayout & Hpage).
  cbn [files includesRender] in *.
  exists ExecuteTemplate, registered, post, templ.
  do 2 (split; [done|]). split; [|split; [done|]].
  - rewrite <- Hparse. symmetry. apply parse_ext.
    eapply readSite_outside; [exact Hsite|].
    intros [tl Htl]. vm_compute in Htl. discriminate Htl.
  - eapply renderTags_other; [exact E3| |].
    + intros rest H. vm_compute in H. discriminate H.
    + erewrite renderPosts_keeps; [exact Hpage|exact E2|].
      intros rest H. vm_compute in H. discriminate H.
Qed.

(** X24. When [generate] has succeeded, every entry of [markdown/posts]
    whose name ends in [.md] has its page: the file [<root name>.html] of
    [docs/blog]; and the page [docs/blog.html] exists. *)
Theorem X24_generate_pages (w w' : World) :
  generate' w = Returned (Ok w') →
  (∀ name, str ".md" `suffix_of` name →
     is_Some (files w !! [MARKDOWN_DIR; str "posts"; name]) →
     ∃ content,
       files w' !! [SITE_DIR; str "blog";
                    rootName (filepath.Join [postsDir; name]) ++ str ".html"]
       = Some (os.File content))
  ∧ ∃ content, files w' !! [SITE_DIR; str "blog.html"] = Some (os.File content).
Proof.
  intros Hrun.
  destruct (generate_inv _ _ _ _ _ _ _ _ _ _ _ _ Hrun)
    as (fs2 & cfg & ExecuteTemplate & registered & w1 & w2
        & Hread & Hinc & Hreg & E1 & E2 & E3).
  split.
  - intros name Hsuffix Hfile.
    eapply renderTags_keeps; [exact E3|].
    eapply renderPosts_pages; [exact E2|].
    apply elem_of_Glob. split; [done|].
    change (filepath.elements postsDir ++ [name])
      with [MARKDOWN_DIR; str "posts"; name].
    erewrite renderSpecial_outside; [|exact E1|apply outside_site_markdown].
    cbn [files].
    erewrite readSite_outside; [exact Hfile|exact Hread|apply outside_site_markdown].
  - eapply renderTags_keeps; [exact E3|].
    eapply renderPosts_file; [exact E2|].
    by destruct (renderSpecial_blog _ _ _ _ E1) as (_ & _ & Hpage).
Qed.

(** X25. [generate] cannot succeed unless the tree holds the entry
    [markdown/assets], the file [config.json] with a JSON text for a
    configuration and the files [markdown/index.md] and
    [markdown/blog.md], the include templates parse, and the layouts
    [default] and [blog] exist. *)
Theorem X25_generate_requires (w w' : World) :
  generate' w = Returned (Ok w') →
  is_Some (files w !! [MARKDOWN_DIR; ASSETS_DIR])
  ∧ (∃ data, files w !! [CONFIG_FILE] = Some (os.File data)
             ∧ isOk (json.Unmarshal assignConfig data) = true)
  ∧ (∃ data, files w !! [MARKDOWN_DIR; INDEX_FILE] = Some (os.File data))
  ∧ (∃ data, files w !! [MARKDOWN_DIR; BLOG_FILE] = Some (os.File data))
  ∧ is_Some includesTemplates
  ∧ is_Some (layouts (str "default"))
  ∧ is_Some (layouts (str "blog")).
Proof.
  intros Hrun.
  destruct (generate_inv _ _ _ _ _ _ _ _ _ _ _ _ Hrun)
    as (fs2 & cfg & ExecuteTemplate & registered & w1 & w2
        & Hread & Hinc & Hreg & E1 & E2 & E3).
  destruct (readSite_inv _ _ _ _ _ _ _ _ _ Hread)
    as (fs1 & fsys & f & cfgRaw & cfg0 & cfg1 & R1 & R2 & R3 & R4 & R5 & R6 & _).
  destruct (renderSpecial_index _ _ _ _ E1) as (post & templ & Hparse & Hlayout & _).
  destruct (renderSpecial_blog _ _ _ _ E1) as (Hblog & [dataB HfileB] & _).
  cbn [files] in *.
  split; [|split; [|split; [|split; [|split; [|split]]]]].
  - unfold dirfs.WalkDir in R2.
    change (filepath.elements (filepath.Join [MARKDOWN_DIR; ASSETS_DIR]))
      with [MARKDOWN_DIR; ASSETS_DIR] in R2.
    erewrite <- reset_outside; [|exact R1|apply outside_site_markdown].
    by destruct (fs1 !! [MARKDOWN_DIR; ASSETS_DIR]).
  - unfold os.Open in R4.
    change (filepath.elements CONFIG_FILE) with [CONFIG_FILE] in R4.
    destruct (fs2 !! [CONFIG_FILE]) as [n|] eqn:Hcfg; [|done].
    injection R4 as <-. destruct n as [data|]; [|done]. injection R5 as <-.
    exists data. split; [|by rewrite R6].
    rewrite <- Hcfg. symmetry. eapply readSite_outside; [exact Hread|].
    intros [tl Htl]. vm_compute in Htl. discriminate Htl.
  - apply parse_file in Hparse as [_ [data Hfile]]. exists data.
    rewrite <- Hfile. symmetry. eapply readSite_outside; [exact Hread|].
    intros [tl Htl]. vm_compute in Htl. discriminate Htl.
  - exists dataB. rewrite <- HfileB. symmetry.
    eapply readSite_outside; [exact Hread|]. apply outside_site_markdown.
  - by rewrite Hinc.
  - by rewrite Hlayout.
  - done.
Qed.

End site_properties.

Lemma siteWorld0_generates :
  ∃ w',
    generate anyConfig titled slugTag noPartial fencedOnly tagNames includeNames
      (Some echoIncludes) namedLayouts someAssets siteWorld0 = Returned (Ok w').
Proof.
  assert (match generate anyConfig titled slugTag noPartial fencedOnly tagNames
                  includeNames (Some echoIncludes) namedLayouts someAssets siteWorld0 with
          | Returned (Ok _) => true
          | _ => false
          end = true) as Hok by (vm_compute; reflexivity).
  destruct (generate anyConfig titled slugTag noPartial fencedOnly tagNames includeNames
              (Some echoIncludes) namedLayouts someAssets siteWorld0)
    as [[w'|]|] eqn:Hrun; [|discriminate Hok..].
  by exists w'.
Qed.

(** The sample site reads, and the slugs of its tags hold no [..]. *)
Lemma siteTree_reads :
  ∃ fs2 cfg,
    readSite anyConfig titled slugTag fencedOnly tagNames someAssets siteTree
    = Ok (fs2, cfg)
    ∧ Forall (λ t, clean (Tag.Slug t)) (Config.Tags cfg).
Proof.
  assert (match readSite anyConfig titled slugTag fencedOnly tagNames someAssets
                  siteTree with
          | Ok (_, cfg) => bool_decide (Forall (λ t, clean (Tag.Slug t)) (Config.Tags cfg))
          | Err _ => false
          end = true) as Hclean by (vm_compute; reflexivity).
  destruct (readSite anyConfig titled slugTag fencedOnly tagNames someAssets siteTree)
    as [[fs2 cfg]|] eqn:Hread; [|discriminate Hclean].
  apply bool_decide_eq_true in Hclean. exists fs2, cfg.
  split; [reflexivity|exact Hclean].
Qed.

Lemma X23_generate_home_page_witness :
  ∃ w',
    generate anyConfig titled slugTag noPartial fencedOnly tagNames includeNames
      (Some echoIncludes) namedLayouts someAssets siteWorld0 = Returned (Ok w')
    ∧ files w' !! [SITE_DIR; str "index.html"]
      = Some (os.File (str "default:index:<p></p>")).
Proof.
  destruct siteWorld0_generates as [w' Hrun]. exists w'. split; [exact Hrun|].
  destruct siteTree_reads as (fs2 & cfg & Hread & Hclean).
  destruct (X23_generate_home_page anyConfig titled slugTag noPartial fencedOnly
              tagNames includeNames (Some echoIncludes) namedLayouts someAssets
              siteWorld0 w' fs2 cfg Hread Hclean Hrun)
    as (ExecuteTemplate & registered & post & layoutTempl
        & _ & _ & Hparse & Hlayout & Hpage).
  assert (parse titled fencedOnly tagNames (files siteWorld0)
            (filepath.Join [MARKDOWN_DIR; INDEX_FILE])
          = Ok (Post.Build [] (str "<p></p>") [] (str "A") [] [] [] (str "index")))
    as Hindex by (vm_compute; reflexivity).
  rewrite Hindex in Hparse. injection Hparse as <-. injection Hlayout as <-.
  exact Hpage.
Defined.

Lemma X24_generate_pages_witness :
  ∃ w' content,
    generate anyConfig titled slugTag noPartial fencedOnly tagNames includeNames
      (Some echoIncludes) namedLayouts someAssets siteWorld0 = Returned (Ok w')
    ∧ files w' !! [SITE_DIR; str "blog"; str "a.html"] = Some (os.File content).
Proof.
  destruct siteWorld0_generates as [w' Hrun].
  destruct (proj1 (X24_generate_pages anyConfig titled slugTag noPartial fencedOnly
                     tagNames includeNames (Some echoIncludes) namedLayouts someAssets
                     siteWorld0 w' Hrun) (str "a.md")) as [content Hpage].
  - by exists (str "a").
  - eexists. exact siteTree_post.
  - exists w', content. split; [exact Hrun|exact Hpage].
Defined.

Lemma X25_generate_requires_witness :
  ∃ w' data,
    generate anyConfig titled slugTag noPartial fencedOnly tagNames includeNames
      (Some echoIncludes) namedLayouts someAssets siteWorld0 = Returned (Ok w')
    ∧ siteTree !! [CONFIG_FILE] = Some (os.File data).
Proof.
  destruct siteWorld0_generates as [w' Hrun].
  destruct (X25_generate_requires anyConfig titled slugTag noPartial fencedOnly
              tagNames includeNames (Some echoIncludes) namedLayouts someAssets
              siteWorld0 w' Hrun) as (_ & (data & Hcfg & _) & _).
  exists w', data. split; [exact Hrun|exact Hcfg].
Defined.

(** ** The dispatch of [main] *)

Section main_properties.
Context (interactive : os.FS → option os.FS).
Context (now : time.Time).
Context (marshalConfig : Config.t → bytes).
Context (marshalPost : Post.t → bytes).
Context (marshalTag : Tag.t → bytes).
Context (ToLower : bytes → bytes).
Context (assignConfig : json.value → option Config.t).
Context (assignPost : json.value → option Post.t).
Context (assignTag : json.value → option Tag.t).
Context (partialPost : json.value → Post.t).
Context (Parse : bytes → ast.Node).
Context (defaultRenderNode : ast.Node → bool → bytes).
Context (includesFilenames : list bytes).
Context (includesTemplates : option (bytes → IncludesContent → bytes)).
Context (layouts : bytes → option (LayoutContent → bytes)).
Context (assetsEFS : tree.Walk).

Local Abbreviation main' :=
  (main interactive now marshalConfig marshalPost marshalTag ToLower assignConfig
     assignPost assignTag partialPost Parse defaultRenderNode includesFilenames
     includesTemplates layouts assetsEFS).

(** X26. The program ends normally only on one of its four commands:
    whenever [main] returns with status 0, [os.Args] holds, after the
    name of the program, one of [init], [generate], [post] and [tag]; for
    [post] and [tag] at least one argument follows, and for [init],
    [generate] and [tag] the function of the command has returned no
    error and the tree is the one it has left. So the program started
    with its name alone, whatever the interactive interface returns, or
    with any other word, does not end normally. *)
Theorem X26_main_exit0 (Args : list bytes) (fs fs' : os.FS) :
  main interactive now marshalConfig marshalPost marshalTag ToLower assignConfig
    assignPost assignTag partialPost Parse defaultRenderNode includesFilenames
    includesTemplates layouts assetsEFS Args fs
  = Exit0 fs' →
  ∃ program cmd rest,
    Args = program :: cmd :: rest
    ∧ ((cmd = str "init" ∧ initDirs marshalConfig marshalPost fs = Ok fs')
       ∨ (cmd = str "generate"
          ∧ ∃ w', generate assignConfig assignPost assignTag partialPost Parse
                    defaultRenderNode includesFilenames includesTemplates layouts
                    assetsEFS {| files := fs; includesRender := ∅ |}
                  = Returned (Ok w')
                  ∧ fs' = files w')
       ∨ (cmd = str "post" ∧ rest ≠ [])
       ∨ (cmd = str "tag" ∧ rest ≠ []
          ∧ createTag marshalTag ToLower rest fs = Ok fs')).
Proof.
  unfold main. destruct Args as [|program [|cmd rest]].
  - done.
  - by destruct (interactive fs).
  - intros Hmain. exists program, cmd, rest. split; [done|].
    destruct (decide (cmd ∈ commands)) as [Hcmd|]; [|done].
    destruct (decide (cmd = str "init")) as [->|Hinit].
    { left. split; [done|]. unfold finish in Hmain.
      destruct (initDirs marshalConfig marshalPost fs); by simplify_eq. }
    destruct (decide (cmd = str "generate")) as [->|Hgenerate].
    { right; left. split; [done|].
      destruct (generate _ _ _ _ _ _ _ _ _ _ _) as [[w'|e]|]; [|done..].
      cbn [mbind result_bind finish] in Hmain. injection Hmain as <-. by exists w'. }
    destruct (decide (cmd = str "post")) as [->|Hpost].
    { right; right; left. split; [done|]. by destruct rest. }
    destruct (decide (cmd = str "tag")) as [->|Htag].
    { right; right; right. split; [done|]. destruct rest as [|tag rest]; [done|].
      split; [done|]. unfold finish in Hmain.
      destruct (createTag marshalTag ToLower (tag :: rest) fs); by simplify_eq. }
    exfalso. unfold commands in Hcmd. rewrite !elem_of_cons in Hcmd.
    by destruct Hcmd as [?|[?|[?|[?|?%elem_of_nil]]]].
Qed.

(** X27. The command [post] without the flag [-t] as its second argument
    after the title, or with no tag after the flag, never exits with an
    error: whatever follows the title is ignored, the post is made
    without tags, and when [initPost] fails, as it does on an empty
    title, the program still exits with status 0 and the tree as it
    was. *)
Theorem X27_main_post_quiet (program title : bytes) (rest : list bytes) (fs : os.FS) :
  length rest < 2 ∨ rest !! 0 ≠ Some (str "-t") →
  ∃ fs',
    main' (program :: str "post" :: title :: rest) fs = Exit0 fs'
    ∧ main' (program :: str "post" :: title :: rest) fs
      = main' [program; str "post"; title] fs
    ∧ (∀ fs1, initPost marshalPost now title [] fs = Done fs1 → fs' = fs1)
    ∧ (title = [] → fs' = fs).
Proof.
  intros Hflag. unfold main.
  rewrite decide_True by (apply (bool_decide_unpack _); vm_compute; reflexivity).
  rewrite decide_False by (intros H; vm_compute in H; discriminate H).
  rewrite decide_False by (intros H; vm_compute in H; discriminate H).
  rewrite decide_True by done.
  assert ((length (program :: str "post" :: title :: rest) <? 5)
          || negb (bool_decide ((program :: str "post" :: title :: rest) !! 3
                                = Some (str "-t"))) = true) as ->.
  { apply orb_true_iff. destruct Hflag as [Hlen|Hne].
    - left. apply Nat.ltb_lt. cbn [length]. lia.
    - right. apply negb_true_iff, bool_decide_eq_false. exact Hne. }
  cbn [length Nat.ltb Nat.leb orb].
  destruct (initPost marshalPost now title [] fs) as [fs1| |] eqn:Hinit.
  - exists fs1. split; [done|]. split; [done|]. split.
    + by intros ? [= <-].
    + intros ->. unfold initPost in Hinit. by rewrite decide_True in Hinit.
  - exists fs. split; [done|]. split; [done|]. split; [done|done].
  - exists fs. split; [done|]. split; [done|]. split; [done|done].
Qed.

End main_properties.

Lemma X27_main_post_quiet_witness :
  ∃ fs',
    main (λ _, None) feb21 (λ _, str "{}") (λ _, titleA) slugOnly id anyConfig titled
      slugTag noPartial fencedOnly tagNames includeNames (Some echoIncludes)
      namedLayouts someAssets
      [str "ez-ssg"; str "post"; str "My first post"; str "go"; str "rust"] postsTree
    = Exit0 fs'
    ∧ fs' !! [MARKDOWN_DIR; str "posts"; str "My_first_post" ++ str ".md"]
      = Some (os.File (document titleA [])).
Proof.
  destruct (X27_main_post_quiet (λ _, None) feb21 (λ _, str "{}") (λ _, titleA) slugOnly
              id anyConfig titled slugTag noPartial fencedOnly tagNames includeNames
              (Some echoIncludes) namedLayouts someAssets
              (str "ez-ssg") (str "My first post") [str "go"; str "rust"] postsTree)
    as (fs' & Hmain & _ & Hdone & _).
  - right. discriminate.
  - exists fs'. split; [exact Hmain|].
    rewrite (Hdone _ initPost_demo). exact (lookup_insert_eq _ _ _).
Defined.

Lemma X26_main_exit0_witness :
  main (λ _, None) feb21 (λ _, str "{}") (λ _, titleA) slugOnly id anyConfig titled
    slugTag noPartial fencedOnly tagNames includeNames (Some echoIncludes)
    namedLayouts someAssets
    [str "ez-ssg"; str "post"; str "My first post"] postsTree
  = Exit0 (<[ [MARKDOWN_DIR; str "posts"; str "My_first_post" ++ str ".md"]
              := os.File (document titleA []) ]> postsTree)
  ∧ ∃ program cmd rest,
      [str "ez-ssg"; str "post"; str "My first post"] = program :: cmd :: rest
      ∧ (cmd = str "init" ∨ cmd = str "generate" ∨ cmd = str "post" ∨ cmd = str "tag").
Proof.
  assert (main (λ _, None) feb21 (λ _, str "{}") (λ _, titleA) slugOnly id anyConfig
            titled slugTag noPartial fencedOnly tagNames includeNames
            (Some echoIncludes) namedLayouts someAssets
            [str "ez-ssg"; str "post"; str "My first post"] postsTree
          = Exit0 (<[ [MARKDOWN_DIR; str "posts"; str "My_first_post" ++ str ".md"]
                      := os.File (document titleA []) ]> postsTree)) as Hmain.
  { unfold main.
    rewrite decide_True by (apply (bool_decide_unpack _); vm_compute; reflexivity).
    rewrite decide_False by (intros H; vm_compute in H; discriminate H).
    rewrite decide_False by (intros H; vm_compute in H; discriminate H).
    rewrite decide_True by done.
    cbn [length Nat.ltb Nat.leb orb]. by rewrite initPost_demo. }
  split; [exact Hmain|].
  destruct (X26_main_exit0 _ _ _ _ _ _ _ _ _ _ _ _ _ _ _ _ _ _ _ Hmain)
    as (program & cmd & rest & Hargs & Hcmd).
  exists program, cmd, rest. split; [exact Hargs|].
  destruct Hcmd as [[-> _]|[[-> _]|[[-> _]|[-> _]]]]; auto.
Defined.

(** ** The assets of the user *)

Section walk_facts.
Import dirfs.

Lemma stripPrefix_spec (d p rel : list bytes) :
  stripPrefix d p = Some rel ↔ p = d ++ rel.
Proof.
  revert p. induction d as [|a d IH]; intros p; cbn [stripPrefix app].
  - split; [by intros [= ->]|by intros ->].
  - destruct p as [|b p]; [done|]. case_decide as Hab.
    + subst b. rewrite IH. split; [by intros ->|by intros [= ->]].
    + split; [done|]. by intros [= -> _].
Qed.

Lemma elem_of_insertPath (x e : list bytes * os.node)
    (sorted : list (list bytes * os.node)) :
  x ∈ insertPath e sorted ↔ x = e ∨ x ∈ sorted.
Proof.
  induction sorted as [|e' sorted IH]; cbn [insertPath].
  - rewrite list_elem_of_singleton, elem_of_nil. tauto.
  - destruct (pathLe e.1 e'.1).
    + by rewrite elem_of_cons.
    + rewrite !elem_of_cons, IH. tauto.
Qed.

Lemma elem_of_sortedPaths (x : list bytes * os.node)
    (entries : list (list bytes * os.node)) :
  x ∈ foldr insertPath [] entries ↔ x ∈ entries.
Proof.
  induction entries as [|e entries IH]; cbn [foldr]; [done|].
  by rewrite elem_of_insertPath, elem_of_cons, IH.
Qed.

(** The entries [below] lists are the entries of the tree below the
    directory. *)
Lemma elem_of_below (fs : os.FS) (d rel : list bytes) (n : os.node) :
  (rel, n) ∈ below fs d ↔ rel ≠ [] ∧ fs !! (d ++ rel) = Some n.
Proof.
  unfold below. rewrite elem_of_sortedPaths, list_elem_of_omap. split.
  - intros ([k n'] & Hin & Hrel). apply elem_of_map_to_list in Hin. cbn [fst snd] in Hrel.
    destruct (stripPrefix d k) as [[|e rel']|] eqn:Hstrip; [done| |done].
    injection Hrel as <- <-. apply stripPrefix_spec in Hstrip as ->. done.
  - intros [Hne Hn]. exists (d ++ rel, n). split; [by apply elem_of_map_to_list|].
    cbn [fst snd]. rewrite (proj2 (stripPrefix_spec d (d ++ rel) rel) eq_refl).
    by destruct rel.
Qed.

(** The walk of a directory visits every entry below it. *)
Lemma WalkDir_entries (fs : os.FS) (dir : bytes) (fsys : tree.Walk)
    (rel : list bytes) (n : os.node) :
  WalkDir fs dir = Ok fsys →
  fs !! filepath.elements dir = Some os.Dir →
  rel ≠ [] → fs !! (filepath.elements dir ++ rel) = Some n →
  (filepath.joinAll rel, n) ∈ fsys.
Proof.
  unfold WalkDir. intros Hwalk Hdir Hrel Hn. rewrite Hdir in Hwalk.
  injection Hwalk as <-. right.
  apply list_elem_of_fmap. exists (rel, n). split; [done|]. by apply elem_of_below.
Qed.

End walk_facts.

(** The elements of a path made of names are these names. *)
Lemma elements_names (rel : list bytes) :
  Forall isName rel →
  filepath.elements (filepath.joinAll rel) = rel.
Proof.
  intros Hrel. rewrite elements_joinAll.
  induction Hrel as [|e rel (Hsep & Hne & Hdot & _) _ IH]; [done|].
  cbn [map concat]. by rewrite elements_name, IH.
Qed.

Section asset_properties.
Context (assignConfig : json.value → option Config.t).
Context (assignPost : json.value → option Post.t).
Context (assignTag : json.value → option Tag.t).
Context (partialPost : json.value → Post.t).
Context (Parse : bytes → ast.Node).
Context (defaultRenderNode : ast.Node → bool → bytes).
Context (includesFilenames : list bytes).
Context (includesTemplates : option (bytes → IncludesContent → bytes)).
Context (layouts : bytes → option (LayoutContent → bytes)).
Context (assetsEFS : tree.Walk).

Local Abbreviation readSite' :=
  (readSite assignConfig assignPost assignTag Parse defaultRenderNode assetsEFS).
Local Abbreviation generate' :=
  (generate assignConfig assignPost assignTag partialPost Parse defaultRenderNode
     includesFilenames includesTemplates layouts assetsEFS).

(** The special pages are the only files their loop writes. *)
Lemma renderSpecial_keeps (ExecuteTemplate : bytes → IncludesContent → bytes)
    (cfg : Config.t) (w w1 : World) (k : list bytes) :
  renderSpecial assignPost partialPost Parse defaultRenderNode layouts ExecuteTemplate
    cfg [INDEX_FILE; BLOG_FILE] w = Ok w1 →
  k ≠ [SITE_DIR; str "index.html"] → k ≠ [SITE_DIR; str "blog.html"] →
  files w1 !! k = files w !! k.
Proof.
  intros Hrun Hindex Hblog.
  apply renderSpecial_cons in Hrun as (post & wA & Hparse & Hrender & Hrest).
  apply renderSpecial_cons in Hrest as (postB & wB & HparseB & HrenderB & Hrest).
  cbn [renderSpecial] in Hrest. injection Hrest as <-.
  rewrite decide_True in Hrender by done.
  rewrite decide_False in HrenderB by (intros H; vm_compute in H; discriminate H).
  rewrite decide_True in HrenderB by done.
  apply parse_file in Hparse as [Hroot _]. apply parse_file in HparseB as [HrootB _].
  erewrite render_other; [|exact HrenderB|].
  - eapply render_other; [exact Hrender|].
    cbn [withLayout Post.RootName]. rewrite Hroot. exact Hindex.
  - cbn [withLayout Post.RootName]. rewrite HrootB. exact Hblog.
Qed.

(** X28. When [generate] has succeeded on a site whose tags have slugs
    without [..], a file of the user's assets [markdown/assets/<path>]
    lies at [docs/<path>], directly below the site directory and not
    below [docs/assets], with its content, unless its path begins with
    the name of a page or of a directory of pages. *)
Theorem X28_generate_user_assets (w w' : World) (fs2 : os.FS) (cfg : Config.t)
    (rel : list bytes) (content : bytes) :
  readSite' (files w) = Ok (fs2, cfg) →
  Forall (λ t, clean (Tag.Slug t)) (Config.Tags cfg) →
  generate' w = Returned (Ok w') →
  files w !! [MARKDOWN_DIR; ASSETS_DIR] = Some os.Dir →
  rel ≠ [] →
  Forall isName rel →
  hd [] rel ∉ [str "index.html"; str "blog.html"; str "blog"; str "tagged"] →
  files w !! ([MARKDOWN_DIR; ASSETS_DIR] ++ rel) = Some (os.File content) →
  files w' !! (SITE_DIR :: rel) = Some (os.File content).
Proof.
  intros Hsite _ Hrun Hdir Hrel Hnames Hhd Hfile.
  destruct (generate_inv _ _ _ _ _ _ _ _ _ _ _ _ Hrun)
    as (fs2' & cfg' & ExecuteTemplate & registered & w1 & w2
        & Hread & Hinc & Hreg & E1 & E2 & E3).
  destruct (readSite_inv _ _ _ _ _ _ _ _ _ Hread)
    as (fs1 & fsys & f & cfgRaw & cfg0 & cfg1 & R1 & R2 & R3 & _).
  rewrite !not_elem_of_cons in Hhd. destruct Hhd as (Hindex & Hblog & Hposts & Htagged & _).
  destruct rel as [|e rel]; [done|]. cbn [hd] in *.
  eapply renderTags_other; [exact E3|by intros rest [= ? _]|].
  erewrite renderPosts_keeps; [|exact E2|by intros rest [= ? _]].
  erewrite renderSpecial_keeps; [|exact E1|by intros [= ? _]|by intros [= ? _]].
  cbn [files].
  assert ((filepath.joinAll (e :: rel), os.File content) ∈ fsys) as Hin.
  { eapply WalkDir_entries; [exact R2| |done|].
    - change (filepath.elements (filepath.Join [MARKDOWN_DIR; ASSETS_DIR]))
        with [MARKDOWN_DIR; ASSETS_DIR].
      erewrite reset_outside; [exact Hdir|exact R1|apply outside_site_markdown].
    - change (filepath.elements (filepath.Join [MARKDOWN_DIR; ASSETS_DIR]))
        with [MARKDOWN_DIR; ASSETS_DIR].
      erewrite reset_outside; [exact Hfile|exact R1|apply outside_site_markdown]. }
  pose proof (CopyFS_files _ _ _ _ _ _ R3 Hin) as Hcopy.
  rewrite elements_Join_all in Hcopy. cbn [map concat] in Hcopy.
  rewrite elements_SITE_DIR, elements_names, app_nil_r in Hcopy by done.
  exact Hcopy.
Qed.

End asset_properties.

Lemma X28_generate_user_assets_witness :
  ∃ w',
    generate anyConfig titled slugTag noPartial fencedOnly tagNames includeNames
      (Some echoIncludes) namedLayouts someAssets siteWorld0 = Returned (Ok w')
    ∧ files w' !! [SITE_DIR; str "logo.png"] = Some (os.File (str "png")).
Proof.
  destruct siteWorld0_generates as [w' Hrun]. exists w'. split; [exact Hrun|].
  destruct siteTree_reads as (fs2 & cfg & Hread & Hclean).
  apply (X28_generate_user_assets anyConfig titled slugTag noPartial fencedOnly
           tagNames includeNames (Some echoIncludes) namedLayouts someAssets
           siteWorld0 w' fs2 cfg [str "logo.png"] (str "png") Hread Hclean Hrun).
  - unfold siteWorld0, siteTree. cbn [files].
    rewrite lookup_insert_ne by discriminate. exact (lookup_insert_eq _ _ _).
  - discriminate.
  - constructor; [|constructor].
    split; [apply (bool_decide_unpack _); vm_compute; reflexivity|].
    split; [|split]; intros H; vm_compute in H; discriminate H.
  - apply (bool_decide_unpack _). vm_compute. reflexivity.
  - unfold siteWorld0, siteTree. cbn [files app].
    rewrite lookup_insert_ne by discriminate.
    rewrite lookup_insert_ne by discriminate.
    exact (lookup_insert_eq _ _ _).
Defined.

(** ** Running [generate] again *)

Section again_facts.
Context (assignPost : json.value → option Post.t).
Context (partialPost : json.value → Post.t).
Context (Parse : bytes → ast.Node).
Context (defaultRenderNode : ast.Node → bool → bytes).
Context (layouts : bytes → option (LayoutContent → bytes)).
Context (ExecuteTemplate : bytes → IncludesContent → bytes).

Local Abbreviation renderIncludes' := (renderIncludes ExecuteTemplate).
Local Abbreviation render' := (render ExecuteTemplate layouts).
Local Abbreviation renderSpecial' :=
  (renderSpecial assignPost partialPost Parse defaultRenderNode layouts ExecuteTemplate).
Local Abbreviation renderPosts' :=
  (renderPosts assignPost partialPost Parse defaultRenderNode layouts ExecuteTemplate).
Local Abbreviation renderTags' := (renderTags ExecuteTemplate layouts).
Local Abbreviation sameIncludes' := (sameIncludes ExecuteTemplate).

Lemma sameIncludes_render (post : Post.t) (destDir : bytes) (cfg : Config.t)
    (tag : Tag.t) (fs : os.FS) (m m' : gmap bytes bytes) :
  sameIncludes' m m' →
  render' post destDir cfg tag {| files := fs; includesRender := m |}
  = render' post destDir cfg tag {| files := fs; includesRender := m' |}.
Proof. intros Hsame. unfold render. cbn [files includesRender]. by rewrite Hsame. Qed.

Lemma sameIncludes_after (post : Post.t) (destDir : bytes) (cfg : Config.t)
    (tag : Tag.t) (w w' : World) (m : gmap bytes bytes) :
  render' post destDir cfg tag w = Ok w' →
  sameIncludes' (includesRender w) m → sameIncludes' (includesRender w') m.
Proof.
  intros Hrender Hsame content.
  destruct (render_inv _ _ _ _ _ _ _ _ Hrender) as (templ & _ & -> & _).
  by rewrite renderIncludes_fresh.
Qed.

Lemma renderSpecial_after (cfg : Config.t) (names : list bytes) (w w' : World)
    (m : gmap bytes bytes) :
  renderSpecial' cfg names w = Ok w' →
  sameIncludes' (includesRender w) m → sameIncludes' (includesRender w') m.
Proof.
  revert w. induction names as [|name names IH]; intros w Hrun Hsame.
  - cbn [renderSpecial] in Hrun. by injection Hrun as <-.
  - apply renderSpecial_cons in Hrun as (post & w1 & _ & Hrender & Hrest).
    eapply IH; [exact Hrest|]. by eapply sameIncludes_after.
Qed.

Lemma renderPosts_after (cfg : Config.t) (postsDir : bytes) (names : list bytes)
    (w w' : World) (m : gmap bytes bytes) :
  renderPosts' cfg postsDir names w = Ok w' →
  sameIncludes' (includesRender w) m → sameIncludes' (includesRender w') m.
Proof.
  revert w. induction names as [|name names IH]; intros w Hrun Hsame.
  - cbn [renderPosts] in Hrun. by injection Hrun as <-.
  - apply renderPosts_cons in Hrun as (post & w1 & _ & Hrender & Hrest).
    eapply IH; [exact Hrest|]. by eapply sameIncludes_after.
Qed.

Lemma renderTags_after (cfg : Config.t) (tags : list Tag.t) (w w' : World)
    (m : gmap bytes bytes) :
  renderTags' cfg tags w = Ok w' →
  sameIncludes' (includesRender w) m → sameIncludes' (includesRender w') m.
Proof.
  revert w. induction tags as [|t tags IH]; intros w Hrun Hsame.
  - cbn [renderTags] in Hrun. by injection Hrun as <-.
  - apply renderTags_cons in Hrun as (fs & w1 & _ & Hrender & Hrest).
    eapply IH; [exact Hrest|]. by eapply sameIncludes_after.
Qed.

(** The special pages come out the same from maps that are as good as
    each other. *)
Lemma sameIncludes_renderSpecial (cfg : Config.t) (name : bytes) (names : list bytes)
    (fs : os.FS) (m m' : gmap bytes bytes) :
  sameIncludes' m m' →
  renderSpecial' cfg (name :: names) {| files := fs; includesRender := m |}
  = renderSpecial' cfg (name :: names) {| files := fs; includesRender := m' |}.
Proof.
  intros Hsame. cbn [renderSpecial files].
  destruct (parse _ _ _ fs _) as [post|]; [|done].
  by rewrite (sameIncludes_render _ _ _ _ _ m m').
Qed.

(** What two maps that are as good as each other agree on. *)
Lemma sameIncludes_other (m m' : gmap bytes bytes) (k : bytes) :
  sameIncludes' m m' → k ∉ includeFiles.*2 → m !! k = m' !! k.
Proof.
  intros Hsame Hk.
  pose proof (Hsame {| ic_Site := emptyConfig; ic_Post := Post.zero |}) as Heq.
  apply (f_equal (λ x : gmap bytes bytes, x !! k)) in Heq.
  by rewrite !renderIncludes_other in Heq.
Qed.

End again_facts.

Lemma includeName_root (name : bytes) :
  includeName name →
  ∃ root, filepath.splitOn "/"%char name = [str "includes"; root]
          ∧ root ∉ includeFiles.*2.
Proof.
  intros (root & -> & Hsep & Hsuffix). exists root. split.
  - change (str "includes/" ++ root)
      with (str "includes" ++ filepath.Separator :: root).
    rewrite splitOn_app, (splitOn_no_sep _ root) by done. done.
  - intros Hin. unfold includeFiles in Hin. cbn [fmap list_fmap snd] in Hin.
    destruct Hsuffix as [front ->].
    repeat (apply elem_of_cons in Hin as [Hin|Hin]);
      try (apply (f_equal reverse) in Hin; rewrite reverse_app in Hin;
           vm_compute in Hin; discriminate Hin).
    by apply elem_of_nil in Hin.
Qed.

(** Registering the include files again changes nothing. *)
Lemma registerIncludes_again (names : list bytes) (m registered m1 : gmap bytes bytes) :
  Forall includeName names →
  registerIncludes names m = Some registered →
  (∀ k, k ∉ includeFiles.*2 → m1 !! k = registered !! k) →
  registerIncludes names m1 = Some m1.
Proof.
  intros Hnames. revert m. induction Hnames as [|name names Hname _ IH]; intros m Hreg Hm1.
  - done.
  - cbn [registerIncludes] in *.
    destruct (includeName_root _ Hname) as (root & Hsplit & Hroot).
    rewrite Hsplit in Hreg |- *.
    assert (registered !! root = Some []) as Hregistered.
    { clear -Hreg. revert m Hreg.
      assert (∀ (rest : list bytes) (m0 : gmap bytes bytes),
                m0 !! root = Some [] →
                registerIncludes rest m0 = Some registered →
                registered !! root = Some []) as Hkeep.
      { induction rest as [|n rest IHr]; intros m0 Hm0; cbn [registerIncludes].
        - by intros [= <-].
        - destruct (filepath.splitOn "/"%char n) as [|? [|r ?]]; [done|done|].
          apply IHr. destruct (decide (r = root)) as [->|Hne].
          + apply lookup_insert_eq.
          + by rewrite lookup_insert_ne. }
      intros m Hreg. eapply Hkeep; [|exact Hreg]. apply lookup_insert_eq. }
    rewrite insert_id by (by rewrite Hm1). by eapply IH.
Qed.

Section again_properties.
Context (assignConfig : json.value → option Config.t).
Context (assignPost : json.value → option Post.t).
Context (assignTag : json.value → option Tag.t).
Context (partialPost : json.value → Post.t).
Context (Parse : bytes → ast.Node).
Context (defaultRenderNode : ast.Node → bool → bytes).
Context (includesFilenames : list bytes).
Context (includesTemplates : option (bytes → IncludesContent → bytes)).
Context (layouts : bytes → option (LayoutContent → bytes)).
Context (assetsEFS : tree.Walk).

Local Abbreviation readSite' :=
  (readSite assignConfig assignPost assignTag Parse defaultRenderNode assetsEFS).
Local Abbreviation generate' :=
  (generate assignConfig assignPost assignTag partialPost Parse defaultRenderNode
     includesFilenames includesTemplates layouts assetsEFS).

(** What [generate] reads depends on the tree outside the site directory
    only. *)
Lemma readSite_again (fs fs' : os.FS) :
  (∀ k, ¬ tree.under [SITE_DIR] k → fs' !! k = fs !! k) →
  readSite' fs' = readSite' fs.
Proof.
  intros Hagree. unfold readSite.
  rewrite (reset_RemoveAll assetsEFS fs fs'); [done|].
  apply RemoveAll_agree. by rewrite elements_SITE_DIR.
Qed.

(** X29. Running [generate] again changes nothing: when it has succeeded
    on a site whose tags have slugs without [..], with include files
    named as [fs.Glob] finds them, a second run from the tree and the map
    of includes it has left succeeds and leaves the same tree and the same
    map. *)
Theorem X29_generate_again (w w1 : World) (fs0 : os.FS) (cfg0 : Config.t) :
  readSite' (files w) = Ok (fs0, cfg0) →
  Forall (λ t, clean (Tag.Slug t)) (Config.Tags cfg0) →
  Forall includeName includesFilenames →
  generate' w = Returned (Ok w1) →
  generate' w1 = Returned (Ok w1).
Proof.
  intros _ _ Hnames Hrun.
  destruct (generate_inv _ _ _ _ _ _ _ _ _ _ _ _ Hrun)
    as (fs2 & cfg & ExecuteTemplate & registered & wS & wP
        & Hread & Hinc & Hreg & E1 & E2 & E3).
  assert (∀ k, ¬ tree.under [SITE_DIR] k → files w1 !! k = files w !! k) as Hout.
  { intros k Hk.
    transitivity (files wP !! k); [by eapply renderTags_outside|].
    transitivity (files wS !! k); [by eapply renderPosts_outside|].
    transitivity (fs2 !! k); [by eapply renderSpecial_outside in E1|].
    by eapply readSite_outside. }
  assert (sameIncludes ExecuteTemplate (includesRender w1) registered) as Hsame.
  { eapply renderTags_after; [exact E3|].
    eapply renderPosts_after; [exact E2|].
    eapply renderSpecial_after; [exact E1|]. by intros content. }
  assert (registerIncludes includesFilenames (includesRender w1)
          = Some (includesRender w1)) as Hreg1.
  { eapply registerIncludes_again; [exact Hnames|exact Hreg|].
    intros k Hk. by eapply sameIncludes_other. }
  unfold generate, renderSite.
  rewrite (readSite_again _ _ Hout), Hread, Hinc. cbn [files includesRender].
  rewrite Hreg1.
  rewrite (sameIncludes_renderSpecial _ _ _ _ _ _ _ _ _ _ _ _ Hsame), E1.
  cbn [mbind result_bind]. fold postsDir. rewrite E2.
  cbn [mbind result_bind]. by rewrite E3.
Qed.

(** X30. A build does not depend on the build before it: two worlds with
    the same map of includes whose trees differ below the site directory
    only give the same run of [generate], with the same tree at its end,
    so that no page of an earlier build survives. *)
Theorem X30_generate_fresh (w w' : World) :
  (∀ k, ¬ tree.under [SITE_DIR] k → files w' !! k = files w !! k) →
  includesRender w' = includesRender w →
  generate' w' = generate' w.
Proof.
  intros Hagree Hincludes. unfold generate.
  by rewrite (readSite_again _ _ Hagree), Hincludes.
Qed.

End again_properties.

Lemma includeNames_found : Forall includeName includeNames.
Proof.
  repeat constructor.
  - exists (str "footer-post.html"). split; [done|]. split.
    + apply (bool_decide_unpack _). vm_compute. reflexivity.
    + by exists (str "footer-post").
  - exists (str "footer.html"). split; [done|]. split.
    + apply (bool_decide_unpack _). vm_compute. reflexivity.
    + by exists (str "footer").
  - exists (str "head.html"). split; [done|]. split.
    + apply (bool_decide_unpack _). vm_compute. reflexivity.
    + by exists (str "head").
  - exists (str "header.html"). split; [done|]. split.
    + apply (bool_decide_unpack _). vm_compute. reflexivity.
    + by exists (str "header").
Qed.

Lemma X29_generate_again_witness :
  ∃ w1,
    generate anyConfig titled slugTag noPartial fencedOnly tagNames includeNames
      (Some echoIncludes) namedLayouts someAssets siteWorld0 = Returned (Ok w1)
    ∧ generate anyConfig titled slugTag noPartial fencedOnly tagNames includeNames
        (Some echoIncludes) namedLayouts someAssets w1 = Returned (Ok w1).
Proof.
  destruct siteWorld0_generates as [w1 Hrun]. exists w1. split; [exact Hrun|].
  destruct siteTree_reads as (fs0 & cfg0 & Hread & Hclean).
  exact (X29_generate_again anyConfig titled slugTag noPartial fencedOnly tagNames
           includeNames (Some echoIncludes) namedLayouts someAssets siteWorld0 w1
           fs0 cfg0 Hread Hclean includeNames_found Hrun).
Defined.

Lemma X30_generate_fresh_witness :
  generate anyConfig titled slugTag noPartial fencedOnly tagNames includeNames
    (Some echoIncludes) namedLayouts someAssets
    {| files := <[ [SITE_DIR; str "blog"; str "old.html"] := os.File (str "stale") ]>
                  siteTree;
       includesRender := ∅ |}
  = generate anyConfig titled slugTag noPartial fencedOnly tagNames includeNames
      (Some echoIncludes) namedLayouts someAssets siteWorld0.
Proof.
  apply (X30_generate_fresh anyConfig titled slugTag noPartial fencedOnly tagNames
           includeNames (Some echoIncludes) namedLayouts someAssets siteWorld0).
  - intros k Hk. cbn [files]. apply lookup_insert_ne.
    intros <-. apply Hk. by exists [str "blog"; str "old.html"].
  - reflexivity.
Defined.

(** ** The page of a tag and the record it is rendered from *)

Section tag_record_facts.
Context (ExecuteTemplate : bytes → IncludesContent → bytes).
Context (layouts : bytes → option (LayoutContent → bytes)).

Local Abbreviation render' := (render ExecuteTemplate layouts).
Local Abbreviation renderTags' := (renderTags ExecuteTemplate layouts).

(** The loop over the tags, cut at one of them. *)
Lemma renderTags_app (cfg : Config.t) (before after : list Tag.t) (w w' : World) :
  renderTags' cfg (before ++ after) w = Ok w' →
  ∃ w1, renderTags' cfg before w = Ok w1 ∧ renderTags' cfg after w1 = Ok w'.
Proof.
  revert w. induction before as [|t before IH]; intros w Hrun.
  - by exists w.
  - cbn [app] in Hrun.
    apply renderTags_cons in Hrun as (fs & w1 & Hmk & Hrender & Hrest).
    destruct (IH _ Hrest) as (w2 & Hbefore & Hafter).
    exists w2. split; [|done]. cbn [renderTags]. rewrite Hmk.
    cbn [wrap mbind result_bind]. rewrite Hrender. done.
Qed.

(** What [render] leaves at the page of a tag, from the record made of
    the tag. *)
Lemma render_tag_page (cfg : Config.t) (t : Tag.t) (w w' : World) :
  render' (tagAsPost t) (filepath.Join [SITE_DIR; str "tagged"; Tag.Slug t]) cfg t w
  = Ok w' →
  ∃ layoutTempl,
    layouts (str "tagged") = Some layoutTempl
    ∧ files w' !! tagPage t
      = Some (os.File (layoutTempl
                         {| lc_Content := []; lc_Site := cfg; lc_Post := tagAsPost t;
                            lc_Includes :=
                              renderIncludes ExecuteTemplate
                                {| ic_Site := cfg; ic_Post := tagAsPost t |}
                                (includesRender w);
                            lc_Tag := t |})).
Proof.
  intros Hrender.
  destruct (render_inv _ _ _ _ _ _ _ _ Hrender) as (layoutTempl & Hlayout & Hinc & Hwrite).
  apply WriteFile_inv in Hwrite as (-> & _ & _).
  exists layoutTempl. split; [done|]. rewrite Hinc. apply lookup_insert_eq.
Qed.

(** A page stays as it is while tags with other pages are rendered. *)
Lemma renderTags_page_kept (cfg : Config.t) (tags : list Tag.t) (w w' : World)
    (k : list bytes) (n : os.node) :
  renderTags' cfg tags w = Ok w' →
  Forall (λ t, tagPage t ≠ k) tags →
  files w !! k = Some n → files w' !! k = Some n.
Proof.
  revert w. induction tags as [|t tags IH]; intros w Hrun Hother Hk.
  - cbn [renderTags] in Hrun. by injection Hrun as <-.
  - apply Forall_cons in Hother as [Ht Hother].
    apply renderTags_cons in Hrun as (fs & w1 & Hmk & Hrender & Hrest).
    apply (IH _ Hrest Hother).
    erewrite render_other; [|exact Hrender|by intros ->].
    cbn [files]. by eapply mkdirFrom_mono.
Qed.

(** The page of a tag at the end of the loop: it comes from the record of
    the last tag with that page. *)
Lemma renderTags_page (cfg : Config.t) (tags : list Tag.t) (w w' : World) (t : Tag.t)
    (m : gmap bytes bytes) :
  renderTags' cfg tags w = Ok w' →
  sameIncludes ExecuteTemplate (includesRender w) m →
  t ∈ tags →
  ∃ t' layoutTempl,
    t' ∈ tags ∧ tagPage t' = tagPage t
    ∧ layouts (str "tagged") = Some layoutTempl
    ∧ files w' !! tagPage t
      = Some (os.File (layoutTempl
                         {| lc_Content := []; lc_Site := cfg; lc_Post := tagAsPost t';
                            lc_Includes :=
                              renderIncludes ExecuteTemplate
                                {| ic_Site := cfg; ic_Post := tagAsPost t' |} m;
                            lc_Tag := t' |})).
Proof.
  revert w t. induction tags as [|t0 tags IH]; intros w t Hrun Hsame Hin.
  - by apply elem_of_nil in Hin.
  - apply renderTags_cons in Hrun as (fs & w1 & Hmk & Hrender & Hrest).
    assert (sameIncludes ExecuteTemplate (includesRender w1) m) as Hsame1.
    { eapply sameIncludes_after; [exact Hrender|exact Hsame]. }
    assert (∀ t1, t1 ∈ tags →
              ∃ t' layoutTempl,
                t' ∈ t0 :: tags ∧ tagPage t' = tagPage t1
                ∧ layouts (str "tagged") = Some layoutTempl
                ∧ files w' !! tagPage t1
                  = Some (os.File (layoutTempl
                       {| lc_Content := []; lc_Site := cfg; lc_Post := tagAsPost t';
                          lc_Includes :=
                            renderIncludes ExecuteTemplate
                              {| ic_Site := cfg; ic_Post := tagAsPost t' |} m;
                          lc_Tag := t' |}))) as Hlater.
    { intros t1 Ht1.
      destruct (IH _ _ Hrest Hsame1 Ht1) as (t' & layoutTempl & Ht' & Hsamepage & Hl & Hpage).
      exists t', layoutTempl. split; [by apply elem_of_cons; right|done]. }
    apply elem_of_cons in Hin as [->|Hin]; [|by apply Hlater].
    destruct (decide (Exists (λ t1, tagPage t1 = tagPage t0) tags)) as [Hex|Hnone].
    + apply Exists_exists in Hex as (t1 & Ht1 & Hsamepage).
      destruct (Hlater t1 Ht1) as (t' & layoutTempl & Ht' & Hpage' & Hl & Hpage).
      exists t', layoutTempl. rewrite <- Hsamepage. split; [done|]. split; [congruence|].
      done.
    + apply not_Exists_Forall in Hnone; [|intros ?; apply _].
      destruct (render_tag_page _ _ _ _ Hrender) as (layoutTempl & Hl & Hpage).
      exists t0, layoutTempl. split; [by apply elem_of_cons; left|]. split; [done|].
      split; [done|]. cbn [includesRender] in Hpage. rewrite (Hsame _) in Hpage.
      eapply renderTags_page_kept; [exact Hrest| |exact Hpage].
      eapply Forall_impl; [exact Hnone|]. intros t1 Hne. exact Hne.
Qed.

End tag_record_facts.

Lemma MainGo_renderTags_at {W : Type} (MkdirAll : bytes → W → result W)
    (render : MainGo.Post.t → bytes → MainGo.Tag.t → W → result W)
    (before after : list MainGo.Tag.t) (t : MainGo.Tag.t) (u u' : W) :
  MainGo.renderTags MkdirAll render (before ++ t :: after) u = Ok u' →
  ∃ u1 u2 u3,
    MainGo.renderTags MkdirAll render before u = Ok u1
    ∧ MkdirAll (filepath.Join [str "doc"; str "tagged"; MainGo.Tag.Slug t]) u1 = Ok u2
    ∧ render (MainGo.tagAsPost t)
        (filepath.Join [str "doc"; str "tagged"; MainGo.Tag.Slug t]) t u2 = Ok u3
    ∧ MainGo.renderTags MkdirAll render after u3 = Ok u'.
Proof.
  revert u. induction before as [|t0 before IH]; intros u Hrun.
  - cbn [app MainGo.renderTags] in Hrun.
    destruct (MkdirAll _ u) as [u2|] eqn:Hmk; [|done].
    cbn [wrap mbind result_bind] in Hrun.
    destruct (render (MainGo.tagAsPost t) _ t u2) as [u3|] eqn:Hrender; [|done].
    cbn [wrap mbind result_bind] in Hrun. by exists u, u2, u3.
  - cbn [app MainGo.renderTags] in Hrun.
    destruct (MkdirAll _ u) as [v2|] eqn:Hmk; [|done].
    cbn [wrap mbind result_bind] in Hrun.
    destruct (render (MainGo.tagAsPost t0) _ t0 v2) as [v3|] eqn:Hrender; [|done].
    cbn [wrap mbind result_bind] in Hrun.
    destruct (IH _ Hrun) as (u1 & u2 & u3 & Hbefore & Hmk' & Hrender' & Hafter).
    exists u1, u2, u3. split; [|done]. cbn [MainGo.renderTags]. rewrite Hmk.
    cbn [wrap mbind result_bind]. rewrite Hrender. done.
Qed.

(** C5, amended. For every tag [t] of the collection, the loop of
    [generate] over the tags, when it succeeds, has made the record
    without body whose root name is the slug of [t] and whose layout is
    the fixed name [tagged], and has rendered the page of [t] from it: in
    the state the tags before [t] have left, it makes the directory
    [docs/tagged/<slug>] and hands the record, and [t] next to it, to
    [render], and the page [<slug>.html] of that directory then holds the
    output of the layout [tagged] on that record, [t], the site and the
    includes rendered for that record; the tags after [t] are rendered
    from the state this leaves. When no slug holds an element [..], the
    page holds at the end of the loop the output on the record of a tag of
    the collection with that same page path, [t] itself when no other tag
    has it. In [format] of main.go the record has the slug of the tag as
    root name and the layout of the tag as layout, and the loop hands it
    to [render] in the same way. *)
Theorem C5_tag_page
    (ExecuteTemplate : bytes → IncludesContent → bytes)
    (layouts : bytes → option (LayoutContent → bytes))
    (cfg : Config.t) (tags : list Tag.t) (w w' : World) (t : Tag.t) :
  renderTags ExecuteTemplate layouts cfg tags w = Ok w' →
  t ∈ tags →
  (Post.RootName (tagAsPost t) = Tag.Slug t
   ∧ Post.Layout (tagAsPost t) = str "tagged"
   ∧ Post.Markdown (tagAsPost t) = []
   ∧ Post.HTML (tagAsPost t) = [])
  ∧ (∃ before after w1 fs w2 layoutTempl,
       tags = before ++ t :: after
       ∧ renderTags ExecuteTemplate layouts cfg before w = Ok w1
       ∧ tree.MkdirAll (files w1) (filepath.Join [SITE_DIR; str "tagged"; Tag.Slug t])
         = Ok fs
       ∧ render ExecuteTemplate layouts (tagAsPost t)
           (filepath.Join [SITE_DIR; str "tagged"; Tag.Slug t]) cfg t
           {| files := fs; includesRender := includesRender w1 |}
         = Ok w2
       ∧ layouts (str "tagged") = Some layoutTempl
       ∧ files w2 !! tagPage t
         = Some (os.File (layoutTempl
                            {| lc_Content := []; lc_Site := cfg;
                               lc_Post := tagAsPost t;
                               lc_Includes :=
                                 renderIncludes ExecuteTemplate
                                   {| ic_Site := cfg; ic_Post := tagAsPost t |}
                                   (includesRender w);
                               lc_Tag := t |}))
       ∧ renderTags ExecuteTemplate layouts cfg after w2 = Ok w')
  ∧ (Forall (λ t0, clean (Tag.Slug t0)) tags →
     ∃ t' layoutTempl,
       t' ∈ tags ∧ tagPage t' = tagPage t
       ∧ ((∀ t0, t0 ∈ tags → tagPage t0 = tagPage t → t0 = t) → t' = t)
       ∧ layouts (str "tagged") = Some layoutTempl
       ∧ files w' !! tagPage t
         = Some (os.File (layoutTempl
                            {| lc_Content := []; lc_Site := cfg;
                               lc_Post := tagAsPost t';
                               lc_Includes :=
                                 renderIncludes ExecuteTemplate
                                   {| ic_Site := cfg; ic_Post := tagAsPost t' |}
                                   (includesRender w);
                               lc_Tag := t' |})))
  ∧ (∀ t0 : MainGo.Tag.t,
       MainGo.Post.RootName (MainGo.tagAsPost t0) = MainGo.Tag.Slug t0
       ∧ MainGo.Post.Layout (MainGo.tagAsPost t0) = MainGo.Tag.Layout t0
       ∧ MainGo.Post.Markdown (MainGo.tagAsPost t0) = []
       ∧ MainGo.Post.HTML (MainGo.tagAsPost t0) = [])
  ∧ (∀ (W : Type) (MkdirAll : bytes → W → result W)
       (render0 : MainGo.Post.t → bytes → MainGo.Tag.t → W → result W)
       (before after : list MainGo.Tag.t) (t0 : MainGo.Tag.t) (u u' : W),
       MainGo.renderTags MkdirAll render0 (before ++ t0 :: after) u = Ok u' →
       ∃ u1 u2 u3,
         MainGo.renderTags MkdirAll render0 before u = Ok u1
         ∧ MkdirAll (filepath.Join [str "doc"; str "tagged"; MainGo.Tag.Slug t0]) u1
           = Ok u2
         ∧ render0 (MainGo.tagAsPost t0)
             (filepath.Join [str "doc"; str "tagged"; MainGo.Tag.Slug t0]) t0 u2
           = Ok u3
         ∧ MainGo.renderTags MkdirAll render0 after u3 = Ok u').
Proof.
  intros Hrun Hin. split; [done|]. split; [|split; [|split; [done|]]].
  - apply list_elem_of_split in Hin as (before & after & ->).
    destruct (renderTags_app _ _ _ _ _ _ _ Hrun) as (w1 & Hbefore & Hrest).
    apply renderTags_cons in Hrest as (fs & w2 & Hmk & Hrender & Hafter).
    destruct (render_tag_page _ _ _ _ _ _ Hrender) as (layoutTempl & Hl & Hpage).
    exists before, after, w1, fs, w2, layoutTempl.
    do 5 (split; [done|]). split; [|done]. rewrite Hpage. cbn [includesRender].
    assert (sameIncludes ExecuteTemplate (includesRender w1) (includesRender w)) as Hsame.
    { eapply renderTags_after; [exact Hbefore|done]. }
    by rewrite (Hsame _).
  - intros _.
    destruct (renderTags_page _ _ _ _ _ _ t (includesRender w) Hrun) as
      (t' & layoutTempl & Ht' & Hsamepage & Hl & Hpage); [done|done|].
    exists t', layoutTempl. split; [done|]. split; [done|]. split; [|done].
    intros Honly. by apply Honly.
  - intros W MkdirAll render0 before after t0 u u'. apply MainGo_renderTags_at.
Qed.

Lemma C5_tag_page_witness :
  ∃ w',
    renderTags noIncludes taggedOnly emptyConfig [goTag] emptyWorld = Ok w'
    ∧ goTag ∈ [goTag]
    ∧ Forall (λ t0, clean (Tag.Slug t0)) [goTag]
    ∧ files w' !! [str "docs"; str "tagged"; str "go"; str "go.html"]
      = Some (os.File (str "<h1>go</h1>")).
Proof.
  assert (isOk (renderTags noIncludes taggedOnly emptyConfig [goTag] emptyWorld) = true)
    as Hok by (vm_compute; reflexivity).
  destruct (renderTags noIncludes taggedOnly emptyConfig [goTag] emptyWorld)
    as [w'|] eqn:Hrun; [|discriminate Hok].
  assert (goTag ∈ [goTag]) as Hin by (by apply list_elem_of_singleton).
  assert (Forall (λ t0, clean (Tag.Slug t0)) [goTag]) as Hclean.
  { apply Forall_singleton. apply (bool_decide_unpack _). vm_compute. reflexivity. }
  exists w'. split; [reflexivity|]. split; [done|]. split; [done|].
  destruct (proj1 (proj2 (proj2 (C5_tag_page noIncludes taggedOnly emptyConfig [goTag]
                                   emptyWorld w' goTag Hrun Hin))) Hclean)
    as (t' & layoutTempl & Ht' & _ & _ & Hl & Hpage).
  apply list_elem_of_singleton in Ht' as ->.
  injection Hl as <-. exact Hpage.
Defined.
